(** * PBUI client: a shallow embedding of the connection manager, the event
    router and the state cache, with the properties of its specification.

    The JavaScript module is modelled by explicit state passing.  The client
    instance, the module-level [apiUrl] binding, the transport sockets created
    by [io], the promises and the effects performed (console lines, calls of
    callbacks, packets sent, timers set) are fields of one record, and every
    method is a function on that record.  An [async] method is a resumption
    that stops at each [await].

    What lies outside the module is modelled as follows.
    - Sockets are event emitters as in socket.io-client: listeners run in
      registration order over the list taken when the event is raised, a
      [once] listener is removed just before it runs, [off()] without
      argument removes every listener.
    - Callbacks given by the caller are opaque: a call is recorded with its
      argument, the body is not run.
    - Objects used as maps ([listeners], [data]) are finite maps from strings
      for their own entries; a read that finds no own entry goes on to the
      members that every object inherits from [Object.prototype].
    - Console lines are recorded by their fixed text.
    - The REST helpers of [funcs] ([_fetchData], [_handleResponses],
      [_parseXML]) are never reached through the class object; where a
      method would call them they are a parameter.  The auth token is
      stored and never read, and is left out. *)

From Stdlib Require Import QArith.
From stdpp Require Import gmap strings list fin_maps.

Set Warnings "-register-all".
Local Close Scope Q_scope.
Local Open Scope Z_scope.

(** ** JavaScript values *)

Module JS.

(** A number is NaN, an infinity, or finite; a finite number is given by its
    value, so that [+0] and [-0] are the same number, as they are for [===]. *)
Inductive Num : Type :=
| NaN
| PosInf
| NegInf
| Fin (q : Q).

(** A [Blob] (a [File] is one) has no own enumerable property. *)
Inductive ObjKind : Type := PlainObject | ArrayObject | BlobObject.

(** Objects and functions carry the reference they live at; [props] are the
    own enumerable string-keyed properties in [Object.keys] order (for an
    array, the indices).  Values are finite trees: cyclic structures, on
    which the source's recursion does not end, are outside the model. *)
Inductive Value : Type :=
| VUndefined
| VNull
| VBool (b : bool)
| VNum (n : Num)
| VStr (s : string)
| VFun (ref : nat)
| VObj (ref : nat) (kind : ObjKind) (props : list (string * Value)).

Inductive Exn : Type :=
| TypeError (msg : string)
| Error (msg : string).

Definition num_strict_eq (a b : Num) : bool :=
  match a, b with
  | PosInf, PosInf => true
  | NegInf, NegInf => true
  | Fin p, Fin q => Qeq_bool p q
  | _, _ => false
  end.

(** [a === b] *)
Definition strict_eq (a b : Value) : bool :=
  match a, b with
  | VUndefined, VUndefined => true
  | VNull, VNull => true
  | VBool x, VBool y => Bool.eqb x y
  | VNum x, VNum y => num_strict_eq x y
  | VStr x, VStr y => String.eqb x y
  | VFun r, VFun s => Nat.eqb r s
  | VObj r _ _, VObj s _ _ => Nat.eqb r s
  | _, _ => false
  end.

(** [!v] is true on the falsy values *)
Definition falsy (v : Value) : bool :=
  match v with
  | VUndefined | VNull => true
  | VBool b => negb b
  | VNum NaN => true
  | VNum (Fin q) => Qeq_bool q 0
  | VNum _ => false
  | VStr s => String.eqb s ""
  | VFun _ | VObj _ _ _ => false
  end.

Inductive TypeTag : Type :=
| TUndefined | TObject | TBoolean | TNumber | TString | TFunction.

(** [typeof v] *)
Definition typeof (v : Value) : TypeTag :=
  match v with
  | VUndefined => TUndefined
  | VNull => TObject
  | VBool _ => TBoolean
  | VNum _ => TNumber
  | VStr _ => TString
  | VFun _ => TFunction
  | VObj _ _ _ => TObject
  end.

Definition is_object_type (v : Value) : bool :=
  match typeof v with TObject => true | _ => false end.

(** [Object.keys(v)] *)
Definition keys (v : Value) : list string :=
  match v with
  | VObj _ _ props => map fst props
  | _ => []
  end.

(** [v[key]] on own properties *)
Fixpoint lookup_prop (key : string) (props : list (string * Value)) : Value :=
  match props with
  | [] => VUndefined
  | (k, x) :: rest => if String.eqb k key then x else lookup_prop key rest
  end.

Definition get (v : Value) (key : string) : Value :=
  match v with
  | VObj _ _ props => lookup_prop key props
  | _ => VUndefined
  end.

(** [keys.includes(key)] *)
Definition includes (ks : list string) (key : string) : bool :=
  existsb (String.eqb key) ks.

(** [isNaN(v)] for a value of type number *)
Definition isNaN (v : Value) : bool :=
  match v with VNum NaN => true | _ => false end.

(** [v instanceof Blob] *)
Definition is_Blob (v : Value) : bool :=
  match v with VObj _ BlobObject _ => true | _ => false end.

(** *** Objects used as maps

    An object made by [{}] inherits the members of [Object.prototype]:
    eleven functions and the accessor [__proto__], which reads as
    [Object.prototype] itself, an object without enumerable property.  None
    of them is an array, and all of them are truthy.  The model keeps them
    at the references 100 to 111. *)
Definition Object_prototype : list (string * Value) :=
  [("constructor", VFun 101); ("__defineGetter__", VFun 102);
   ("__defineSetter__", VFun 103); ("hasOwnProperty", VFun 104);
   ("__lookupGetter__", VFun 105); ("__lookupSetter__", VFun 106);
   ("isPrototypeOf", VFun 107); ("propertyIsEnumerable", VFun 108);
   ("toString", VFun 109); ("valueOf", VFun 110);
   ("toLocaleString", VFun 111);
   ("__proto__", VObj 100 PlainObject [])]%string.

(** [key in Object.prototype] *)
Definition inherited (key : string) : bool :=
  includes (map fst Object_prototype) key.

(** What [o[key]] finds on an object [o] made by [{}] whose own entries are
    [m] and hold values of one sort (lists of listeners, say): the own
    entry, or else an inherited member, which is not of that sort, or
    nothing. *)
Inductive Property (A : Type) : Type :=
| Own (x : A)
| Inherited
| Absent.

Arguments Own {A} x.
Arguments Inherited {A}.
Arguments Absent {A}.

Definition property {A} (m : gmap string A) (key : string) : Property A :=
  match m !! key with
  | Some x => Own x
  | None => if inherited key then Inherited else Absent
  end.

End JS.

Import JS.

(** ** class funcs *)

Module funcs.

(** The members of the class.  All four are declared without [static]: they
    are properties of [funcs.prototype], and the class object [funcs] itself
    has no member of its own. *)
Definition prototype_members : list string :=
  ["_valueEqual"; "_parseXML"; "_handleResponses"; "_fetchData"]%string.
Definition static_members : list string := [].

(** The property read [funcs.name] on the class object finds static members
    only. *)
Definition has_static (name : string) : bool :=
  existsb (String.eqb name) static_members.

(** [_valueEqual(obj1, obj2)], lines 275-291.  The loop runs over the keys of
    [obj1]; since the keys of an object are distinct, [obj1[key]] is the value
    bound next to [key] in [props]. *)
Fixpoint _valueEqual (obj1 obj2 : Value) {struct obj1} : bool :=
  if strict_eq obj1 obj2 then true
  else if falsy obj1 || falsy obj2
          || negb (is_object_type obj1) || negb (is_object_type obj2)
  then strict_eq obj1 obj2
  else
    match obj1 with
    | VObj _ _ props1 =>
        let keys2 := keys obj2 in
        if negb (Nat.eqb (length props1) (length keys2)) then false
        else
          forallb
            (fun kv : string * Value =>
               let (key, x) := kv in
               if negb (includes keys2 key) then false
               else if negb (_valueEqual x (get obj2 key)) then false
               else true)
            props1
    | _ => false
    end.

End funcs.

(** ** Observable effects *)

Definition Listener := nat.
Definition SocketId := nat.
Definition PromiseId := nat.

Inductive Level : Type := Log | Warn | Err.

(** The callback given to [setTimeout] in [_reconnect] is the only one. *)
Inductive TimerAction : Type := ReconnectNow.

Inductive Effect : Type :=
| Console (lvl : Level) (msg : string)
| Invoke (f : Listener) (arg : Value)
| SocketSend (s : SocketId) (event : string) (payload : Value)
| SetTimeout (delay : Z) (cb : TimerAction)
| SetInterval (id : nat) (ms : Z)
| ClearInterval (id : nat)
| Fetch (endpoint method : string) (body : Value).

(** The delays of the timeouts set, in order. *)
Definition delays (tr : list Effect) : list Z :=
  omap (fun e => match e with SetTimeout d _ => Some d | _ => None end) tr.

(** ** class PBUIState: the state cache *)

Module PBUIState.

Record t : Type := mk {
  data : gmap string Value;
  listeners : gmap string (list Listener);
  trace : list Effect
}.

(** [constructor()], lines 346-350 *)
Definition constructor : t := {| data := ∅; listeners := ∅; trace := [] |}.

Definition emit (es : list Effect) (st : t) : t :=
  {| data := data st; listeners := listeners st; trace := trace st ++ es |}.

Definition set_data (key : string) (value : Value) (st : t) : t :=
  {| data := <[key := value]> (data st); listeners := listeners st;
     trace := trace st |}.

(** [this.data[key]]: the own entry, or else the member that the object
    inherits under that name, or else [undefined] *)
Definition read (st : t) (key : string) : Value :=
  match data st !! key with
  | Some v => v
  | None => lookup_prop key Object_prototype
  end.

(** The statements of [_internalUpdate] once the callee [equal] has been
    found, lines 353-358.  When [this.listeners[key]] is an inherited
    member, [forEach] is missing on it and the call throws, after the value
    has been stored.  The assignment of line 354 makes or replaces an own
    entry; under the one key [__proto__] it sets the prototype of the
    object instead, which the model does not follow: what is proved of a
    stored value leaves that key out. *)
Definition _internalUpdate_with (equal : Value -> Value -> bool)
    (key : string) (value : Value) (st : t) : (Exn + unit) * t :=
  if negb (equal (read st key) value) then
    let st := set_data key value st in
    match property (listeners st) key with
    | Own callbacks =>
        (inr tt, emit (map (fun callback => Invoke callback value) callbacks) st)
    | Inherited =>
        (inl (TypeError "this.listeners[key].forEach is not a function"), st)
    | Absent => (inr tt, st)
    end
  else (inr tt, st).

(** [_internalUpdate(key, value)], lines 352-359.  The callee is read off the
    class object, [funcs._valueEqual]; calling a missing member throws. *)
Definition _internalUpdate (key : string) (value : Value) (st : t)
    : (Exn + unit) * t :=
  if funcs.has_static "_valueEqual" then
    _internalUpdate_with funcs._valueEqual key value st
  else (inl (TypeError "funcs._valueEqual is not a function"), st).

Section Update.

(** The REST collaborator: what [_fetchData(endpoint, method, body)] of an
    instance of [funcs] answers, a decoded response or a failure. *)
Variable fetchData : string -> string -> Value -> Exn + Value.

(** [data.success]; reading a member of [undefined] or [null] throws. *)
Definition member (v : Value) (key : string) : Exn + Value :=
  match v with
  | VUndefined | VNull => inl (TypeError "Cannot read properties")
  | _ => inr (get v key)
  end.

(** The three guards of [update], lines 376-384: the error thrown, if
    any *)
Definition validate (songStates currentFlowStep : Value) : option Exn :=
  if negb (is_object_type songStates) || strict_eq songStates VNull then
    Some (Error "[PBUI] Invalid songStates: Must be an object.")
  else if Nat.eqb (length (keys songStates)) 0 then
    Some (Error "[PBUI] songStates should not be empty.")
  else if negb (match typeof currentFlowStep with TNumber => true | _ => false end)
          || isNaN currentFlowStep then
    Some (Error "[PBUI] Invalid flowStep: Must be a number.")
  else None.

(** [update(songStates, currentFlowStep)], lines 375-389 *)
Definition update (songStates currentFlowStep : Value) (st : t)
    : (Exn + bool) * t :=
  match validate songStates currentFlowStep with
  | Some e => (inl e, st)
  | None =>
      let body :=
        VObj 0 PlainObject
          [("song_states"%string, songStates);
           ("current_flow_step"%string, currentFlowStep)] in
      if funcs.has_static "_fetchData" then
        let st := emit [Fetch "/update" "POST" body] st in
        match fetchData "/update" "POST" body with
        | inl e => (inl e, st)
        | inr data =>
            match member data "success" with
            | inl e => (inl e, st)
            | inr success => (inr (negb (falsy success)), st)
            end
        end
      else (inl (TypeError "funcs._fetchData is not a function"), st)
  end.

End Update.

End PBUIState.

(** ** Module-level bindings *)

Inductive BindingKind : Type := ConstBinding | LetBinding.

Record Binding : Type := { kind : BindingKind; value : string }.

(** [name = v]: assigning to a [const] binding throws. *)
Definition assign (b : Binding) (v : string) : Exn + Binding :=
  match kind b with
  | ConstBinding => inl (TypeError "Assignment to constant variable.")
  | LetBinding => inr {| kind := LetBinding; value := v |}
  end.

(** [const apiUrl = 'https://api.ultraslayyy.xyz/api'], line 4 *)
Definition apiUrl_declared : Binding :=
  {| kind := ConstBinding; value := "https://api.ultraslayyy.xyz/api" |}.

(** ** The transport: sockets as event emitters *)

(** The functions the client registers on a socket, one constructor for each
    function expression of the source; the promise is the one whose
    [resolve] or [reject] the function closes over. *)
Inductive Handler : Type :=
| OnConnect (p : PromiseId)          (* lines 60-66 *)
| OnConnectError (p : PromiseId)     (* lines 68-72 *)
| OnDisconnect                       (* lines 86-94 *)
| OnInitialState                     (* lines 96-98 *)
| OnStateUpdated                     (* lines 100-102 *)
| OnDisconnected (p : PromiseId)     (* lines 151-155 *)
| UserCallback (f : Listener).       (* the callback given to [on] *)

Record Registration : Type := {
  reg_event : string;
  reg_once : bool;
  reg_handler : Handler
}.

Global Instance Handler_eq_dec : EqDecision Handler.
Proof. solve_decision. Defined.
Global Instance Registration_eq_dec : EqDecision Registration.
Proof. solve_decision. Defined.

Record Socket : Type := {
  url : string;
  connected : bool;
  handlers : list Registration
}.

Inductive PromiseState : Type :=
| Pending
| Fulfilled
| Rejected (reason : Exn).

(** ** class PBUI: connection manager and event router *)

Module PBUI.

(** The fields of the instance that the connection manager and the event
    router use (lines 9-18), followed by what they act on: the module's
    [apiUrl], the sockets made by [io], the promises made so far, and the
    effects performed so far. *)
Record t : Type := mk {
  socket : option SocketId;
  listeners : gmap string (list Listener);
  reconnectionAttempts : nat;
  heartbeatInterval : option nat;
  connecting : bool;
  connectionPromise : option PromiseId;
  manualDisconnect : bool;
  apiUrl : Binding;
  sockets : list Socket;
  promises : list PromiseState;
  trace : list Effect
}.

Definition set_socket (x : option SocketId) (w : t) : t :=
  mk x (listeners w) (reconnectionAttempts w) (heartbeatInterval w) (connecting w) (connectionPromise w) (manualDisconnect w) (apiUrl w) (sockets w) (promises w) (trace w).
Definition set_listeners (x : gmap string (list Listener)) (w : t) : t :=
  mk (socket w) x (reconnectionAttempts w) (heartbeatInterval w) (connecting w) (connectionPromise w) (manualDisconnect w) (apiUrl w) (sockets w) (promises w) (trace w).
Definition set_reconnectionAttempts (x : nat) (w : t) : t :=
  mk (socket w) (listeners w) x (heartbeatInterval w) (connecting w) (connectionPromise w) (manualDisconnect w) (apiUrl w) (sockets w) (promises w) (trace w).
Definition set_heartbeatInterval (x : option nat) (w : t) : t :=
  mk (socket w) (listeners w) (reconnectionAttempts w) x (connecting w) (connectionPromise w) (manualDisconnect w) (apiUrl w) (sockets w) (promises w) (trace w).
Definition set_connecting (x : bool) (w : t) : t :=
  mk (socket w) (listeners w) (reconnectionAttempts w) (heartbeatInterval w) x (connectionPromise w) (manualDisconnect w) (apiUrl w) (sockets w) (promises w) (trace w).
Definition set_connectionPromise (x : option PromiseId) (w : t) : t :=
  mk (socket w) (listeners w) (reconnectionAttempts w) (heartbeatInterval w) (connecting w) x (manualDisconnect w) (apiUrl w) (sockets w) (promises w) (trace w).
Definition set_manualDisconnect (x : bool) (w : t) : t :=
  mk (socket w) (listeners w) (reconnectionAttempts w) (heartbeatInterval w) (connecting w) (connectionPromise w) x (apiUrl w) (sockets w) (promises w) (trace w).
Definition set_apiUrl (x : Binding) (w : t) : t :=
  mk (socket w) (listeners w) (reconnectionAttempts w) (heartbeatInterval w) (connecting w) (connectionPromise w) (manualDisconnect w) x (sockets w) (promises w) (trace w).
Definition set_sockets (x : list Socket) (w : t) : t :=
  mk (socket w) (listeners w) (reconnectionAttempts w) (heartbeatInterval w) (connecting w) (connectionPromise w) (manualDisconnect w) (apiUrl w) x (promises w) (trace w).
Definition set_promises (x : list PromiseState) (w : t) : t :=
  mk (socket w) (listeners w) (reconnectionAttempts w) (heartbeatInterval w) (connecting w) (connectionPromise w) (manualDisconnect w) (apiUrl w) (sockets w) x (trace w).
Definition set_trace (x : list Effect) (w : t) : t :=
  mk (socket w) (listeners w) (reconnectionAttempts w) (heartbeatInterval w) (connecting w) (connectionPromise w) (manualDisconnect w) (apiUrl w) (sockets w) (promises w) x.

(** [constructor()], lines 8-19 *)
Definition constructor : t :=
  {| socket := None; listeners := ∅; reconnectionAttempts := 0%nat;
     heartbeatInterval := None; connecting := false;
     connectionPromise := None; manualDisconnect := false;
     apiUrl := apiUrl_declared; sockets := []; promises := []; trace := [] |}.

Definition emit (es : list Effect) (w : t) : t := set_trace (trace w ++ es) w.

(** *** Promises *)

Definition new_promise (w : t) : PromiseId * t :=
  (length (promises w), set_promises (promises w ++ [Pending]) w).

Definition settle (p : PromiseId) (r : PromiseState) (w : t) : t :=
  match promises w !! p with
  | Some Pending => set_promises (<[p := r]> (promises w)) w
  | _ => w
  end.

Definition resolve (p : PromiseId) : t -> t := settle p Fulfilled.
Definition reject (p : PromiseId) (e : Exn) : t -> t := settle p (Rejected e).

(** *** Sockets *)

(** [io(url, ...)]: a new socket, not yet connected, with no listener *)
Definition io (u : string) (w : t) : SocketId * t :=
  (length (sockets w),
   set_sockets (sockets w ++ [{| url := u; connected := false; handlers := [] |}]) w).

Definition alter_socket (f : Socket -> Socket) (sid : SocketId) (w : t) : t :=
  set_sockets (alter f sid (sockets w)) w.

Definition add_handler (r : Registration) (s : Socket) : Socket :=
  {| url := url s; connected := connected s; handlers := handlers s ++ [r] |}.

(** [socket.on(event, fn)] and [socket.once(event, fn)] *)
Definition socket_on (sid : SocketId) (event : string) (h : Handler) : t -> t :=
  alter_socket (add_handler {| reg_event := event; reg_once := false; reg_handler := h |}) sid.
Definition socket_once (sid : SocketId) (event : string) (h : Handler) : t -> t :=
  alter_socket (add_handler {| reg_event := event; reg_once := true; reg_handler := h |}) sid.

(** [socket.off()] with no argument removes every listener *)
Definition socket_off (sid : SocketId) : t -> t :=
  alter_socket (fun s => {| url := url s; connected := connected s; handlers := [] |}) sid.

Fixpoint remove_first (r : Registration) (l : list Registration) : list Registration :=
  match l with
  | [] => []
  | x :: rest => if decide (x = r) then rest else x :: remove_first r rest
  end.

(** [socket.off(event, fn)], which a [once] listener does before it runs *)
Definition socket_off_one (sid : SocketId) (r : Registration) : t -> t :=
  alter_socket
    (fun s => {| url := url s; connected := connected s;
                 handlers := remove_first r (handlers s) |}) sid.

Definition set_connected (b : bool) (sid : SocketId) : t -> t :=
  alter_socket (fun s => {| url := url s; connected := b; handlers := handlers s |}) sid.

(** [socket.disconnect()] closes the transport.  The [disconnect] event that
    the transport raises for it is delivered by [deliver] below. *)
Definition socket_disconnect (sid : SocketId) : t -> t := set_connected false sid.

(** [this.socket && this.socket.connected] *)
Definition live (w : t) : bool :=
  match socket w with
  | Some sid =>
      match sockets w !! sid with
      | Some s => connected s
      | None => false
      end
  | None => false
  end.

(** *** Heartbeat, lines 105-120 *)

Definition _stopHeartbeat (w : t) : t :=
  match heartbeatInterval w with
  | Some id => set_heartbeatInterval None (emit [ClearInterval id] w)
  | None => w
  end.

Definition _startHeartbeat (w : t) : t :=
  match heartbeatInterval w with
  | Some _ => w
  | None =>
      let w := _stopHeartbeat w in
      let id := length (trace w) in
      set_heartbeatInterval (Some id) (emit [SetInterval id 30000] w)
  end.

(** The function given to [setInterval], lines 108-112 *)
Definition heartbeat_tick (w : t) : t :=
  match socket w with
  | Some sid => if live w then emit [SocketSend sid "ping" VUndefined] w else w
  | None => w
  end.

(** *** [_reconnect()], lines 122-139 *)

(** [Math.min(1000 * (2 ** this.reconnectionAttempts), 10000)], line 128 *)
Definition reconnect_delay (attempts : nat) : Z :=
  Z.min (1000 * 2 ^ Z.of_nat attempts) 10000.

Definition _reconnect (w : t) : t :=
  if (10 <=? reconnectionAttempts w)%nat then
    emit [Console Err "[PBUI] Max reconnection attempts reached or already reconnecting."] w
  else
    let w := set_connecting true w in
    let delay := reconnect_delay (reconnectionAttempts w) in
    let w := set_reconnectionAttempts (S (reconnectionAttempts w)) w in
    let w := emit [Console Log "[PBUI] Reconnecting..."] w in
    emit [SetTimeout delay ReconnectNow] w.

(** *** [_cleanupSocket()], lines 160-167 *)

Definition _cleanupSocket (w : t) : t :=
  let w :=
    match socket w with
    | Some sid =>
        let w := socket_off sid w in
        let w := socket_disconnect sid w in
        set_socket None w
    | None => w
    end in
  _stopHeartbeat w.

(** *** [_triggerListeners(event, data)], lines 223-227 *)

Definition _triggerListeners (event : string) (data : Value) (w : t)
    : (Exn + unit) * t :=
  match property (listeners w) event with
  | Own ls => (inr tt, emit (map (fun listener => Invoke listener data) ls) w)
  | Inherited =>
      (inl (TypeError "this.listeners[event].forEach is not a function"), w)
  | Absent => (inr tt, w)
  end.

(** *** The listeners the client puts on its socket *)

(** [error.message || 'Unknown error'], as text, for what the transport
    passes to a [connect_error] listener: an [Error], whose [message] is a
    string.  (A message of another sort is not spelled out.) *)
Definition error_message (error : Value) : string :=
  match get error "message" with
  | VStr m => if String.eqb m "" then "Unknown error" else m
  | v => if falsy v then "Unknown error" else "[object]"
  end.

Definition run_handler (h : Handler) (payload : Value) (w : t) : t :=
  match h with
  | OnConnect p =>
      let w := emit [Console Log "[PBUI] Connected to WebSocket"] w in
      let w := set_connecting false w in
      let w := set_reconnectionAttempts 0%nat w in
      let w := _startHeartbeat w in
      resolve p w
  | OnConnectError p =>
      let errorMsg := error_message payload in
      let w := emit [Console Warn ("[PBUI] Connection failed: " +:+ errorMsg)] w in
      reject p (Error ("Connection failed: " +:+ errorMsg)) w
  | OnDisconnect =>
      let w := emit [Console Warn "[PBUI] Disconnected"] w in
      let w := _cleanupSocket w in
      if negb (manualDisconnect w) then _reconnect w
      else set_manualDisconnect false w
  | OnInitialState => snd (_triggerListeners "initial-state" payload w)
  | OnStateUpdated => snd (_triggerListeners "state-updated" payload w)
  | OnDisconnected p =>
      let w := _cleanupSocket w in
      let w := emit [Console Log "[PBUI] WebSocket fully disconnected."] w in
      resolve p w
  | UserCallback f => emit [Invoke f payload] w
  end.

(** The socket raises [event]: the listeners registered for it at that
    moment run in registration order, a [once] listener being removed just
    before it runs. *)
Definition deliver_step (sid : SocketId) (payload : Value) (w : t)
    (r : Registration) : t :=
  let w := if reg_once r then socket_off_one sid r w else w in
  run_handler (reg_handler r) payload w.

Definition deliver (sid : SocketId) (event : string) (payload : Value) (w : t) : t :=
  match sockets w !! sid with
  | Some s =>
      foldl (deliver_step sid payload) w
        (filter (fun r => reg_event r = event) (handlers s))
  | None => w
  end.

(** What the transport reports *)
Definition transport_connect (sid : SocketId) (w : t) : t :=
  deliver sid "connect" VUndefined (set_connected true sid w).
Definition transport_connect_error (sid : SocketId) (error : Value) (w : t) : t :=
  deliver sid "connect_error" error w.
Definition transport_disconnect (sid : SocketId) (reason : Value) (w : t) : t :=
  deliver sid "disconnect" reason (set_connected false sid w).

(** *** [_setupEventHandlers()], lines 81-103 *)

Definition _setupEventHandlers (w : t) : t :=
  match socket w with
  | None => w
  | Some sid =>
      let w := socket_on sid "disconnect" OnDisconnect w in
      let w := socket_on sid "initial-state" OnInitialState w in
      socket_on sid "state-updated" OnStateUpdated w
  end.

(** *** [async] methods

    An [async] method runs until it returns, throws, or reaches an [await];
    there it stops with the state it has produced and the rest of its body,
    which takes the outcome of what was awaited and the state of the client
    at the moment it is resumed (other code may have run in between). *)

Inductive Awaited : Type :=
| AwaitPromise (p : PromiseId)
| AwaitValue.          (* not a promise, or the result of a call that ended *)

Inductive Settled : Type :=
| Resolved
| Failed (e : Exn).

Inductive Task (A : Type) : Type :=
| Return (a : A) (w : t)
| Throw (e : Exn) (w : t)
| Await (p : Awaited) (w : t) (k : Settled -> t -> Task A).

Arguments Return {A} a w.
Arguments Throw {A} e w.
Arguments Await {A} p w k.

Definition awaited_of (p : option PromiseId) : Awaited :=
  match p with Some p => AwaitPromise p | None => AwaitValue end.

(** The rest of a body after a call that may itself stop, with the handler
    of the enclosing [try] for what the call throws. *)
Fixpoint try_bind {A B} (m : Task A) (f : A -> t -> Task B)
    (h : Exn -> t -> Task B) : Task B :=
  match m with
  | Return a w => f a w
  | Throw e w => h e w
  | Await p w k => Await p w (fun s w' => try_bind (k s w') f h)
  end.

(** [try { x = await call } catch (e) { h }]: the body resumes in a later
    turn even when the call ended at once. *)
Definition try_await_call {A B} (m : Task A) (f : A -> t -> Task B)
    (h : Exn -> t -> Task B) : Task B :=
  match m with
  | Return a w => Await AwaitValue w (fun _ w' => f a w')
  | Throw e w => Await AwaitValue w (fun _ w' => h e w')
  | Await p w k => Await p w (fun s w' => try_bind (k s w') f h)
  end.

(** [x = await call] outside any [try] *)
Definition await_call {A B} (m : Task A) (f : A -> t -> Task B) : Task B :=
  try_await_call m f Throw.

(** [await promise], and [return promise] at the end of an [async] body *)
Definition await_promise (p : option PromiseId) (w : t) : Task unit :=
  Await (awaited_of p) w
    (fun s w' => match s with Resolved => Return tt w' | Failed e => Throw e w' end).

(** Where a stopped method is, and how it goes on. *)
Definition awaits {A} (m : Task A) : option Awaited :=
  match m with Await p _ _ => Some p | _ => None end.

Definition state_of {A} (m : Task A) : t :=
  match m with Return _ w | Throw _ w | Await _ w _ => w end.

Definition resume {A} (m : Task A) (s : Settled) (w : t) : Task A :=
  match m with Await _ _ k => k s w | _ => m end.

(** The outcome of what is awaited, read in the state: a pending promise
    blocks. *)
Definition outcome (p : Awaited) (w : t) : option Settled :=
  match p with
  | AwaitValue => Some Resolved
  | AwaitPromise p =>
      match promises w !! p with
      | Some Fulfilled => Some Resolved
      | Some (Rejected e) => Some (Failed e)
      | _ => None
      end
  end.

(** The method run on its own, no other code running while it is stopped;
    [None] when it stops on a promise that is still pending. *)
Fixpoint run_alone {A} (m : Task A) : option ((Exn + A) * t) :=
  match m with
  | Return a w => Some (inr a, w)
  | Throw e w => Some (inl e, w)
  | Await p w k =>
      match outcome p w with
      | Some s => run_alone (k s w)
      | None => None
      end
  end.

Definition NotConnectedError : Exn := Error "[PBUI] Websocket not connected.".

(** *** [_ensureConnected()], lines 76-79 *)

Definition _ensureConnected (w : t) : Task unit :=
  let check (w : t) : Task unit :=
    if negb (live w) then Throw NotConnectedError w else Return tt w in
  if connecting w then
    try_bind (await_promise (connectionPromise w) w) (fun _ w => check w) Throw
  else check w.

(** *** [on], [send], lines 169-187 *)

Definition on (event : string) (callback : Listener) (w : t) : Task unit :=
  await_call (_ensureConnected w)
    (fun _ w =>
       match socket w with
       | None => Return tt (emit [Console Err "[PBUI] Not connected to WebSocket."] w)
       | Some sid => Return tt (socket_on sid event (UserCallback callback) w)
       end).

Definition send (event : string) (data : Value) (w : t) : Task unit :=
  await_call (_ensureConnected w)
    (fun _ w =>
       match socket w with
       | None => Return tt (emit [Console Err "[PBUI] Not connected to WebSocket."] w)
       | Some sid => Return tt (emit [SocketSend sid event data] w)
       end).

(** *** [subscribe], [unsubscribe], lines 189-221 *)

(** [list.includes(x)] and [list.indexOf(x)] on listener references *)
Definition includes_listener (ls : list Listener) (f : Listener) : bool :=
  existsb (Nat.eqb f) ls.

Fixpoint indexOf (ls : list Listener) (f : Listener) : option nat :=
  match ls with
  | [] => None
  | x :: rest => if Nat.eqb x f then Some 0%nat else S <$> indexOf rest f
  end.

(** An inherited member is truthy, so that line 192 makes no list for its
    name, and it has no [includes]: line 196 throws. *)
Definition subscribe (event : string) (listener : Listener) (w : t) : Task unit :=
  await_call (_ensureConnected w)
    (fun _ w =>
       let w :=
         match property (listeners w) event with
         | Absent => set_listeners (<[event := []]> (listeners w)) w
         | _ => w
         end in
       match property (listeners w) event with
       | Own ls =>
           if negb (includes_listener ls listener) then
             let w := set_listeners (<[event := ls ++ [listener]]> (listeners w)) w in
             Return tt (emit [Console Log ("[PBUI] Subscribed to event: " +:+ event)] w)
           else
             Return tt (emit [Console Log ("[PBUI] Listener already subscribed to event: " +:+ event)] w)
       | _ =>
           Throw (TypeError "this.listeners[event].includes is not a function") w
       end).

(** Likewise an inherited member passes line 207 and has no [indexOf]:
    line 212 throws. *)
Definition unsubscribe (event : string) (listener : Listener) (w : t) : Task unit :=
  await_call (_ensureConnected w)
    (fun _ w =>
       match property (listeners w) event with
       | Absent =>
           Return tt (emit [Console Warn ("[PBUI] No listeners to remove for event: " +:+ event)] w)
       | Inherited =>
           Throw (TypeError "this.listeners[event].indexOf is not a function") w
       | Own ls =>
           match indexOf ls listener with
           | None =>
               Return tt (emit [Console Warn ("[PBUI] Listener not found for event: " +:+ event)] w)
           | Some index =>
               let w := set_listeners (<[event := delete index ls]> (listeners w)) w in
               Return tt (emit [Console Log ("[PBUI] Unsubscribed from event: " +:+ event)] w)
           end
       end).

(** *** [disconnect()], lines 141-158 *)

Definition disconnect (w : t) : Task unit :=
  match socket w with
  | None =>
      Return tt
        (emit [Console Log "[PBUI] WebSocket is not connected. Please connect before disconnecting."] w)
  | Some sid =>
      let w := set_manualDisconnect true w in
      let w := _stopHeartbeat w in
      let (p, w) := new_promise w in
      let w := socket_once sid "disconnect" (OnDisconnected p) w in
      let w := socket_disconnect sid w in
      await_promise (Some p) w
  end.

(** *** [_disconnectIfConnected()], lines 41-47 *)

Definition _disconnectIfConnected (w : t) : Task unit :=
  match socket w with
  | Some _ =>
      let w := emit [Console Warn "[PBUI] Already connected to a WebSocket. Disconnecting first..."] w in
      let w := set_manualDisconnect true w in
      await_call (disconnect w) (fun _ w => Return tt w)
  | None => Return tt w
  end.

(** *** [_establishConnection(options)], lines 49-74.  The promise it returns
    is the one its two listeners settle; [options] only tune the transport. *)

Definition _establishConnection (options : Value) (w : t) : PromiseId * t :=
  let (p, w) := new_promise w in
  let (sid, w) := io (value (apiUrl w)) w in
  let w := set_socket (Some sid) w in
  let w := socket_once sid "connect" (OnConnect p) w in
  let w := socket_once sid "connect_error" (OnConnectError p) w in
  (p, w).

(** [s.endsWith(suffix)] *)
Definition endsWith (s suffix : string) : bool :=
  let n := String.length s in
  let m := String.length suffix in
  if (m <=? n)%nat then String.eqb (String.substring (n - m) m s) suffix else false.

Section WithURL.

(** [new URL(url)] returns for a well-formed URL and throws for any other
    string; which strings are well-formed is the platform's business. *)
Variable URL_parses : string -> bool.

(** *** [setApiBase(url)], lines 229-244; [None] is a call without
    argument. *)

Definition setApiBase (url : option string) (w : t) : t :=
  match url with
  | None => emit [Console Err "[PBUI] URL not provided to set as apiBase."] w
  | Some u =>
      if String.eqb u "" then
        emit [Console Err "[PBUI] URL not provided to set as apiBase."] w
      else if negb (URL_parses u) then
        emit [Console Log "[PBUI] Invalid URL:"] w
      else if endsWith u "/" then
        emit [Console Log "[PBUI] API Url cannot have a trailing /"] w
      else
        match assign (apiUrl w) u with
        | inr b => set_apiUrl b w
        | inl _ => emit [Console Log "[PBUI] Invalid URL:"] w
        end
  end.

(** *** [connect(url, options)], lines 21-39 *)

Definition connect (url : option string) (options : Value) (w : t) : Task unit :=
  let w :=
    match url with
    | Some u => if String.eqb u "" then w else setApiBase url w
    | None => w
    end in
  let w := set_connecting true w in
  try_await_call (_disconnectIfConnected w)
    (fun _ w =>
       let (p, w) := _establishConnection options w in
       let w := set_connectionPromise (Some p) w in
       let w := _startHeartbeat w in
       let w := _cleanupSocket w in
       let w := _setupEventHandlers w in
       await_promise (connectionPromise w) w)
    (fun error w =>
       let w := emit [Console Err "[PBUI] Connection failed:"] w in
       let w := _reconnect w in
       Throw error w).

(** The function given to [setTimeout] in [_reconnect], lines 133-138 *)
Definition reconnect_timer (w : t) : Task unit :=
  try_bind (connect (Some (value (apiUrl w))) (VObj 0 PlainObject []) w)
    (fun _ w => Return tt w)
    (fun error w =>
       let w := emit [Console Err "[PBUI] Reconnection failed:"] w in
       Return tt (set_connecting false w)).

End WithURL.

(** *** [upload(file, filename)], lines 251-267 *)

Section Upload.

(** The platform's [fetch] followed by [res.json()]: a network failure, or
    the flag [res.ok] with what the body decodes to, if it decodes. *)
Variable fetch : string -> string -> Value -> Exn + (bool * (Exn + Value)).

(** [String(v)] for a value that is not a string *)
Variable ToString : Value -> string.

(** The message of [new Error(v)] *)
Definition message_of (v : Value) : string :=
  match v with VStr s => s | _ => ToString v end.

(** The form sent: the file under [file], with its name *)
Definition upload_form (file : Value) (filename : string) : Value :=
  VObj 0 PlainObject [("file"%string, file); ("filename"%string, VStr filename)].

(** [formData.append('file', file, filename)], line 253: with a file name
    the value appended has to be a [Blob], and the call throws on any
    other. *)
Definition NotABlobError : Exn :=
  TypeError "Failed to execute 'append' on 'FormData': parameter 2 is not of type 'Blob'.".

Definition upload (file : Value) (filename : string) (w : t) : (Exn + Value) * t :=
  if negb (is_Blob file) then (inl NotABlobError, w) else
  let formData := upload_form file filename in
  let target := value (apiUrl w) +:+ "/upload" in
  let w := emit [Fetch target "POST" formData] w in
  match fetch target "POST" formData with
  | inl e => (inl e, w)
  | inr (ok, inl e) => (inl e, w)
  | inr (ok, inr data) =>
      let failed :=
        if negb ok then inr true
        else match PBUIState.member data "status" with
             | inl e => inl e
             | inr status => inr (negb (strict_eq status (VStr "success")))
             end in
      match failed with
      | inl e => (inl e, w)
      | inr true =>
          match PBUIState.member data "error" with
          | inl e => (inl e, w)
          | inr error =>
              (inl (Error (message_of
                             (if falsy error then VStr "Upload failed" else error))), w)
          end
      | inr false =>
          match PBUIState.member data "url" with
          | inl e => (inl e, w)
          | inr u => (inr (VObj 0 PlainObject [("url"%string, u)]), w)
          end
      end
  end.

End Upload.

End PBUI.

(** ** class PBUIState: the public methods *)

Module PBUIStateAPI.

Import PBUIState.

Section WithServer.

(** The REST collaborator, as for [update] *)
Variable fetchData : string -> string -> Value -> Exn + Value.

(** [get(key = 'state', forceFetch = true)], lines 361-373; [None] is an
    argument left out. *)
Definition get (key : option string) (forceFetch : option bool) (st : t)
    : (Exn + Value) * t :=
  let key := default "state"%string key in
  let forceFetch := default true forceFetch in
  if String.eqb key "state" then
    if falsy (read st key) || forceFetch then
      let st := emit [Console Log "[PBUI] Fetching state..."] st in
      if funcs.has_static "_fetchData" then
        let st := emit [Fetch "/state" "GET" VNull] st in
        match fetchData "/state" "GET" VNull with
        | inl e => (inl e, st)
        | inr data =>
            let st := emit [Console Log "[PBUI] State fetched:"] st in
            match _internalUpdate key data st with
            | (inl e, st) => (inl e, st)
            | (inr _, st) => (inr (read st key), st)
            end
        end
      else (inl (TypeError "funcs._fetchData is not a function"), st)
    else (inr (read st key), st)
  else (inr (read st key), st).

(** [reset()], lines 391-396 *)
Definition reset (st : t) : (Exn + Value) * t :=
  let st := emit [Console Log "[PBUI] Resetting state..."] st in
  if funcs.has_static "_fetchData" then
    let st := emit [Fetch "/reset" "POST" VNull] st in
    match fetchData "/reset" "POST" VNull with
    | inl e => (inl e, st)
    | inr data =>
        let st := emit [Console Log "[PBUI] State successfully reset!"] st in
        match member data "success" with
        | inl e => (inl e, st)
        | inr success => (inr success, st)
        end
    end
  else (inl (TypeError "funcs._fetchData is not a function"), st).

(** A call of one of the methods of the state cache *)
Inductive Call : Type :=
| CallInternalUpdate (key : string) (value : Value)
| CallGet (key : option string) (forceFetch : option bool)
| CallUpdate (songStates currentFlowStep : Value)
| CallReset.

(** The cache after the call, whether it returned or threw *)
Definition after (st : t) (c : Call) : t :=
  match c with
  | CallInternalUpdate key value => snd (_internalUpdate key value st)
  | CallGet key forceFetch => snd (get key forceFetch st)
  | CallUpdate songStates currentFlowStep =>
      snd (update fetchData songStates currentFlowStep st)
  | CallReset => snd (reset st)
  end.

End WithServer.

End PBUIStateAPI.

(** ** The two patterns, [slugRegex] (line 5) and [numericRegex] (lines 405
    and 432) *)

Definition in_range (lo hi : nat) (c : Ascii.ascii) : bool :=
  (lo <=? Ascii.nat_of_ascii c)%nat && (Ascii.nat_of_ascii c <=? hi)%nat.

(** [[0-9]] and [[a-z0-9_-]], by character code: [0] is 48, [9] is 57, [a]
    is 97, [z] is 122, [_] is 95 and [-] is 45. *)
Definition is_digit (c : Ascii.ascii) : bool := in_range 48 57 c.
Definition is_slug_char (c : Ascii.ascii) : bool :=
  in_range 97 122 c || is_digit c || in_range 95 95 c || in_range 45 45 c.

Fixpoint all_chars (p : Ascii.ascii -> bool) (s : string) : bool :=
  match s with
  | EmptyString => true
  | String c rest => p c && all_chars p rest
  end.

(** [/^[...]+$/.test(s)]: one character at least, and every character in
    the class *)
Definition matches_plus (p : Ascii.ascii -> bool) (s : string) : bool :=
  negb (String.eqb s "") && all_chars p s.

Definition slugRegex_test : string -> bool := matches_plus is_slug_char.
Definition numericRegex_test : string -> bool := matches_plus is_digit.

(** ** class Tournaments *)

Module Tournaments.

Section WithServer.

(** The REST collaborator, what [x.json()] evaluates to on its answer, and
    [String(v)] for a value that is not a string (a pattern is tested on the
    text of its argument). *)
Variable fetchData : string -> string -> Value -> Exn + Value.
Variable json : Value -> Exn + Value.
Variable ToString : Value -> string.

Definition text_of (v : Value) : string :=
  match v with VStr s => s | _ => ToString v end.

(** [funcs._fetchData(endpoint, method, body)] followed by [.json()] on the
    answer; the callee is read off the class object. *)
Definition request (endpoint method : string) (body : Value)
    (tr : list Effect) : (Exn + Value) * list Effect :=
  if funcs.has_static "_fetchData" then
    let tr := tr ++ [Fetch endpoint method body] in
    match fetchData endpoint method body with
    | inl e => (inl e, tr)
    | inr res =>
        match json res with
        | inl e => (inl e, tr)
        | inr data => (inr data, tr)
        end
    end
  else (inl (TypeError "funcs._fetchData is not a function"), tr).

(** Which branch of [get] is taken, lines 406-428 *)
Inductive Route : Type :=
| ListAll
| ParamsWithoutId
| ById (endpoint : string)
| BySlug (endpoint : string)
| NotAnId.

Definition query (params : string) : string :=
  if negb (String.eqb params "") then "?" +:+ params else "".

Definition route (tournamentId params : string) : Route :=
  if String.eqb tournamentId "" then
    if String.eqb params "" then ListAll else ParamsWithoutId
  else if negb (slugRegex_test tournamentId) && numericRegex_test tournamentId then
    ById ("/getTournaments/" +:+ tournamentId +:+ query params)
  else if slugRegex_test tournamentId then
    BySlug ("/getTournaments/slug/" +:+ tournamentId +:+ query params)
  else NotAnId.

(** [get(tournamentId = '', params = '', logging = false)], lines 404-429.
    With [logging] the answer is decoded and printed once more before it is
    decoded and returned. *)
Definition get (tournamentId params : string) (logging : bool)
    (tr : list Effect) : (Exn + Value) * list Effect :=
  let fetch_and_return (endpoint : string) :=
    if funcs.has_static "_fetchData" then
      let tr := tr ++ [Fetch endpoint "GET" VNull] in
      match fetchData endpoint "GET" VNull with
      | inl e => (inl e, tr)
      | inr res =>
          let logged :=
            if logging then
              match json res with
              | inl e => inl e
              | inr _ => inr (tr ++ [Console Log "[object]"])
              end
            else inr tr in
          match logged with
          | inl e => (inl e, tr)
          | inr tr =>
              match json res with
              | inl e => (inl e, tr)
              | inr data => (inr data, tr)
              end
          end
      end
    else (inl (TypeError "funcs._fetchData is not a function"), tr) in
  match route tournamentId params with
  | ListAll => fetch_and_return "/getTournaments"%string
  | ParamsWithoutId =>
      (inr VUndefined,
       tr ++ [Console Err "[PBUI] You cannot specify parameters without specifying tournamentId"])
  | ById endpoint => fetch_and_return endpoint
  | BySlug endpoint => fetch_and_return endpoint
  | NotAnId =>
      (inl (Error "[PBUI] tournamentId provided is not a valid numerical id or slug"), tr)
  end.

(** [getPool(poolId)], lines 431-448 *)
Definition getPool (poolId : Value) (tr : list Effect)
    : (Exn + Value) * list Effect :=
  if falsy poolId then
    (inr VUndefined, tr ++ [Console Err "[PBUI] Pool ID not provided"])
  else if negb (numericRegex_test (text_of poolId)) then
    (inr VUndefined, tr ++ [Console Err "[PBUI] Pool ID must only contain numbers"])
  else request ("/getPool/" +:+ text_of poolId) "GET" VNull tr.

(** [!info.a || !info.b || ...]: the members are read from left to right
    until one is falsy; reading a member of [undefined] or [null] throws. *)
Fixpoint some_missing (info : Value) (names : list string) : Exn + bool :=
  match names with
  | [] => inr false
  | name :: rest =>
      match PBUIState.member info name with
      | inl e => inl e
      | inr v => if falsy v then inr true else some_missing info rest
      end
  end.

(** The object sent: the members of [info] named, under the same names *)
Definition pick (info : Value) (names : list string) : Value :=
  VObj 0 PlainObject (map (fun name => (name, JS.get info name)) names).

(** One of the three branches of [create] past its guard: the request, then
    a console line that tells success from failure. *)
Definition create_request (endpoint : string) (body : Value) (what : string)
    (on_failure : Level) (tr : list Effect) : (Exn + Value) * list Effect :=
  match request endpoint "POST" body tr with
  | (inl e, tr) => (inl e, tr)
  | (inr data, tr) =>
      match PBUIState.member data "status" with
      | inl e => (inl e, tr)
      | inr status =>
          if strict_eq status (VStr "success")
          then (inr VUndefined,
                tr ++ [Console Log ("[PBUI] Successfully created " +:+ what +:+ ":")])
          else (inr VUndefined,
                tr ++ [Console on_failure ("[PBUI] Failed to created " +:+ what +:+ ":")])
      end
  end.

(** [create(element = 'tournament', info, authToken)], lines 450-528; the
    third argument is not used. *)
Definition create (element : string) (info : Value) (tr : list Effect)
    : (Exn + Value) * list Effect :=
  let tr :=
    if falsy info
    then tr ++ [Console Err "[PBUI] Info must be provided on the element being created"]
    else tr in
  if String.eqb element "tournament" || String.eqb element "tourney" then
    match some_missing info ["name"; "slug"]%string with
    | inl e => (inl e, tr)
    | inr true =>
        (inr VUndefined, tr ++ [Console Err "[PBUI] Tournament name or slug not provided"])
    | inr false =>
        if negb (slugRegex_test (text_of (JS.get info "slug"))) then
          (inr VUndefined, tr ++ [Console Err "[PBUI] Slug provided is not a valid slug"])
        else
          create_request "/createTournament" (pick info ["name"; "slug"]%string)
            "tournament" Log tr
    end
  else if String.eqb element "pool" then
    match some_missing info ["tourneyId"; "poolName"]%string with
    | inl e => (inl e, tr)
    | inr true =>
        (inr VUndefined, tr ++ [Console Err "[PBUI] Tournament ID or Pool Name not provided"])
    | inr false =>
        create_request "/createTournament?pool=true"
          (pick info ["tourneyId"; "poolName"]%string) "tournament pool" Err tr
    end
  else if String.eqb element "map" then
    match some_missing info ["poolId"; "hash"; "diff"]%string with
    | inl e => (inl e, tr)
    | inr true =>
        (inr VUndefined,
         tr ++ [Console Err "[PBUI] Pool ID, map hash, or map difficulty not provided"])
    | inr false =>
        create_request "/createTournament?map=true"
          (pick info ["poolId"; "hash"; "diff"]%string) "pool map" Err tr
    end
  else (inr VUndefined, tr).

End WithServer.

End Tournaments.


(** ** Concrete values and states used as test inputs *)

Definition one : Value := VNum (Fin 1).
Definition two : Value := VNum (Fin 2).

(** [[1, 2]] and [{"0": 1, "1": 2}] *)
Definition array_1_2 : Value :=
  VObj 1 ArrayObject [("0"%string, one); ("1"%string, two)].
Definition object_0_1 : Value :=
  VObj 2 PlainObject [("0"%string, one); ("1"%string, two)].

(** [{"0": 1, "1": 1}] and [{"0": 1, "2": 2}]: as [{"0": 1, "1": 2}] but
    for one value, and but for one key *)
Definition object_other_value : Value :=
  VObj 13 PlainObject [("0"%string, one); ("1"%string, one)].
Definition object_other_key : Value :=
  VObj 14 PlainObject [("0"%string, one); ("2"%string, two)].

(** [{"abc123": "cleared"}] *)
Definition song_states : Value :=
  VObj 3 PlainObject [("abc123"%string, VStr "cleared")].

(** A server whose every answer is [{success: true}] *)
Definition acknowledging_server (endpoint method : string) (body : Value)
    : Exn + Value :=
  inr (VObj 4 PlainObject [("success"%string, VBool true)]).

(** A state cache with one change listener on the key [state] *)
Definition cache_with_listener : PBUIState.t :=
  {| PBUIState.data := ∅;
     PBUIState.listeners := {[ "state"%string := [7%nat] ]};
     PBUIState.trace := [] |}.

(** [{}] *)
Definition empty_object : Value := VObj 5 PlainObject [].

(** ** The outcomes and arguments of [update] *)

Global Instance Exn_eq_dec : EqDecision Exn.
Proof. solve_decision. Defined.

(** The errors that [update] raises itself, lines 377, 380 and 383 *)
Definition validation_errors : list Exn :=
  [Error "[PBUI] Invalid songStates: Must be an object.";
   Error "[PBUI] songStates should not be empty.";
   Error "[PBUI] Invalid flowStep: Must be a number."].

Definition is_validation_error (r : Exn + bool) : bool :=
  match r with
  | inl e => bool_decide (e ∈ validation_errors)
  | inr _ => false
  end.

Definition is_finite_number (v : Value) : bool :=
  match v with VNum (Fin _) => true | _ => false end.

(** An object with at least one key, and a number other than [NaN] *)
Definition is_nonempty_object (v : Value) : bool :=
  match v with VObj _ _ (_ :: _) => true | _ => false end.

Definition is_number_not_NaN (v : Value) : bool :=
  match v with VNum NaN => false | VNum _ => true | _ => false end.

(** A URL parser that accepts every string, and the URL given to it *)
Definition accept_all (u : string) : bool := true.
Definition example_url : string := "https://example.com/api".

(** [connect()] called on a fresh client, stopped at its first [await], and
    the same call resumed *)
Definition connect_called : PBUI.Task unit :=
  PBUI.connect accept_all None VUndefined PBUI.constructor.
Definition connect_resumed : PBUI.Task unit :=
  PBUI.resume connect_called PBUI.Resolved (PBUI.state_of connect_called).

(** The error object that the transport reports: [{message: "timeout"}] *)
Definition timeout_error : Value :=
  VObj 6 PlainObject [("message"%string, VStr "timeout")].

(** The state that [connect] aims at: the socket made by
    [_establishConnection], with the listeners of [_setupEventHandlers], on
    which the transport has reported the connection; the caller has added a
    callback of its own for [disconnect]. *)
Definition connected_client : PBUI.t :=
  let w := PBUI.set_connecting true PBUI.constructor in
  let w := snd (PBUI._establishConnection VUndefined w) in
  let w := PBUI.set_connectionPromise (Some 0%nat) w in
  let w := PBUI._setupEventHandlers w in
  let w := PBUI.transport_connect 0%nat w in
  PBUI.socket_on 0%nat "disconnect" (UserCallback 9%nat) w.

(** Its socket *)
Definition connected_socket : Socket :=
  {| url := "https://api.ultraslayyy.xyz/api";
     connected := true;
     handlers :=
       [{| reg_event := "connect_error"; reg_once := true;
           reg_handler := OnConnectError 0%nat |};
        {| reg_event := "disconnect"; reg_once := false;
           reg_handler := OnDisconnect |};
        {| reg_event := "initial-state"; reg_once := false;
           reg_handler := OnInitialState |};
        {| reg_event := "state-updated"; reg_once := false;
           reg_handler := OnStateUpdated |};
        {| reg_event := "disconnect"; reg_once := false;
           reg_handler := UserCallback 9%nat |}] |}.

(** The registration that [_setupEventHandlers] makes for [disconnect] *)
Definition disconnect_registration : Registration :=
  {| reg_event := "disconnect"; reg_once := false; reg_handler := OnDisconnect |}.

Definition is_user (r : Registration) : bool :=
  match reg_handler r with UserCallback _ => true | _ => false end.

(** What the reconnect decision reads and writes: the manual flag, the
    socket, [connecting], the attempt counter, the promises, and the delays
    of the timeouts set. *)
Definition lifecycle (w : PBUI.t) :=
  (PBUI.manualDisconnect w, PBUI.socket w, PBUI.connecting w,
   PBUI.reconnectionAttempts w, PBUI.promises w, delays (PBUI.trace w)).

(** ** References held by a value *)

(** The objects that occur in a value, itself included *)
Fixpoint objects (v : Value) : list Value :=
  match v with
  | VObj _ _ props => v :: flat_map (fun kv : string * Value => objects (snd kv)) props
  | _ => []
  end.

(** Values taken from one heap at one moment: the same reference is the
    same object. *)
Definition consistent (vs : list Value) : Prop :=
  forall u u', In u (flat_map objects vs) -> In u' (flat_map objects vs) ->
    strict_eq u u' = true -> u = u'.

(** ** Objects with distinct keys *)

(** The keys of an object are distinct, and so are those of the objects it
    holds. *)
Inductive DistinctKeys : Value -> Prop :=
| distinct_primitive v :
    (forall r k ps, v <> VObj r k ps) -> DistinctKeys v
| distinct_object r k ps :
    NoDup (map fst ps) ->
    Forall (fun kv : string * Value => DistinctKeys (snd kv)) ps ->
    DistinctKeys (VObj r k ps).

(** [{"0": 1, "1": 2}] once more, at another reference and with the keys in
    the other order *)
Definition object_1_0 : Value :=
  VObj 8 PlainObject [("1"%string, two); ("0"%string, one)].

(** ** What a trace holds *)

(** The requests made, in order *)
Definition requests (tr : list Effect) : list (string * string * Value) :=
  omap (fun e => match e with Fetch u m b => Some (u, m, b) | _ => None end) tr.

(** The calls made to callbacks, in order *)
Definition invocations (tr : list Effect) : list (Listener * Value) :=
  omap (fun e => match e with Invoke f v => Some (f, v) | _ => None end) tr.

(** The lines written to the console, in order *)
Definition console_lines (tr : list Effect) : list (Level * string) :=
  omap (fun e => match e with Console l m => Some (l, m) | _ => None end) tr.

(** Everything but the console lines *)
Definition silent (tr : list Effect) : list Effect :=
  omap (fun e => match e with Console _ _ => None | _ => Some e end) tr.

(** ** Inputs for [upload] *)

(** A server that answers every request with a status other than OK and
    the body [{status: "success", error: "too large"}] *)
Definition refusing_server (target method : string) (body : Value)
    : Exn + (bool * (Exn + Value)) :=
  inr (false,
       inr (VObj 10 PlainObject
              [("status"%string, VStr "success"); ("error"%string, VStr "too large")])).

(** A text for the values that are not strings *)
Definition no_text (v : Value) : string := "[object]".

(** A file to upload *)
Definition png_file : Value := VObj 12 BlobObject [].

(** ** What a method keeps *)

(** From each point where the method starts or is resumed to the next point
    where it stops or ends, [f] of the client is the same. *)
Fixpoint keeps {A X} (f : PBUI.t -> X) (w0 : PBUI.t) (m : PBUI.Task A) : Prop :=
  match m with
  | PBUI.Return _ w | PBUI.Throw _ w => f w = f w0
  | PBUI.Await _ w k => f w = f w0 /\ forall s w', keeps f w' (k s w')
  end.

(** [P] holds wherever the method stops or ends, if it holds wherever the
    method is resumed. *)
Fixpoint maintains {A} (P : PBUI.t -> Prop) (m : PBUI.Task A) : Prop :=
  match m with
  | PBUI.Return _ w | PBUI.Throw _ w => P w
  | PBUI.Await _ w k => P w /\ forall s w', P w' -> maintains P (k s w')
  end.

(** ** Who is called when a socket raises an event *)

(** The callbacks that a listener of the client calls, with the payload:
    the callback itself for one given to [on], the subscribers of
    [initial-state] or of [state-updated] for the two listeners of lines
    96-102, nobody for the others. *)
Definition calls_of (registry : gmap string (list Listener)) (payload : Value)
    (h : Handler) : list (Listener * Value) :=
  match h with
  | UserCallback f => [(f, payload)]
  | OnInitialState =>
      map (fun g => (g, payload)) (default [] (registry !! "initial-state"%string))
  | OnStateUpdated =>
      map (fun g => (g, payload)) (default [] (registry !! "state-updated"%string))
  | _ => []
  end.

(** The registrations of a socket for an event *)
Definition registrations (w : PBUI.t) (sid : SocketId) (event : string)
    : list Registration :=
  match PBUI.sockets w !! sid with
  | Some s => filter (fun r => reg_event r = event) (handlers s)
  | None => []
  end.

(** A connected client with a subscriber to an event of its own, and no
    callback given to [on] *)
Definition score_client : PBUI.t :=
  let w := PBUI.set_connecting true PBUI.constructor in
  let w := snd (PBUI._establishConnection VUndefined w) in
  let w := PBUI.set_connectionPromise (Some 0%nat) w in
  let w := PBUI._setupEventHandlers w in
  let w := PBUI.transport_connect 0%nat w in
  PBUI.set_listeners {[ "score"%string := [7%nat] ]} w.


(** ** The heartbeat intervals *)

(** The intervals set and not cleared since, oldest first *)
Definition timer_step (acc : list nat) (e : Effect) : list nat :=
  match e with
  | SetInterval id _ => acc ++ [id]
  | ClearInterval id => filter (fun i => i <> id) acc
  | _ => acc
  end.

Definition running (tr : list Effect) : list nat := foldl timer_step [] tr.

(** The interval held in [heartbeatInterval], if any, is the only one that
    runs. *)
Definition heartbeat_ok (w : PBUI.t) : Prop :=
  running (PBUI.trace w) =
  match PBUI.heartbeatInterval w with Some id => [id] | None => [] end.

Definition no_interval (e : Effect) : bool :=
  match e with SetInterval _ _ | ClearInterval _ => false | _ => true end.

(** ** The listeners of [_establishConnection] *)

(** The registration made by [socket.once('connect', ...)], lines 60-66 *)
Definition connect_registration (p : PromiseId) : Registration :=
  {| reg_event := "connect"; reg_once := true; reg_handler := OnConnect p |}.

(** The events raised one after the other on one socket *)
Definition deliver_all (sid : SocketId) (events : list (string * Value))
    (w : PBUI.t) : PBUI.t :=
  foldl (fun w ev => PBUI.deliver sid (fst ev) (snd ev) w) w events.
(** ** Proof steps *)

Ltac split_all := repeat match goal with |- _ /\ _ => split end.

(** Reduce the projections of a client applied to its setters. *)
Ltac fields :=
  cbn [PBUI.socket PBUI.listeners PBUI.reconnectionAttempts
       PBUI.heartbeatInterval PBUI.connecting PBUI.connectionPromise
       PBUI.manualDisconnect PBUI.apiUrl PBUI.sockets PBUI.promises PBUI.trace
       PBUI.set_socket PBUI.set_listeners PBUI.set_reconnectionAttempts
       PBUI.set_heartbeatInterval PBUI.set_connecting
       PBUI.set_connectionPromise PBUI.set_manualDisconnect PBUI.set_apiUrl
       PBUI.set_sockets PBUI.set_promises PBUI.set_trace PBUI.emit
       PBUI.alter_socket].

(** ** The state cache *)

Section StateCache.

Import PBUIState.

Lemma forallb_pointwise {A} (f g : A -> bool) (l : list A) :
  (forall x, f x = g x) -> forallb f l = forallb g l.
Proof.
  intros Hfg. induction l as [|x l IH]; cbn; [reflexivity|].
  rewrite Hfg, IH. reflexivity.
Qed.

(** On two objects [_valueEqual] looks at the references, the number of keys
    and the values key by key; the kinds do not occur. *)
Lemma valueEqual_objects r1 k1 ps1 r2 k2 ps2 :
  funcs._valueEqual (VObj r1 k1 ps1) (VObj r2 k2 ps2) =
  Nat.eqb r1 r2
  || (Nat.eqb (length ps1) (length ps2)
      && forallb
           (fun kv : string * Value =>
              includes (map fst ps2) (fst kv)
              && funcs._valueEqual (snd kv) (lookup_prop (fst kv) ps2))
           ps1).
Proof.
  cbn [funcs._valueEqual strict_eq falsy is_object_type typeof keys get
       orb negb].
  destruct (Nat.eqb r1 r2); [reflexivity|]. cbn [orb].
  rewrite length_map.
  destruct (Nat.eqb (length ps1) (length ps2)); [|reflexivity].
  cbn [negb andb]. apply forallb_pointwise. intros [key x]. cbn [fst snd].
  destruct (includes (map fst ps2) key); [|reflexivity]. cbn [negb andb].
  destruct (funcs._valueEqual x (lookup_prop key ps2)); reflexivity.
Qed.

(** On anything that is not a pair of objects [_valueEqual] is [===]. *)
Lemma valueEqual_primitive a b :
  is_object_type a && negb (falsy a) && is_object_type b && negb (falsy b) = false ->
  funcs._valueEqual a b = strict_eq a b.
Proof.
  intros H.
  destruct a as [| |x|n|x|x|r k ps]; cbn [funcs._valueEqual];
    destruct (strict_eq _ b) eqn:E; try reflexivity;
    destruct b as [| |y|m|y|y|r' k' ps']; cbn in H |- *; try discriminate;
    rewrite ?orb_true_r; cbn; try reflexivity;
    repeat match goal with
      | |- context [if ?c then _ else _] => destruct c
      end; reflexivity.
Qed.

(** A value that the comparison finds equal to the stored one changes
    nothing. *)
Lemma internalUpdate_with_equal equal key v st :
  equal (read st key) v = true ->
  _internalUpdate_with equal key v st = (inr tt, st).
Proof. intros H. unfold _internalUpdate_with. rewrite H. reflexivity. Qed.

(** A value that the comparison finds different is stored, and the listeners
    of the key are called with it in registration order; where the key
    names an inherited member and has no list of its own, the call then
    throws. *)
Lemma internalUpdate_with_differs equal key v st :
  key <> "__proto__"%string ->
  equal (read st key) v = false ->
  let r := _internalUpdate_with equal key v st in
  data (snd r) = <[key := v]> (data st)
  /\ listeners (snd r) = listeners st
  /\ trace (snd r) =
     trace st ++ map (fun f => Invoke f v) (default [] (listeners st !! key))
  /\ fst r =
     match property (listeners st) key with
     | Inherited =>
         inl (TypeError "this.listeners[key].forEach is not a function")
     | _ => inr tt
     end.
Proof.
  intros _ H. unfold _internalUpdate_with. rewrite H.
  cbn [negb set_data listeners]. unfold property.
  destruct (listeners st !! key) as [ls|]; [|destruct (inherited key)];
    cbn; rewrite ?app_nil_r; split_all; reflexivity.
Qed.

Lemma read_stored equal key v st :
  equal (read st key) v = false ->
  read (snd (_internalUpdate_with equal key v st)) key = v.
Proof.
  intros H. unfold _internalUpdate_with. rewrite H. cbn.
  assert (Hr : forall s, data s = <[key := v]> (data st) -> read s key = v).
  { intros s Hs. unfold read. rewrite Hs, lookup_insert_eq. reflexivity. }
  destruct (property _ key); apply Hr; reflexivity.
Qed.

(** With the comparison of lines 275-291 as the callee, a second value
    that is equal to the first is never announced. *)
Lemma internalUpdate_with_repeat key v1 v2 st :
  key <> "__proto__"%string ->
  funcs._valueEqual (read st key) v1 = false ->
  funcs._valueEqual v1 v2 = true ->
  let st1 := snd (_internalUpdate_with funcs._valueEqual key v1 st) in
  _internalUpdate_with funcs._valueEqual key v2 st1 = (inr tt, st1).
Proof.
  intros _ Hd He st1. apply internalUpdate_with_equal.
  subst st1. rewrite read_stored by exact Hd. exact He.
Qed.

(** Announcing the same value twice is announcing it once, for a value that
    the comparison finds equal to itself. *)
Lemma internalUpdate_with_idempotent key v st :
  key <> "__proto__"%string ->
  funcs._valueEqual v v = true ->
  let st1 := snd (_internalUpdate_with funcs._valueEqual key v st) in
  _internalUpdate_with funcs._valueEqual key v st1 = (inr tt, st1).
Proof.
  intros Hk Hv. destruct (funcs._valueEqual (read st key) v) eqn:Hold.
  - cbn zeta. rewrite (internalUpdate_with_equal _ key v st Hold).
    apply internalUpdate_with_equal. exact Hold.
  - apply internalUpdate_with_repeat; assumption.
Qed.

(** An object is equal to itself whatever it holds; [NaN] is not. *)
Lemma valueEqual_same_reference r k ps :
  funcs._valueEqual (VObj r k ps) (VObj r k ps) = true.
Proof. cbn. rewrite Nat.eqb_refl. reflexivity. Qed.

Example valueEqual_NaN : funcs._valueEqual (VNum NaN) (VNum NaN) = false.
Proof. reflexivity. Qed.

(** The comparison is a member of the prototype, and the class object has
    no member at all. *)
Lemma funcs_has_no_static name : funcs.has_static name = false.
Proof. reflexivity. Qed.

Example valueEqual_on_prototype :
  "_valueEqual"%string ∈ funcs.prototype_members.
Proof. apply list_elem_of_In. cbn. auto. Qed.

(** The class object has no member [_valueEqual]: every call of
    [_internalUpdate] throws and leaves the cache as it was. *)
Lemma internalUpdate_throws key v st :
  _internalUpdate key v st =
  (inl (TypeError "funcs._valueEqual is not a function"), st).
Proof. reflexivity. Qed.

End StateCache.

(** ** Deep equality is transitive *)

Section DeepEquality.

Import PBUIState.


Lemma Value_nested_ind (P : Value -> Prop) :
  P VUndefined -> P VNull -> (forall b, P (VBool b)) -> (forall n, P (VNum n)) ->
  (forall s, P (VStr s)) -> (forall r, P (VFun r)) ->
  (forall r k ps, Forall (fun kv : string * Value => P (snd kv)) ps -> P (VObj r k ps)) ->
  forall v, P v.
Proof.
  intros HU HN HB HNu HS HF HO.
  fix IH 1.
  intros [| |b|n|s|r|r k ps];
    [exact HU|exact HN|apply HB|apply HNu|apply HS|apply HF|].
  apply HO. induction ps as [|[key x] ps IHps]; constructor; [apply IH|exact IHps].
Qed.

Lemma num_strict_eq_trans a b c :
  num_strict_eq a b = true -> num_strict_eq b c = true -> num_strict_eq a c = true.
Proof.
  destruct a, b, c; cbn; try discriminate; auto.
  rewrite !Qeq_bool_iff. intros H1 H2. rewrite H1. exact H2.
Qed.

Lemma strict_eq_trans a b c :
  strict_eq a b = true -> strict_eq b c = true -> strict_eq a c = true.
Proof.
  destruct a as [| |x|n|x|x|r k ps], b as [| |y|m|y|y|r' k' ps'],
    c as [| |z|l|z|z|r'' k'' ps'']; cbn; try discriminate; auto.
  - destruct x, y, z; cbn; auto.
  - apply num_strict_eq_trans.
  - rewrite !String.eqb_eq. congruence.
  - rewrite !Nat.eqb_eq. congruence.
  - rewrite !Nat.eqb_eq. congruence.
Qed.

Lemma valueEqual_object_left r k ps b :
  funcs._valueEqual (VObj r k ps) b = true -> exists r' k' ps', b = VObj r' k' ps'.
Proof.
  destruct b as [| |y|m|y|y|r' k' ps']; try (rewrite valueEqual_primitive by reflexivity; discriminate).
  eauto.
Qed.

Lemma valueEqual_object_right a r k ps :
  funcs._valueEqual a (VObj r k ps) = true -> exists r' k' ps', a = VObj r' k' ps'.
Proof.
  destruct a as [| |y|m|y|y|r' k' ps']; try (rewrite valueEqual_primitive by reflexivity; discriminate).
  eauto.
Qed.

Lemma lookup_prop_In key ps :
  includes (map fst ps) key = true -> In (key, lookup_prop key ps) ps.
Proof.
  unfold includes. induction ps as [|[k x] ps IH]; cbn; [discriminate|].
  destruct (String.eqb_spec key k) as [->|Hne].
  - rewrite String.eqb_refl. intros _. left. reflexivity.
  - cbn. destruct (String.eqb_spec k key) as [->|_]; [congruence|].
    intros H. right. apply IH. exact H.
Qed.

Lemma objects_member key x r k ps :
  In (key, x) ps -> incl (objects x) (objects (VObj r k ps)).
Proof.
  intros Hin u Hu. cbn. right. apply in_flat_map. exists (key, x). auto.
Qed.

Lemma consistent_incl vs vs' :
  incl (flat_map objects vs') (flat_map objects vs) -> consistent vs -> consistent vs'.
Proof. intros Hi Hc u u' Hu Hu'. apply Hc; apply Hi; assumption. Qed.

(** On values of one heap, [_valueEqual] is transitive. *)
Lemma valueEqual_trans a : forall b c,
  consistent [a; b; c] ->
  funcs._valueEqual a b = true -> funcs._valueEqual b c = true ->
  funcs._valueEqual a c = true.
Proof.
  induction a as [| |x|n|x|x|r k ps IH] using Value_nested_ind; intros b c Hcons Hab Hbc.
  1-6: rewrite valueEqual_primitive in Hab by reflexivity;
       destruct b as [| |y|m|y|y|r' k' ps']; try discriminate Hab;
       rewrite valueEqual_primitive in Hbc by reflexivity;
       rewrite valueEqual_primitive by reflexivity;
       exact (strict_eq_trans _ _ _ Hab Hbc).
  destruct (valueEqual_object_left _ _ _ _ Hab) as (r' & k' & ps' & ->).
  destruct (valueEqual_object_left _ _ _ _ Hbc) as (r'' & k'' & ps'' & ->).
  assert (Ia : In (VObj r k ps) (flat_map objects [VObj r k ps; VObj r' k' ps'; VObj r'' k'' ps''])).
  { apply in_flat_map. eexists. split; [left; reflexivity|left; reflexivity]. }
  assert (Ib : In (VObj r' k' ps') (flat_map objects [VObj r k ps; VObj r' k' ps'; VObj r'' k'' ps''])).
  { apply in_flat_map. eexists. split; [right; left; reflexivity|left; reflexivity]. }
  assert (Ic : In (VObj r'' k'' ps'') (flat_map objects [VObj r k ps; VObj r' k' ps'; VObj r'' k'' ps''])).
  { apply in_flat_map. eexists. split; [right; right; left; reflexivity|left; reflexivity]. }
  destruct (Nat.eqb_spec r r') as [Hrr|Hrr].
  { assert (E : VObj r k ps = VObj r' k' ps').
    { apply Hcons; [exact Ia|exact Ib|apply Nat.eqb_eq; exact Hrr]. }
    rewrite E. exact Hbc. }
  destruct (Nat.eqb_spec r' r'') as [Hrr'|Hrr'].
  { assert (E : VObj r' k' ps' = VObj r'' k'' ps'').
    { apply Hcons; [exact Ib|exact Ic|apply Nat.eqb_eq; exact Hrr']. }
    rewrite <- E. exact Hab. }
  rewrite valueEqual_objects in Hab, Hbc |- *.
  apply Nat.eqb_neq in Hrr, Hrr'. rewrite Hrr in Hab. rewrite Hrr' in Hbc.
  cbn [orb] in Hab, Hbc.
  apply andb_true_iff in Hab as [Hl1 Hf1]. apply andb_true_iff in Hbc as [Hl2 Hf2].
  apply orb_true_iff. right. apply andb_true_iff. split.
  { apply Nat.eqb_eq in Hl1, Hl2. apply Nat.eqb_eq. congruence. }
  rewrite forallb_forall in Hf1, Hf2 |- *.
  intros [key x] Hin. cbn [fst snd].
  specialize (Hf1 _ Hin). cbn [fst snd] in Hf1.
  apply andb_true_iff in Hf1 as [Hk1 Hx1].
  pose proof (lookup_prop_In _ _ Hk1) as Hin'.
  specialize (Hf2 _ Hin'). cbn [fst snd] in Hf2.
  apply andb_true_iff in Hf2 as [Hk2 Hx2].
  rewrite Hk2. cbn [andb].
  rewrite Forall_forall in IH.
  apply (IH _ (proj2 (list_elem_of_In _ _) Hin) (lookup_prop key ps') (lookup_prop key ps'')); [|exact Hx1|exact Hx2].
  pose proof (lookup_prop_In _ _ Hk2) as Hin''.
  eapply consistent_incl; [|exact Hcons].
  intros u Hu. apply in_flat_map in Hu as (v & Hv & Hu). apply in_flat_map.
  destruct Hv as [<-|[<-|[<-|[]]]].
  - exists (VObj r k ps). split; [left; reflexivity|].
    eapply objects_member; eassumption.
  - exists (VObj r' k' ps'). split; [right; left; reflexivity|].
    eapply objects_member; eassumption.
  - exists (VObj r'' k'' ps''). split; [right; right; left; reflexivity|].
    eapply objects_member; eassumption.
Qed.

(** With the comparison of lines 275-291 as the callee, two equal values
    in a row are announced at most once, and never the second. *)
Lemma internalUpdate_with_pair key v1 v2 st :
  key <> "__proto__"%string ->
  consistent [read st key; v1; v2] ->
  funcs._valueEqual v1 v2 = true ->
  let st1 := snd (_internalUpdate_with funcs._valueEqual key v1 st) in
  _internalUpdate_with funcs._valueEqual key v2 st1 = (inr tt, st1).
Proof.
  intros Hk Hcons H12. destruct (funcs._valueEqual (read st key) v1) eqn:Hold.
  - cbn zeta. rewrite (internalUpdate_with_equal _ key v1 st Hold).
    apply internalUpdate_with_equal.
    exact (valueEqual_trans _ _ _ Hcons Hold H12).
  - apply internalUpdate_with_repeat; assumption.
Qed.

End DeepEquality.

(** ** Claims on the state cache *)

Section StateCacheClaims.

Import PBUIState.

(** C1: a value that differs from the stored one should replace it and be
    announced to every listener of the key.  On the cache with one listener
    for [state] and nothing stored, the value [1] differs from the stored
    [undefined], yet [_internalUpdate] throws a [TypeError], stores nothing
    and calls no listener: it reads [_valueEqual] off the class object
    [funcs], where only an instance has it. *)
Theorem internalUpdate_differing_value_not_stored :
  funcs._valueEqual (read cache_with_listener "state") one = false
  /\ listeners cache_with_listener !! "state"%string = Some [7%nat]
  /\ _internalUpdate "state" one cache_with_listener
     = (inl (TypeError "funcs._valueEqual is not a function"),
        cache_with_listener).
Proof. split_all; reflexivity. Qed.

(** C6, as stated, fails: [Infinity] is not a finite number, and
    [update({"abc123": "cleared"}, Infinity)] raises no validation error. *)
Lemma update_infinite_flow_step_passes :
  is_finite_number (VNum PosInf) = false
  /\ validate song_states (VNum PosInf) = None
  /\ is_validation_error
       (fst (update acknowledging_server song_states (VNum PosInf) constructor))
     = false.
Proof. split_all; reflexivity. Qed.

(** C6, amended: [update] raises a validation error, and does nothing else,
    unless the state map is an object with at least one key and the flow
    step is a number other than [NaN]; for such arguments, an infinite flow
    step included, it raises no validation error. *)
Theorem update_validation fetchData songStates currentFlowStep st :
  let r := update fetchData songStates currentFlowStep st in
  (is_nonempty_object songStates && is_number_not_NaN currentFlowStep = false ->
     is_validation_error (fst r) = true /\ snd r = st)
  /\ (is_nonempty_object songStates && is_number_not_NaN currentFlowStep = true ->
     is_validation_error (fst r) = false).
Proof.
  cbn zeta. unfold update, validate.
  destruct songStates as [| |b|n|x|f|ref k [|p ps]];
    try (split; [intros _; split; reflexivity | discriminate]).
  destruct currentFlowStep as [| |b|[| | |q]|x|f|ref' k' ps'];
    try (split; [intros _; split; reflexivity | discriminate]);
    (split; [discriminate | intros _; reflexivity]).
Qed.

Lemma update_validation_witness :
  is_validation_error
    (fst (update acknowledging_server empty_object two constructor)) = true
  /\ snd (update acknowledging_server empty_object two constructor) = constructor.
Proof.
  apply (update_validation acknowledging_server empty_object two constructor).
  reflexivity.
Defined.

(** The scenario of the specification, [update({"abc123": "cleared"}, 2)]
    with a server that acknowledges: the call ends in a [TypeError] before
    the request is made, because [_fetchData] too is read off the class
    object. *)
Example update_scenario :
  update acknowledging_server song_states two constructor
  = (inl (TypeError "funcs._fetchData is not a function"), constructor).
Proof. reflexivity. Qed.

End StateCacheClaims.

(** ** Claims on the base URL *)

Section ApiBase.

Import PBUI.

(** Whatever its argument, [setApiBase] returns with the binding [apiUrl]
    as it was, having written one line to the console: the binding is a
    [const]. *)
Lemma setApiBase_const URL_parses url w :
  kind (apiUrl w) = ConstBinding ->
  apiUrl (setApiBase URL_parses url w) = apiUrl w
  /\ exists lvl msg,
       trace (setApiBase URL_parses url w) = trace w ++ [Console lvl msg].
Proof.
  intros Hk. unfold setApiBase, assign. rewrite Hk.
  destruct url as [u|]; [|split; [reflexivity|eexists _, _; reflexivity]].
  destruct (String.eqb u ""); [split; [reflexivity|eexists _, _; reflexivity]|].
  destruct (negb (URL_parses u)); [split; [reflexivity|eexists _, _; reflexivity]|].
  destruct (endsWith u "/"); split; try reflexivity; eexists _, _; reflexivity.
Qed.

(** C9: a well-formed URL without trailing [/] should become the base URL.
    For [https://example.com/api], on a fresh client and with any parser
    that accepts it, [setApiBase] logs [Invalid URL:] and the base URL stays
    the declared one: the assignment to the [const] binding throws inside the
    [try] and is caught. *)
Theorem setApiBase_wellformed_url_not_set URL_parses :
  URL_parses example_url = true ->
  let w := setApiBase URL_parses (Some example_url) constructor in
  endsWith example_url "/" = false
  /\ value (apiUrl w) = "https://api.ultraslayyy.xyz/api"%string
  /\ trace w = [Console Log "[PBUI] Invalid URL:"].
Proof.
  intros Hp. unfold setApiBase. rewrite Hp. repeat split.
Qed.

Lemma setApiBase_wellformed_url_not_set_witness :
  let w := setApiBase accept_all (Some example_url) constructor in
  endsWith example_url "/" = false
  /\ value (apiUrl w) = "https://api.ultraslayyy.xyz/api"%string
  /\ trace w = [Console Log "[PBUI] Invalid URL:"].
Proof.
  apply (setApiBase_wellformed_url_not_set accept_all). reflexivity.
Defined.

End ApiBase.

(** ** Claims on the reconnect scheduler *)

Section Reconnect.

Import PBUI.

Lemma delays_app l1 l2 : delays (l1 ++ l2) = delays l1 ++ delays l2.
Proof. unfold delays. apply omap_app. Qed.

(** Below ten attempts [_reconnect] counts the attempt and sets one timeout,
    with the delay of the attempt number it found. *)
Lemma reconnect_below w :
  (reconnectionAttempts w < 10)%nat ->
  let w' := _reconnect w in
  trace w' =
    trace w ++ [Console Log "[PBUI] Reconnecting...";
                SetTimeout (reconnect_delay (reconnectionAttempts w)) ReconnectNow]
  /\ reconnectionAttempts w' = S (reconnectionAttempts w)
  /\ connecting w' = true.
Proof.
  intros Hlt. unfold _reconnect.
  destruct (Nat.leb_spec 10 (reconnectionAttempts w)) as [Hge|_]; [lia|].
  cbn. rewrite <- app_assoc. repeat split.
Qed.

(** From ten attempts on [_reconnect] only reports. *)
Lemma reconnect_exhausted w :
  (10 <= reconnectionAttempts w)%nat ->
  _reconnect w =
  emit [Console Err "[PBUI] Max reconnection attempts reached or already reconnecting."] w.
Proof.
  intros Hge. unfold _reconnect.
  destruct (Nat.leb_spec 10 (reconnectionAttempts w)) as [_|Hlt]; [reflexivity|lia].
Qed.

(** [k] calls in a row, no connection made in between *)
Lemma reconnect_iter k : forall w,
  (reconnectionAttempts w <= 10)%nat ->
  let n := reconnectionAttempts w in
  let w' := Nat.iter k _reconnect w in
  reconnectionAttempts w' = Nat.min (n + k) 10
  /\ delays (trace w') =
     delays (trace w) ++ map reconnect_delay (seq n (Nat.min (n + k) 10 - n)).
Proof.
  induction k as [|k IH]; intros w Hle; cbn zeta.
  - change (Nat.iter 0 _reconnect w) with w.
    rewrite Nat.add_0_r, Nat.min_l by lia.
    rewrite Nat.sub_diag. cbn. rewrite app_nil_r. split; reflexivity.
  - change (Nat.iter (S k) _reconnect w)
      with (_reconnect (Nat.iter k _reconnect w)).
    destruct (IH w Hle) as [Ha Hd]. cbn zeta in Ha, Hd.
    set (wk := Nat.iter k _reconnect w) in *.
    destruct (Nat.lt_ge_cases (reconnectionAttempts wk) 10) as [Hlt|Hge].
    + destruct (reconnect_below wk Hlt) as (Ht & Hn & _). cbn zeta in Ht, Hn.
      rewrite Hn, Ht, delays_app, Hd, Ha. cbn [delays omap].
      assert (Hk : (reconnectionAttempts w + k < 10)%nat) by lia.
      rewrite !Nat.min_l in * by lia. split; [lia|].
      replace (reconnectionAttempts w + S k - reconnectionAttempts w)%nat
        with (S k) by lia.
      replace (reconnectionAttempts w + k - reconnectionAttempts w)%nat
        with k by lia.
      rewrite seq_S, map_app, <- app_assoc. reflexivity.
    + rewrite (reconnect_exhausted wk Hge). cbn [emit reconnectionAttempts trace set_trace].
      rewrite delays_app. cbn [delays omap]. rewrite app_nil_r, Hd, Ha.
      assert (Hk : (10 <= reconnectionAttempts w + k)%nat) by lia.
      rewrite !Nat.min_r by lia. split; reflexivity.
Qed.

(** C3: started from attempt counter 0, [k] calls of the scheduler in a row
    set the delays [min(1000 * 2^n, 10000)] of the attempts [n = 0, 1, ...]
    below ten and no more, the first six being 1000, 2000, 4000, 8000, 10000,
    10000; the counter stands at the number of timeouts set, and a call that
    finds it at ten sets none. *)
Theorem reconnect_schedule k w :
  reconnectionAttempts w = 0%nat ->
  let w' := Nat.iter k _reconnect w in
  delays (trace w') =
    delays (trace w) ++ map reconnect_delay (seq 0 (Nat.min k 10))
  /\ reconnectionAttempts w' = Nat.min k 10
  /\ (forall n, reconnect_delay n = Z.min (1000 * 2 ^ Z.of_nat n) 10000)
  /\ map reconnect_delay (seq 0 6) = [1000; 2000; 4000; 8000; 10000; 10000]
  /\ ((10 <= k)%nat ->
      delays (trace (_reconnect w')) = delays (trace w')
      /\ reconnectionAttempts (_reconnect w') = 10%nat).
Proof.
  intros H0. cbn zeta.
  destruct (reconnect_iter k w ltac:(lia)) as [Ha Hd]. cbn zeta in Ha, Hd.
  rewrite H0 in Ha, Hd. cbn [Nat.add] in Ha, Hd. rewrite Nat.sub_0_r in Hd.
  split; [exact Hd|]. split; [exact Ha|]. split; [reflexivity|].
  split; [reflexivity|].
  intros Hk. rewrite reconnect_exhausted by lia.
  cbn [emit reconnectionAttempts trace set_trace]. rewrite delays_app.
  cbn [delays omap]. rewrite app_nil_r. split; [reflexivity|]. lia.
Qed.

Lemma reconnect_schedule_witness :
  let w' := Nat.iter 11 _reconnect constructor in
  delays (trace w') =
    delays (trace constructor) ++ map reconnect_delay (seq 0 (Nat.min 11 10))
  /\ reconnectionAttempts w' = Nat.min 11 10
  /\ (forall n, reconnect_delay n = Z.min (1000 * 2 ^ Z.of_nat n) 10000)
  /\ map reconnect_delay (seq 0 6) = [1000; 2000; 4000; 8000; 10000; 10000]
  /\ ((10 <= 11)%nat ->
      delays (trace (_reconnect w')) = delays (trace w')
      /\ reconnectionAttempts (_reconnect w') = 10%nat).
Proof. apply (reconnect_schedule 11 constructor). reflexivity. Defined.

End Reconnect.

(** ** Claims on the connection manager *)

Section Connection.

Import PBUI.

(** What [_ensureConnected] does while [connecting] is set: it stops on
    whatever [connectionPromise] holds, having changed nothing; resumed after
    a fulfilment it throws exactly when there is no live socket, and resumed
    after a rejection it throws the reason of the rejection. *)
Lemma ensureConnected_connecting w :
  connecting w = true ->
  awaits (_ensureConnected w) = Some (awaited_of (connectionPromise w))
  /\ state_of (_ensureConnected w) = w
  /\ (forall w', live w' = false ->
        resume (_ensureConnected w) Resolved w' = Throw NotConnectedError w')
  /\ (forall w', live w' = true ->
        resume (_ensureConnected w) Resolved w' = Return tt w')
  /\ (forall e w', resume (_ensureConnected w) (Failed e) w' = Throw e w').
Proof.
  intros Hc. unfold _ensureConnected. rewrite Hc. cbn.
  split_all; intros; try rewrite H; reflexivity.
Qed.

(** Without [connecting] it checks at once. *)
Lemma ensureConnected_idle w :
  connecting w = false ->
  _ensureConnected w =
  if live w then Return tt w else Throw NotConnectedError w.
Proof.
  intros Hc. unfold _ensureConnected. rewrite Hc.
  destruct (live w); reflexivity.
Qed.

(** The four operations that begin with [_ensureConnected], called while
    [connecting] is set:
    each stops on whatever [connectionPromise] holds without having changed
    anything, so none starts a transport; resumed after a rejection it
    throws the reason, and resumed after a fulfilment with no live socket it
    throws the not-connected error. *)
Lemma guarded_operations_wait event data f w :
  connecting w = true ->
  Forall
    (fun op : t -> Task unit =>
       awaits (op w) = Some (awaited_of (connectionPromise w))
       /\ state_of (op w) = w
       /\ (forall e w', resume (op w) (Failed e) w' = Throw e w')
       /\ (forall w', live w' = false ->
             resume (op w) Resolved w' = Throw NotConnectedError w'))
    [send event data; on event f; subscribe event f; unsubscribe event f].
Proof.
  intros Hc.
  repeat (apply Forall_cons; split;
          [unfold send, on, subscribe, unsubscribe, await_call, try_await_call,
             _ensureConnected; rewrite Hc; cbn;
           split_all; try reflexivity; intros w' Hl; rewrite Hl; reflexivity|]).
  constructor.
Qed.

(** C2: an operation called while a connect attempt is in progress should
    wait for the readiness future of that attempt.  On a fresh client,
    [connect()] stops at [await this._disconnectIfConnected()] with
    [connecting] set and [connectionPromise] still [null]; resumed, it makes
    future 0 and leaves it pending.  Each of the four operations, called
    where [connect] first stopped, awaits that [null], not a future, and,
    resumed before or after [connect], fails with the not-connected error
    without having waited for future 0. *)
Theorem operations_right_after_connect :
  let w1 := state_of connect_called in
  let w2 := state_of connect_resumed in
  connecting w1 = true
  /\ connectionPromise w1 = None
  /\ awaits connect_resumed = Some (AwaitPromise 0%nat)
  /\ connectionPromise w2 = Some 0%nat
  /\ promises w2 !! 0%nat = Some Pending
  /\ Forall
       (fun op : t -> Task unit =>
          awaits (op w1) = Some AwaitValue
          /\ state_of (op w1) = w1
          /\ resume (op w1) Resolved w2 = Throw NotConnectedError w2
          /\ resume (op w1) Resolved w1 = Throw NotConnectedError w1)
       [send "ping" VNull; on "state-updated" 7%nat;
        subscribe "state-updated" 7%nat; unsubscribe "state-updated" 7%nat].
Proof.
  cbv zeta. split_all; try (vm_compute; reflexivity).
  repeat (apply Forall_cons; split;
          [split_all; vm_compute; reflexivity|]).
  constructor.
Qed.

(** C5: a transport failure should reject the readiness future and set a
    retry.  After [connect()] on a fresh client has run up to the return of
    its future 0, socket 0 has been emptied of its listeners by
    [_cleanupSocket]: the failure reported on it changes nothing, the future
    stays pending and no timeout is set.  Even where the listeners of
    [_establishConnection] are still in place, the failure rejects the future
    and sets no timeout. *)
Theorem connect_error_sets_no_retry :
  let w2 := state_of connect_resumed in
  let w3 := transport_connect_error 0%nat timeout_error w2 in
  let established := snd (_establishConnection VUndefined constructor) in
  let failed := transport_connect_error 0%nat timeout_error established in
  awaits connect_resumed = Some (AwaitPromise 0%nat)
  /\ socket w2 = None
  /\ handlers <$> sockets w2 !! 0%nat = Some []
  /\ w3 = w2
  /\ promises w3 !! 0%nat = Some Pending
  /\ delays (trace w3) = []
  /\ promises failed !! 0%nat = Some (Rejected (Error "Connection failed: timeout"))
  /\ delays (trace failed) = []
  /\ reconnectionAttempts failed = 0%nat.
Proof. cbv zeta. split_all; vm_compute; reflexivity. Qed.

End Connection.

(** ** Claims on the event router *)

Section Router.

Import PBUI.

(** An operation behind [await this._ensureConnected()], called while no
    connect is in progress and run on its own *)
Lemma run_alone_guarded {A} (body : unit -> t -> Task A) w :
  connecting w = false ->
  run_alone (await_call (_ensureConnected w) body) =
  if live w then run_alone (body tt w) else Some (inl NotConnectedError, w).
Proof.
  intros Hc. rewrite ensureConnected_idle by exact Hc.
  destruct (live w); reflexivity.
Qed.

Lemma includes_listener_elem ls f : includes_listener ls f = true <-> f ∈ ls.
Proof.
  unfold includes_listener. rewrite existsb_exists. split.
  - intros (x & Hin & Heq). apply Nat.eqb_eq in Heq. subst x.
    apply list_elem_of_In. exact Hin.
  - intros Hin. exists f. split; [apply list_elem_of_In; exact Hin|].
    apply Nat.eqb_refl.
Qed.

(** What [this.listeners[event]] finds *)
Lemma property_own {A} (m : gmap string A) key x :
  m !! key = Some x -> property m key = Own x.
Proof. intros H. unfold property. rewrite H. reflexivity. Qed.

Lemma property_Inherited {A} (m : gmap string A) key :
  property m key = Inherited <-> m !! key = None /\ inherited key = true.
Proof.
  unfold property. destruct (m !! key); [split; [discriminate|intros [? _]; discriminate]|].
  destruct (inherited key); split; try discriminate; auto.
  intros [_ ?]. discriminate.
Qed.

Lemma property_plain {A} (m : gmap string A) key :
  inherited key = false ->
  property m key = match m !! key with Some x => Own x | None => Absent end.
Proof. intros H. unfold property. rewrite H. reflexivity. Qed.

(** Under a name that is not inherited, [_triggerListeners] calls the
    listeners of the own list, if there is one, and does not throw. *)
Lemma triggerListeners_plain event d w :
  inherited event = false ->
  _triggerListeners event d w =
  (inr tt,
   match listeners w !! event with
   | Some ls => emit (map (fun listener => Invoke listener d) ls) w
   | None => w
   end).
Proof.
  intros H. unfold _triggerListeners. rewrite property_plain by exact H.
  destruct (listeners w !! event); reflexivity.
Qed.

(** [subscribe] on a name under which the registry finds an inherited
    member throws, and leaves the client as it is. *)
Lemma subscribe_inherited e f w :
  connecting w = false -> live w = true ->
  property (listeners w) e = Inherited ->
  run_alone (subscribe e f w) =
  Some (inl (TypeError "this.listeners[event].includes is not a function"), w).
Proof.
  intros Hc Hl Hp. unfold subscribe. rewrite run_alone_guarded by exact Hc.
  rewrite Hl, Hp. cbn zeta. rewrite Hp. reflexivity.
Qed.

Lemma subscribe_run e f w :
  connecting w = false -> live w = true ->
  property (listeners w) e <> Inherited ->
  exists w1,
    run_alone (subscribe e f w) = Some (inr tt, w1)
    /\ connecting w1 = false /\ live w1 = true
    /\ listeners w1 =
       <[e := let ls := default [] (listeners w !! e) in
              if includes_listener ls f then ls else ls ++ [f]]> (listeners w).
Proof.
  intros Hc Hl Hp. unfold subscribe. rewrite run_alone_guarded by exact Hc.
  rewrite Hl. unfold property in *.
  destruct (listeners w !! e) as [ls|] eqn:E.
  - cbn zeta. rewrite E. cbn [from_option id].
    destruct (includes_listener ls f) eqn:Hin; cbn [negb].
    + eexists. split; [reflexivity|]. split; [exact Hc|]. split; [exact Hl|].
      cbn. symmetry. apply insert_id. exact E.
    + eexists. split; [reflexivity|]. split; [exact Hc|]. split; [exact Hl|].
      reflexivity.
  - destruct (inherited e); [congruence|]. cbn zeta.
    cbn [listeners set_listeners]. rewrite lookup_insert_eq. cbn [from_option id].
    cbn [includes_listener existsb negb].
    eexists. split; [reflexivity|]. split; [exact Hc|]. split; [exact Hl|].
    cbn. apply insert_insert_eq.
Qed.

Lemma filter_eq_absent (f : Listener) ls :
  f ∉ ls -> filter (fun g => g = f) ls = [].
Proof.
  induction ls as [|x l IH]; intros Hn; [reflexivity|].
  apply not_elem_of_cons in Hn as [Hne Hn].
  rewrite filter_cons. destruct (decide (x = f)); [congruence|]. auto.
Qed.

Lemma filter_eq_NoDup (f : Listener) ls :
  NoDup ls -> f ∈ ls -> filter (fun g => g = f) ls = [f].
Proof.
  induction 1 as [|x l Hx Hnd IH]; intros Hin.
  - inversion Hin.
  - rewrite filter_cons. destruct (decide (x = f)) as [->|Hne].
    + rewrite filter_eq_absent by exact Hx. reflexivity.
    + apply elem_of_cons in Hin as [->|Hin]; [congruence|]. auto.
Qed.

(** [subscribe] keeps the lists of the registry free of repetitions. *)
Lemma subscribe_keeps_NoDup e f w w1 :
  connecting w = false -> live w = true ->
  (forall e' ls, listeners w !! e' = Some ls -> NoDup ls) ->
  run_alone (subscribe e f w) = Some (inr tt, w1) ->
  forall e' ls, listeners w1 !! e' = Some ls -> NoDup ls.
Proof.
  intros Hc Hl Hwf Hrun e' ls.
  assert (Hp : property (listeners w) e <> Inherited).
  { intros Hp. rewrite (subscribe_inherited e f w Hc Hl Hp) in Hrun. discriminate. }
  destruct (subscribe_run e f w Hc Hl Hp) as (w1' & Hrun' & _ & _ & Hreg).
  rewrite Hrun' in Hrun. injection Hrun as <-. rewrite Hreg.
  destruct (decide (e = e')) as [<-|Hne].
  - rewrite lookup_insert_eq. intros [= <-]. cbn zeta.
    assert (Hnd : NoDup (default [] (listeners w !! e))).
    { destruct (listeners w !! e) eqn:E; cbn; [eauto|constructor]. }
    destruct (includes_listener _ f) eqn:Hin; [exact Hnd|].
    apply NoDup_app. split; [exact Hnd|]. split; [|apply NoDup_singleton].
    intros x Hx Hxf. apply list_elem_of_singleton in Hxf. subst x.
    apply includes_listener_elem in Hx. congruence.
  - rewrite lookup_insert_ne by exact Hne. apply Hwf.
Qed.

(** Where the registry finds a list for [e] or nothing, two calls of
    [subscribe(e, f)] do what the specification says: both succeed, the
    second leaves the registry as the first left it, [f] occurs exactly once
    in the list for [e], and a trigger of [e] calls the listeners of that
    list once each, in order. *)
Lemma subscribe_twice_plain e f d w :
  connecting w = false -> live w = true ->
  (forall ls, listeners w !! e = Some ls -> NoDup ls) ->
  property (listeners w) e <> Inherited ->
  exists w1 w2 ls,
    run_alone (subscribe e f w) = Some (inr tt, w1)
    /\ run_alone (subscribe e f w1) = Some (inr tt, w2)
    /\ listeners w2 = listeners w1
    /\ listeners w2 !! e = Some ls
    /\ filter (fun g => g = f) ls = [f]
    /\ _triggerListeners e d w2 =
       (inr tt, emit (map (fun g => Invoke g d) ls) w2).
Proof.
  intros Hc Hl Hnd Hp.
  destruct (subscribe_run e f w Hc Hl Hp) as (w1 & Hrun1 & Hc1 & Hl1 & Hreg1).
  set (ls0 := default [] (listeners w !! e)) in *.
  set (ls := if includes_listener ls0 f then ls0 else ls0 ++ [f]) in *.
  assert (E1 : listeners w1 !! e = Some ls).
  { rewrite Hreg1. apply lookup_insert_eq. }
  assert (Hp1 : property (listeners w1) e <> Inherited).
  { rewrite (property_own _ _ _ E1). discriminate. }
  destruct (subscribe_run e f w1 Hc1 Hl1 Hp1) as (w2 & Hrun2 & _ & _ & Hreg2).
  assert (Hls0 : NoDup ls0).
  { subst ls0. destruct (listeners w !! e) eqn:E; cbn; [eauto|constructor]. }
  assert (Hin : f ∈ ls /\ NoDup ls).
  { subst ls. destruct (includes_listener ls0 f) eqn:Hi.
    - split; [apply includes_listener_elem; exact Hi|exact Hls0].
    - split; [apply elem_of_app; right; apply list_elem_of_singleton; reflexivity|].
      apply NoDup_app. split; [exact Hls0|]. split; [|apply NoDup_singleton].
      intros x Hx Hxf. apply list_elem_of_singleton in Hxf. subst x.
      apply includes_listener_elem in Hx. congruence. }
  destruct Hin as [Hin Hndls].
  assert (E2 : listeners w2 = listeners w1).
  { rewrite Hreg2, E1. cbn [from_option id].
    apply includes_listener_elem in Hin. rewrite Hin.
    apply insert_id. exact E1. }
  exists w1, w2, ls. split; [exact Hrun1|]. split; [exact Hrun2|].
  split; [exact E2|]. split; [rewrite E2; exact E1|].
  split; [apply filter_eq_NoDup; assumption|].
  unfold _triggerListeners. rewrite E2, (property_own _ _ _ E1). reflexivity.
Qed.

(** C7: two calls of [subscribe(e, f)] should leave one entry for [f],
    whatever the name [e].  On a connected client whose lists have no
    repetition they do, unless [e] names a member that every object
    inherits, such as [toString], and the registry has no list of its own
    for it: there line 192 finds the inherited member instead of nothing,
    makes no list, and line 196 throws a [TypeError]; nothing is registered
    and the client is as it was. *)
Theorem subscribe_twice e f d w :
  connecting w = false -> live w = true ->
  (forall ls, listeners w !! e = Some ls -> NoDup ls) ->
  match property (listeners w) e with
  | Inherited =>
      run_alone (subscribe e f w) =
      Some (inl (TypeError "this.listeners[event].includes is not a function"), w)
  | _ =>
      exists w1 w2 ls,
        run_alone (subscribe e f w) = Some (inr tt, w1)
        /\ run_alone (subscribe e f w1) = Some (inr tt, w2)
        /\ listeners w2 = listeners w1
        /\ listeners w2 !! e = Some ls
        /\ filter (fun g => g = f) ls = [f]
        /\ _triggerListeners e d w2 =
           (inr tt, emit (map (fun g => Invoke g d) ls) w2)
  end.
Proof.
  intros Hc Hl Hnd. destruct (property (listeners w) e) as [ls| |] eqn:Hp.
  - apply subscribe_twice_plain; try assumption. rewrite Hp. discriminate.
  - apply subscribe_inherited; assumption.
  - apply subscribe_twice_plain; try assumption. rewrite Hp. discriminate.
Qed.

Lemma subscribe_twice_witness :
  run_alone (subscribe "toString" 7%nat connected_client) =
  Some (inl (TypeError "this.listeners[event].includes is not a function"),
        connected_client).
Proof.
  apply (subscribe_twice "toString" 7%nat one connected_client).
  - vm_compute. reflexivity.
  - vm_compute. reflexivity.
  - intros ls H. vm_compute in H. discriminate H.
Defined.

(** The same two calls on a name of the code's own *)
Example subscribe_twice_state_updated :
  exists w1 w2,
    run_alone (subscribe "state-updated" 7%nat connected_client) = Some (inr tt, w1)
    /\ run_alone (subscribe "state-updated" 7%nat w1) = Some (inr tt, w2)
    /\ listeners w2 = listeners w1
    /\ listeners w2 !! "state-updated"%string = Some [7%nat].
Proof.
  eexists _, _. split_all; vm_compute; reflexivity.
Qed.

(** [indexOf] finds the first occurrence, and [splice(index, 1)] removes
    it. *)
Lemma indexOf_spec ls f :
  match indexOf ls f with
  | None => f ∉ ls
  | Some i =>
      exists l1 l2, ls = l1 ++ (f :: l2) /\ (f ∉ l1) /\ delete i ls = l1 ++ l2
  end.
Proof.
  induction ls as [|x l IH]; cbn [indexOf].
  - apply not_elem_of_nil.
  - destruct (Nat.eqb_spec x f) as [->|Hne].
    + exists [], l. split; [reflexivity|]. split; [apply not_elem_of_nil|reflexivity].
    + destruct (indexOf l f) as [i|]; cbn [fmap option_fmap option_map].
      * destruct IH as (l1 & l2 & -> & Hn & Hd).
        exists (x :: l1), l2. split; [reflexivity|].
        split; [apply not_elem_of_cons; split; [congruence|exact Hn]|].
        cbn. f_equal. exact Hd.
      * apply not_elem_of_cons. split; [congruence|exact IH].
Qed.

(** Without a live socket [unsubscribe] fails before it looks at the
    registry. *)
Example unsubscribe_fails_when_not_connected :
  listeners constructor !! "state-updated"%string = None
  /\ run_alone (unsubscribe "state-updated" 7%nat constructor)
     = Some (inl NotConnectedError, constructor).
Proof. split; vm_compute; reflexivity. Qed.

(** [unsubscribe] on a name under which the registry finds an inherited
    member throws, and leaves the client as it is. *)
Lemma unsubscribe_inherited e f w :
  connecting w = false -> live w = true ->
  property (listeners w) e = Inherited ->
  run_alone (unsubscribe e f w) =
  Some (inl (TypeError "this.listeners[event].indexOf is not a function"), w).
Proof.
  intros Hc Hl Hp. unfold unsubscribe. rewrite run_alone_guarded by exact Hc.
  rewrite Hl, Hp. reflexivity.
Qed.

(** [unsubscribe] called while no connect is in progress and run on its
    own *)
Lemma unsubscribe_run e f w :
  connecting w = false ->
  exists r w1,
    run_alone (unsubscribe e f w) = Some (r, w1)
    /\ (live w = false -> r = inl NotConnectedError /\ w1 = w)
    /\ (live w = true -> property (listeners w) e <> Inherited ->
        r = inr tt
        /\ (f ∉ default [] (listeners w !! e) -> listeners w1 = listeners w)
        /\ (forall ls, listeners w !! e = Some ls -> f ∈ ls ->
              exists l1 l2,
                ls = l1 ++ (f :: l2) /\ (f ∉ l1)
                /\ listeners w1 = <[e := l1 ++ l2]> (listeners w)))
    /\ (forall e', e' <> e -> listeners w1 !! e' = listeners w !! e').
Proof.
  intros Hc. unfold unsubscribe. rewrite run_alone_guarded by exact Hc.
  destruct (live w) eqn:Hl.
  2: { eexists _, _. split; [reflexivity|]. split; [auto|].
       split; [discriminate|reflexivity]. }
  unfold property. destruct (listeners w !! e) as [ls|] eqn:E.
  2: { destruct (inherited e).
       - eexists _, _. split; [reflexivity|]. split; [discriminate|].
         split; [|reflexivity]. intros _ Hp. congruence.
       - eexists _, _. split; [reflexivity|]. split; [discriminate|].
         split; [|reflexivity]. intros _ _.
         split; [reflexivity|]. split; [reflexivity|]. discriminate. }
  pose proof (indexOf_spec ls f) as Hi.
  destruct (indexOf ls f) as [i|].
  - destruct Hi as (l1 & l2 & Hls & Hn & Hd).
    eexists _, _. split; [reflexivity|]. split; [discriminate|].
    cbn [listeners set_listeners emit set_trace from_option id].
    split; [|intros e' Hne; apply lookup_insert_ne; congruence].
    intros _ _. split; [reflexivity|].
    split; [intros Hnot; exfalso; apply Hnot; rewrite Hls;
            apply elem_of_app; right; left|].
    intros ls' [= <-] _. exists l1, l2. rewrite Hd. auto.
  - eexists _, _. split; [reflexivity|]. split; [discriminate|].
    split; [|reflexivity]. intros _ _.
    split; [reflexivity|]. split; [reflexivity|].
    intros ls' [= <-] Hin. contradiction.
Qed.

(** [unsubscribe] keeps the lists of the registry free of repetitions. *)
Lemma unsubscribe_keeps_NoDup e f w r w1 :
  connecting w = false ->
  (forall e' ls, listeners w !! e' = Some ls -> NoDup ls) ->
  run_alone (unsubscribe e f w) = Some (r, w1) ->
  forall e' ls, listeners w1 !! e' = Some ls -> NoDup ls.
Proof.
  intros Hc Hwf Hrun.
  destruct (unsubscribe_run e f w Hc) as (r' & w1' & Hrun' & Hdead & Hlive & Hother).
  rewrite Hrun' in Hrun. injection Hrun as <- <-.
  destruct (live w) eqn:Hl.
  2: { destruct Hdead as [_ ->]; [reflexivity|]. exact Hwf. }
  intros e' ls. destruct (decide (e' = e)) as [->|Hne].
  2: { rewrite Hother by exact Hne. apply Hwf. }
  destruct (listeners w !! e) as [ls0|] eqn:E.
  2: { destruct (inherited e) eqn:Hi.
       - assert (Hp : property (listeners w) e = Inherited)
           by (apply property_Inherited; auto).
         rewrite (unsubscribe_inherited e f w Hc Hl Hp) in Hrun'.
         injection Hrun' as _ <-. rewrite E. discriminate.
       - destruct Hlive as (_ & Habsent & _); [reflexivity| |].
         + rewrite property_plain, E by exact Hi. discriminate.
         + rewrite Habsent by apply not_elem_of_nil.
           rewrite E. discriminate. }
  destruct Hlive as (_ & Habsent & Hpresent); [reflexivity| |].
  { rewrite (property_own _ _ _ E). discriminate. }
  cbn [from_option id] in Habsent.
  destruct (decide (f ∈ ls0)) as [Hin|Hnin].
  - destruct (Hpresent ls0 eq_refl Hin) as (l1 & l2 & -> & _ & ->).
    rewrite lookup_insert_eq. intros [= <-].
    specialize (Hwf e _ E). apply NoDup_app in Hwf as (H1 & H12 & H2).
    apply NoDup_cons in H2 as [_ H2].
    apply NoDup_app. split; [exact H1|]. split; [|exact H2].
    intros x Hx Hx2. apply (H12 x Hx). right. exact Hx2.
  - rewrite Habsent by exact Hnin. rewrite E. intros [= <-]. exact (Hwf e _ E).
Qed.

(** C8: [unsubscribe(e, f)] should not fail when [e] has no list, or [f]
    is not in it, and should remove nothing else.  On a connected client it
    does so where the registry finds a list for [e] or nothing: it
    succeeds, leaves the registry as it is when [f] is not in the list or
    there is none, and otherwise removes the first [f] from the list, the
    other entries keeping their order.  Where [e] names a member that every
    object inherits, such as [toString], and the registry has no list of
    its own for it, line 207 finds the inherited member instead of nothing
    and line 212 throws a [TypeError].  In every case the lists of the
    other events are left alone. *)
Theorem unsubscribe_frame e f w :
  connecting w = false -> live w = true ->
  exists r w1,
    run_alone (unsubscribe e f w) = Some (r, w1)
    /\ match property (listeners w) e with
       | Inherited =>
           r = inl (TypeError "this.listeners[event].indexOf is not a function")
           /\ w1 = w
       | Absent => r = inr tt /\ listeners w1 = listeners w
       | Own ls =>
           r = inr tt
           /\ (f ∉ ls -> listeners w1 = listeners w)
           /\ (f ∈ ls ->
               exists l1 l2,
                 ls = l1 ++ (f :: l2) /\ (f ∉ l1)
                 /\ listeners w1 = <[e := l1 ++ l2]> (listeners w))
       end
    /\ (forall e', e' <> e -> listeners w1 !! e' = listeners w !! e').
Proof.
  intros Hc Hl.
  destruct (property (listeners w) e) as [ls| |] eqn:Hp.
  - destruct (unsubscribe_run e f w Hc) as (r & w1 & Hrun & _ & Hlive & Hother).
    assert (E : listeners w !! e = Some ls).
    { unfold property in Hp. destruct (listeners w !! e); [congruence|].
      destruct (inherited e); discriminate. }
    destruct Hlive as (-> & Habsent & Hpresent); [exact Hl|rewrite Hp; discriminate|].
    rewrite E in Habsent. exists (inr tt), w1. split_all; auto.
  - exists (inl (TypeError "this.listeners[event].indexOf is not a function")), w.
    split; [apply unsubscribe_inherited; assumption|]. split_all; reflexivity.
  - destruct (unsubscribe_run e f w Hc) as (r & w1 & Hrun & _ & Hlive & Hother).
    assert (E : listeners w !! e = None).
    { unfold property in Hp. destruct (listeners w !! e); [discriminate|reflexivity]. }
    destruct Hlive as (-> & Habsent & _); [exact Hl|rewrite Hp; discriminate|].
    exists (inr tt), w1. split_all; auto.
    apply Habsent. rewrite E. apply not_elem_of_nil.
Qed.

Lemma unsubscribe_frame_witness :
  exists r w1,
    run_alone (unsubscribe "toString" 7%nat connected_client) = Some (r, w1)
    /\ (r = inl (TypeError "this.listeners[event].indexOf is not a function")
        /\ w1 = connected_client)
    /\ (forall e', e' <> "toString"%string ->
          listeners w1 !! e' = listeners connected_client !! e').
Proof.
  apply (unsubscribe_frame "toString" 7%nat connected_client).
  - vm_compute. reflexivity.
  - vm_compute. reflexivity.
Defined.

End Router.

Section Disconnect.

Import PBUI.

Lemma deliver_unfold sid event payload w s :
  sockets w !! sid = Some s ->
  deliver sid event payload w =
  foldl (deliver_step sid payload) w
    (filter (fun r => reg_event r = event) (handlers s)).
Proof. intros H. unfold deliver. rewrite H. reflexivity. Qed.

Lemma user_step sid payload w r :
  is_user r = true -> lifecycle (deliver_step sid payload w r) = lifecycle w.
Proof.
  unfold is_user, deliver_step. destruct r as [ev once [| | | | | |f]]; try discriminate.
  intros _. cbn [reg_handler reg_once run_handler].
  destruct once; unfold lifecycle; cbn; rewrite delays_app; cbn;
    rewrite app_nil_r; reflexivity.
Qed.

Lemma users_steps sid payload us : forall w,
  Forall (fun r => is_user r = true) us ->
  lifecycle (foldl (deliver_step sid payload) w us) = lifecycle w.
Proof.
  induction us as [|r us IH]; intros w Hus; [reflexivity|].
  inversion Hus as [|? ? Hr Hrest]; subst. cbn [foldl].
  rewrite IH by exact Hrest. apply user_step. exact Hr.
Qed.

Lemma stopHeartbeat_lifecycle w : lifecycle (_stopHeartbeat w) = lifecycle w.
Proof.
  unfold _stopHeartbeat. destruct (heartbeatInterval w); [|reflexivity].
  unfold lifecycle. cbn. rewrite delays_app. cbn. rewrite app_nil_r. reflexivity.
Qed.

Lemma cleanupSocket_lifecycle w :
  lifecycle (_cleanupSocket w) =
  (manualDisconnect w, None, connecting w, reconnectionAttempts w,
   promises w, delays (trace w)).
Proof.
  unfold _cleanupSocket. rewrite stopHeartbeat_lifecycle.
  destruct (socket w) eqn:E; unfold lifecycle; cbn; rewrite ?E; reflexivity.
Qed.

Lemma auto_step sid payload w :
  manualDisconnect w = true ->
  lifecycle (deliver_step sid payload w disconnect_registration) =
  (false, None, connecting w, reconnectionAttempts w, promises w,
   delays (trace w)).
Proof.
  intros Hm. unfold deliver_step.
  cbn [disconnect_registration reg_once reg_handler run_handler].
  set (w1 := _cleanupSocket _).
  assert (H1 : lifecycle w1 =
               (true, None, connecting w, reconnectionAttempts w, promises w,
                delays (trace w))).
  { subst w1. rewrite cleanupSocket_lifecycle. cbn. rewrite Hm, delays_app.
    cbn. rewrite app_nil_r. reflexivity. }
  clearbody w1. unfold lifecycle in H1.
  injection H1 as Hm1 Hs1 Hc1 Ha1 Hp1 Hd1.
  rewrite Hm1. cbn [negb]. unfold lifecycle. fields.
  rewrite Hs1, Hc1, Ha1, Hp1, Hd1. reflexivity.
Qed.

Lemma once_step sid payload w p :
  lifecycle
    (deliver_step sid payload w
       {| reg_event := "disconnect"; reg_once := true;
          reg_handler := OnDisconnected p |}) =
  (manualDisconnect w, None, connecting w, reconnectionAttempts w,
   match promises w !! p with
   | Some Pending => <[p := Fulfilled]> (promises w)
   | _ => promises w
   end,
   delays (trace w)).
Proof.
  unfold deliver_step. cbn [reg_once reg_handler run_handler].
  set (w0 := socket_off_one _ _ _).
  set (w1 := _cleanupSocket w0).
  assert (H1 : lifecycle w1 =
               (manualDisconnect w, None, connecting w, reconnectionAttempts w,
                promises w, delays (trace w))).
  { subst w1. rewrite cleanupSocket_lifecycle. reflexivity. }
  clearbody w1. unfold lifecycle in H1.
  injection H1 as Hm1 Hs1 Hc1 Ha1 Hp1 Hd1.
  unfold resolve, settle. cbn [promises emit set_trace].
  rewrite Hp1. unfold lifecycle.
  destruct (promises w !! p) as [[| |]|]; fields; rewrite ?delays_app; fields;
    cbn [delays omap]; rewrite ?app_nil_r, ?Hm1, ?Hs1, ?Hc1, ?Ha1, ?Hp1, ?Hd1;
    reflexivity.
Qed.

Lemma stopHeartbeat_sockets w : sockets (_stopHeartbeat w) = sockets w.
Proof. unfold _stopHeartbeat. destruct (heartbeatInterval w); reflexivity. Qed.

(** C4: on a client whose socket carries the [disconnect] listener of
    [_setupEventHandlers], next to any callbacks given to [on], a call of
    [disconnect()] sets the manual flag and stops on a new promise; the
    [disconnect] event that follows clears the flag, drops the socket,
    fulfils that promise, and sets no timeout: the delays set so far, the
    attempt counter and [connecting] are as before the call. *)
Theorem manual_disconnect_sets_no_retry w sid s us1 us2 reason :
  socket w = Some sid ->
  sockets w !! sid = Some s ->
  filter (fun r => reg_event r = "disconnect"%string) (handlers s)
    = us1 ++ disconnect_registration :: us2 ->
  Forall (fun r => is_user r = true) us1 ->
  Forall (fun r => is_user r = true) us2 ->
  let called := disconnect w in
  let w1 := state_of called in
  let w2 := transport_disconnect sid reason w1 in
  awaits called = Some (AwaitPromise (length (promises w)))
  /\ manualDisconnect w1 = true
  /\ lifecycle w2 =
     (false, None, connecting w, reconnectionAttempts w,
      promises w ++ [Fulfilled], delays (trace w))
  /\ resume called Resolved w2 = Return tt w2.
Proof.
  intros Hsock Hs Hregs Hus1 Hus2. unfold SocketId, PromiseId in *.
  unfold disconnect. rewrite Hsock.
  unfold new_promise. cbn zeta.
  set (w0 := _stopHeartbeat (set_manualDisconnect true w)).
  assert (A0 : lifecycle w0 =
               (true, Some sid, connecting w, reconnectionAttempts w,
                promises w, delays (trace w))).
  { subst w0. rewrite stopHeartbeat_lifecycle. unfold lifecycle. fields.
    rewrite Hsock. reflexivity. }
  assert (S0 : sockets w0 = sockets w).
  { subst w0. rewrite stopHeartbeat_sockets. reflexivity. }
  clearbody w0. unfold lifecycle in A0.
  injection A0 as Hm0 Hk0 Hc0 Ha0 Hp0 Hd0.
  cbn [awaits state_of resume await_promise awaited_of].
  rewrite Hp0.
  split; [reflexivity|]. split; [exact Hm0|]. split; [|reflexivity].
  unfold transport_disconnect.
  set (once := {| reg_event := "disconnect"%string; reg_once := true;
                  reg_handler := OnDisconnected (length (promises w)) |}).
  set (w1 := set_connected false sid _).
  assert (S1 : sockets w1 !! sid =
               Some {| url := url s; connected := false;
                       handlers := handlers s ++ [once] |}).
  { subst w1. unfold set_connected, socket_disconnect, set_connected,
      socket_once. fields. rewrite !list_lookup_alter_eq, S0, Hs. reflexivity. }
  assert (A1 : lifecycle w1 =
               (true, Some sid, connecting w, reconnectionAttempts w,
                promises w ++ [Pending], delays (trace w))).
  { subst w1. unfold lifecycle, set_connected, socket_disconnect,
      set_connected, socket_once. fields.
    rewrite ?Hm0, ?Hk0, ?Hc0, ?Ha0, ?Hp0, ?Hd0. reflexivity. }
  clearbody w1.
  rewrite (deliver_unfold _ _ _ _ _ S1). cbn [handlers].
  rewrite filter_app, Hregs.
  replace (filter (fun r => reg_event r = "disconnect"%string) [once])
    with [once] by reflexivity.
  rewrite foldl_app. cbn [foldl]. rewrite foldl_app. cbn [foldl].
  set (wa := foldl _ w1 us1).
  assert (Aa : lifecycle wa = lifecycle w1) by (apply users_steps; exact Hus1).
  rewrite A1 in Aa. clearbody wa.
  set (wb := deliver_step sid reason wa disconnect_registration).
  assert (Ab : lifecycle wb =
               (false, None, connecting w, reconnectionAttempts w,
                promises w ++ [Pending], delays (trace w))).
  { subst wb. unfold lifecycle in Aa. injection Aa as Hm Hk Hc Ha Hp Hd.
    rewrite auto_step by exact Hm. rewrite Hc, Ha, Hp, Hd. reflexivity. }
  clearbody wb.
  set (wc := foldl _ wb us2).
  assert (Ac : lifecycle wc = lifecycle wb) by (apply users_steps; exact Hus2).
  rewrite Ab in Ac. clearbody wc.
  subst once. rewrite once_step. unfold lifecycle in Ac.
  injection Ac as Hm Hk Hc Ha Hp Hd.
  rewrite Hm, Hc, Ha, Hp, Hd.
  rewrite lookup_app_r by reflexivity. rewrite Nat.sub_diag. cbn [lookup list_lookup].
  rewrite insert_app_r_alt by reflexivity. rewrite Nat.sub_diag. reflexivity.
Qed.

(** For contrast, the same event on the same client without a call of
    [disconnect()] sets the first retry. *)
Example abnormal_disconnect_sets_retry :
  delays (trace (transport_disconnect 0%nat (VStr "transport close") connected_client))
  = [1000].
Proof. vm_compute. reflexivity. Qed.

Lemma manual_disconnect_sets_no_retry_witness :
  let called := disconnect connected_client in
  let w1 := state_of called in
  let w2 := transport_disconnect 0%nat (VStr "io client disconnect") w1 in
  awaits called = Some (AwaitPromise (length (promises connected_client)))
  /\ manualDisconnect w1 = true
  /\ lifecycle w2 =
     (false, None, connecting connected_client,
      reconnectionAttempts connected_client,
      promises connected_client ++ [Fulfilled],
      delays (trace connected_client))
  /\ resume called Resolved w2 = Return tt w2.
Proof.
  apply (manual_disconnect_sets_no_retry connected_client 0%nat
           connected_socket []
           [{| reg_event := "disconnect"; reg_once := false;
               reg_handler := UserCallback 9%nat |}]
           (VStr "io client disconnect")).
  - vm_compute. reflexivity.
  - vm_compute. reflexivity.
  - vm_compute. reflexivity.
  - constructor.
  - repeat constructor.
Defined.

End Disconnect.

(** ** What [connect] leaves behind *)

Section ConnectDrops.

Import PBUI.

Lemma startHeartbeat_lifecycle w : lifecycle (_startHeartbeat w) = lifecycle w.
Proof.
  unfold _startHeartbeat. destruct (heartbeatInterval w) eqn:E; [reflexivity|].
  unfold _stopHeartbeat. rewrite E. unfold lifecycle. fields.
  rewrite delays_app. cbn [delays omap]. rewrite app_nil_r. reflexivity.
Qed.

Lemma startHeartbeat_sockets w : sockets (_startHeartbeat w) = sockets w.
Proof.
  unfold _startHeartbeat. destruct (heartbeatInterval w) eqn:E; [reflexivity|].
  unfold _stopHeartbeat. rewrite E. reflexivity.
Qed.

Lemma startHeartbeat_connectionPromise w :
  connectionPromise (_startHeartbeat w) = connectionPromise w.
Proof.
  unfold _startHeartbeat. destruct (heartbeatInterval w) eqn:E; [reflexivity|].
  unfold _stopHeartbeat. rewrite E. reflexivity.
Qed.

Lemma stopHeartbeat_connectionPromise w :
  connectionPromise (_stopHeartbeat w) = connectionPromise w.
Proof. unfold _stopHeartbeat. destruct (heartbeatInterval w); reflexivity. Qed.

Lemma cleanupSocket_connectionPromise w :
  connectionPromise (_cleanupSocket w) = connectionPromise w.
Proof.
  unfold _cleanupSocket. rewrite stopHeartbeat_connectionPromise.
  destruct (socket w); reflexivity.
Qed.

(** [_cleanupSocket] leaves its socket closed and without listener. *)
Lemma cleanupSocket_sockets w sid :
  socket w = Some sid ->
  sockets (_cleanupSocket w) =
  alter (fun s => {| url := url s; connected := false; handlers := [] |}) sid
    (sockets w).
Proof.
  intros Hk. unfold _cleanupSocket. rewrite stopHeartbeat_sockets, Hk.
  unfold socket_disconnect, set_connected, socket_off. fields.
  rewrite list_alter_alter_eq. reflexivity.
Qed.

Lemma setApiBase_lifecycle URL_parses url w :
  lifecycle (setApiBase URL_parses url w) = lifecycle w
  /\ sockets (setApiBase URL_parses url w) = sockets w.
Proof.
  unfold setApiBase.
  assert (He : forall m, lifecycle (emit [Console Log m] w) = lifecycle w).
  { intros m. unfold lifecycle. fields. rewrite delays_app. cbn [delays omap].
    rewrite app_nil_r. reflexivity. }
  assert (He' : forall m, lifecycle (emit [Console Err m] w) = lifecycle w).
  { intros m. unfold lifecycle. fields. rewrite delays_app. cbn [delays omap].
    rewrite app_nil_r. reflexivity. }
  destruct url as [u|]; [|split; [apply He'|reflexivity]].
  destruct (String.eqb u ""); [split; [apply He'|reflexivity]|].
  destruct (negb (URL_parses u)); [split; [apply He|reflexivity]|].
  destruct (endsWith u "/"); [split; [apply He|reflexivity]|].
  destruct (assign (apiUrl w) u); split; try apply He; reflexivity.
Qed.

(** An event raised on a socket without listener changes nothing. *)
Lemma deliver_no_listener sid event payload w s :
  sockets w !! sid = Some s -> handlers s = [] ->
  deliver sid event payload w = w.
Proof.
  intros Hs Hh. rewrite (deliver_unfold _ _ _ _ _ Hs), Hh. reflexivity.
Qed.

(** Whatever its arguments, [connect] called on a client without socket
    stops once, and when it goes on it makes a socket and a promise, drops
    the socket again with no listener left on it, and returns the promise
    still pending; it sets no timeout, and no event raised on that socket
    is heard. *)
Lemma connect_drops_its_socket URL_parses url options w :
  socket w = None ->
  let called := connect URL_parses url options w in
  let resumed := resume called Resolved (state_of called) in
  let w2 := state_of resumed in
  awaits called = Some AwaitValue
  /\ awaits resumed = Some (AwaitPromise (length (promises w)))
  /\ lifecycle w2 =
     (manualDisconnect w, None, true, reconnectionAttempts w,
      promises w ++ [Pending], delays (trace w))
  /\ (exists u,
       sockets w2 =
       sockets w ++ [{| url := u; connected := false; handlers := [] |}])
  /\ (forall event payload,
       deliver (length (sockets w)) event payload w2 = w2).
Proof.
  intros Hsock. unfold connect.
  set (w0 := match url with
             | Some u => if String.eqb u "" then w else setApiBase URL_parses url w
             | None => w
             end).
  assert (H0 : lifecycle w0 = lifecycle w /\ sockets w0 = sockets w).
  { subst w0. destruct url as [u|]; [|split; reflexivity].
    destruct (String.eqb u ""); [split; reflexivity|].
    apply setApiBase_lifecycle. }
  destruct H0 as [L0 S0]. clearbody w0.
  unfold lifecycle in L0. injection L0 as Hm0 Hk0 Hc0 Ha0 Hp0 Hd0.
  unfold _disconnectIfConnected. fields. rewrite Hk0, Hsock.
  cbn [try_await_call awaits state_of resume].
  split; [reflexivity|].
  unfold _establishConnection, new_promise, io. fields.
  rewrite Hp0, S0.
  set (p := length (promises w)). set (sid := length (sockets w)).
  set (we := set_connectionPromise _ _).
  assert (Le : lifecycle we =
               (manualDisconnect w, Some sid, true, reconnectionAttempts w,
                promises w ++ [Pending], delays (trace w))).
  { subst we. unfold lifecycle, socket_once. fields.
    rewrite Hm0, Ha0, Hd0. reflexivity. }
  assert (Se : sockets we =
               sockets w ++
               [{| url := value (apiUrl w0); connected := false;
                   handlers :=
                     [{| reg_event := "connect"; reg_once := true;
                         reg_handler := OnConnect p |};
                      {| reg_event := "connect_error"; reg_once := true;
                         reg_handler := OnConnectError p |}] |}]).
  { subst we. unfold socket_once. fields. subst sid.
    rewrite !alter_app_r_alt by reflexivity. rewrite Nat.sub_diag.
    reflexivity. }
  assert (Pe : connectionPromise we = Some p) by reflexivity.
  clearbody we.
  set (ws := _startHeartbeat we).
  assert (Ls : lifecycle ws = lifecycle we) by apply startHeartbeat_lifecycle.
  assert (Ss : sockets ws = sockets we) by apply startHeartbeat_sockets.
  assert (Ps : connectionPromise ws = Some p).
  { subst ws. rewrite startHeartbeat_connectionPromise. exact Pe. }
  rewrite Le in Ls. rewrite Se in Ss. clearbody ws.
  unfold lifecycle in Ls. injection Ls as Hm Hk Hc Ha Hp Hd.
  set (wc := _cleanupSocket ws).
  assert (Lc : lifecycle wc =
               (manualDisconnect w, None, true, reconnectionAttempts w,
                promises w ++ [Pending], delays (trace w))).
  { subst wc. rewrite cleanupSocket_lifecycle, Hm, Hc, Ha, Hp, Hd. reflexivity. }
  assert (Sc : sockets wc =
               sockets w ++
               [{| url := value (apiUrl w0); connected := false;
                   handlers := [] |}]).
  { subst wc. rewrite (cleanupSocket_sockets ws sid Hk), Ss. subst sid.
    rewrite !alter_app_r_alt by reflexivity. rewrite Nat.sub_diag.
    reflexivity. }
  assert (Pc : connectionPromise wc = Some p).
  { subst wc. rewrite cleanupSocket_connectionPromise. exact Ps. }
  clearbody wc.
  assert (Hkc : socket wc = None).
  { unfold lifecycle in Lc. congruence. }
  unfold _setupEventHandlers. rewrite Hkc, Pc.
  cbn [await_promise awaited_of awaits state_of].
  split; [reflexivity|]. split; [exact Lc|].
  split; [eexists; exact Sc|].
  intros event payload.
  apply (deliver_no_listener _ _ _ _
           {| url := value (apiUrl w0); connected := false; handlers := [] |});
    [|reflexivity].
  rewrite Sc. subst sid. rewrite lookup_app_r by reflexivity.
  rewrite Nat.sub_diag. reflexivity.
Qed.

End ConnectDrops.

(** ** Where [connect] first stops *)

Section ConnectFirstStop.

Import PBUI.

Lemma setApiBase_connectionPromise URL_parses url w :
  connectionPromise (setApiBase URL_parses url w) = connectionPromise w.
Proof.
  unfold setApiBase. destruct url as [u|]; [|reflexivity].
  destruct (String.eqb u ""); [reflexivity|].
  destruct (negb (URL_parses u)); [reflexivity|].
  destruct (endsWith u "/"); [reflexivity|].
  destruct (assign (apiUrl w) u); reflexivity.
Qed.

Lemma stopHeartbeat_connecting w : connecting (_stopHeartbeat w) = connecting w.
Proof. unfold _stopHeartbeat. destruct (heartbeatInterval w); reflexivity. Qed.

(** At its first [await], whatever the client and the arguments, [connect]
    has set [connecting] and has not yet touched [connectionPromise]: an
    operation called there waits on the promise of an earlier attempt, or
    on none. *)
Lemma connect_first_stop URL_parses url options w :
  let called := connect URL_parses url options w in
  awaits called <> None
  /\ connecting (state_of called) = true
  /\ connectionPromise (state_of called) = connectionPromise w.
Proof.
  unfold connect.
  set (w0 := match url with
             | Some u => if String.eqb u "" then w else setApiBase URL_parses url w
             | None => w
             end).
  assert (P0 : connectionPromise w0 = connectionPromise w).
  { subst w0. destruct url as [u|]; [|reflexivity].
    destruct (String.eqb u ""); [reflexivity|].
    apply setApiBase_connectionPromise. }
  clearbody w0. cbn zeta. unfold _disconnectIfConnected. fields.
  destruct (socket w0) as [sid|] eqn:Hk.
  - unfold disconnect. fields. rewrite Hk. unfold new_promise. cbn zeta.
    cbn [await_promise awaited_of await_call try_await_call awaits state_of].
    split; [discriminate|].
    unfold socket_disconnect, set_connected, socket_once. fields.
    rewrite stopHeartbeat_connecting, stopHeartbeat_connectionPromise.
    fields. split; [reflexivity|exact P0].
  - cbn [try_await_call awaits state_of]. fields.
    split; [discriminate|]. split; [reflexivity|exact P0].
Qed.

End ConnectFirstStop.

(** ** More on deep equality *)

Section DeepEqualityRelation.

Lemma num_strict_eq_refl n : num_strict_eq n n = negb (isNaN (VNum n)).
Proof.
  destruct n as [| | |q]; try reflexivity. cbn.
  apply Qeq_bool_iff. reflexivity.
Qed.

Lemma num_strict_eq_sym a b : num_strict_eq a b = num_strict_eq b a.
Proof.
  destruct a as [| | |p], b as [| | |q]; try reflexivity. cbn.
  destruct (Qeq_bool p q) eqn:E.
  - symmetry. apply Qeq_bool_iff. symmetry. apply Qeq_bool_iff. exact E.
  - destruct (Qeq_bool q p) eqn:E'; [|reflexivity].
    apply Qeq_bool_iff in E'. symmetry in E'. apply Qeq_bool_iff in E'. congruence.
Qed.

Lemma strict_eq_sym a b : strict_eq a b = strict_eq b a.
Proof.
  destruct a as [| |x|n|x|x|r k ps], b as [| |y|m|y|y|r' k' ps'];
    try reflexivity; cbn.
  - destruct x, y; reflexivity.
  - apply num_strict_eq_sym.
  - apply String.eqb_sym.
  - apply Nat.eqb_sym.
  - apply Nat.eqb_sym.
Qed.

(** X1: a value is deep-equal to itself unless it is [NaN]; an object is,
    even one that holds [NaN], since the comparison stops at the reference. *)
Theorem valueEqual_reflexive v :
  funcs._valueEqual v v = negb (isNaN v).
Proof.
  destruct v as [| |x|n|x|x|r k ps];
    try (rewrite valueEqual_primitive by reflexivity); try reflexivity.
  - cbn. destruct x; reflexivity.
  - apply num_strict_eq_refl.
  - cbn. apply String.eqb_refl.
  - cbn. apply Nat.eqb_refl.
  - apply valueEqual_same_reference.
Qed.

Lemma includes_In ks key : includes ks key = true <-> In key ks.
Proof.
  unfold includes. rewrite existsb_exists. split.
  - intros (x & Hin & E). apply String.eqb_eq in E. subst. exact Hin.
  - intros Hin. exists key. split; [exact Hin|apply String.eqb_refl].
Qed.

Lemma lookup_prop_NoDup key x ps :
  NoDup (map fst ps) -> In (key, x) ps -> lookup_prop key ps = x.
Proof.
  induction ps as [|[k y] ps IH]; cbn; intros Hnd Hin; [contradiction|].
  apply NoDup_cons in Hnd as [Hk Hnd].
  destruct Hin as [E|Hin].
  - injection E as -> ->. rewrite String.eqb_refl. reflexivity.
  - destruct (String.eqb_spec k key) as [->|_]; [|auto].
    exfalso. apply Hk. apply list_elem_of_In.
    apply in_map_iff. exists (key, x). auto.
Qed.

Lemma valueEqual_sym_true a : forall b,
  DistinctKeys a -> DistinctKeys b ->
  funcs._valueEqual a b = true -> funcs._valueEqual b a = true.
Proof.
  induction a as [| |x|n|x|x|r k ps IH] using Value_nested_ind; intros b Ha Hb Hab.
  1-6: rewrite valueEqual_primitive in Hab by reflexivity;
       destruct b as [| |y|m|y|y|r' k' ps']; try discriminate Hab;
       rewrite valueEqual_primitive by reflexivity;
       (etransitivity; [apply strict_eq_sym|exact Hab]).
  destruct (valueEqual_object_left _ _ _ _ Hab) as (r' & k' & ps' & ->).
  rewrite valueEqual_objects in Hab |- *.
  rewrite (Nat.eqb_sym r' r).
  destruct (Nat.eqb r r'); [reflexivity|]. cbn [orb] in Hab |- *.
  apply andb_true_iff in Hab as [Hlen Hall].
  apply Nat.eqb_eq in Hlen. apply andb_true_iff. split; [apply Nat.eqb_eq; congruence|].
  inversion Ha as [v Hv|? ? ? Hnd Hsub]; [exfalso; eapply Hv; reflexivity|subst].
  inversion Hb as [v Hv|? ? ? Hnd' Hsub']; [exfalso; eapply Hv; reflexivity|subst].
  rewrite forallb_forall in Hall. rewrite Forall_forall in IH, Hsub, Hsub'.
  assert (Hincl : incl (map fst ps') (map fst ps)).
  { apply NoDup_length_incl;
      [apply NoDup_ListNoDup; exact Hnd|rewrite !length_map; lia|].
    intros key Hin. apply in_map_iff in Hin as ([key' x] & E & Hin). cbn in E. subst key'.
    specialize (Hall _ Hin). cbn [fst snd] in Hall.
    apply andb_true_iff in Hall as [Hk _]. apply includes_In. exact Hk. }
  apply forallb_forall. intros [key y] Hin. cbn [fst snd].
  assert (Hkey : In key (map fst ps)).
  { apply Hincl. apply in_map_iff. exists (key, y). auto. }
  apply andb_true_iff. split; [apply includes_In; exact Hkey|].
  pose proof (lookup_prop_In key ps (proj2 (includes_In _ _) Hkey)) as Hx.
  specialize (Hall _ Hx). cbn [fst snd] in Hall.
  apply andb_true_iff in Hall as [_ Heq].
  rewrite (lookup_prop_NoDup key y ps' Hnd' Hin) in Heq.
  apply (IH _ (proj2 (list_elem_of_In _ _) Hx)); [| |exact Heq].
  - exact (Hsub _ (proj2 (list_elem_of_In _ _) Hx)).
  - exact (Hsub' _ (proj2 (list_elem_of_In _ _) Hin)).
Qed.

(** X2: on objects whose keys are distinct, deep equality does not depend
    on the side an argument is given on. *)
Theorem valueEqual_symmetric a b :
  DistinctKeys a -> DistinctKeys b ->
  funcs._valueEqual a b = funcs._valueEqual b a.
Proof.
  intros Ha Hb.
  destruct (funcs._valueEqual a b) eqn:E1, (funcs._valueEqual b a) eqn:E2;
    try reflexivity.
  - rewrite (valueEqual_sym_true a b Ha Hb E1) in E2. discriminate.
  - rewrite (valueEqual_sym_true b a Hb Ha E2) in E1. discriminate.
Qed.

Lemma object_0_1_distinct : DistinctKeys object_0_1.
Proof.
  apply distinct_object.
  - apply NoDup_ListNoDup. cbn.
    constructor; [cbn; intuition discriminate|].
    constructor; [cbn; intuition|constructor].
  - constructor; [apply distinct_primitive; discriminate|].
    constructor; [apply distinct_primitive; discriminate|constructor].
Qed.

Lemma object_1_0_distinct : DistinctKeys object_1_0.
Proof.
  apply distinct_object.
  - apply NoDup_ListNoDup. cbn.
    constructor; [cbn; intuition discriminate|].
    constructor; [cbn; intuition|constructor].
  - constructor; [apply distinct_primitive; discriminate|].
    constructor; [apply distinct_primitive; discriminate|constructor].
Qed.

Lemma valueEqual_symmetric_witness :
  funcs._valueEqual object_0_1 object_1_0 = funcs._valueEqual object_1_0 object_0_1.
Proof.
  apply (valueEqual_symmetric object_0_1 object_1_0).
  - exact object_0_1_distinct.
  - exact object_1_0_distinct.
Defined.

(** X3: on values of one heap, where the same reference is the same object,
    deep equality is transitive. *)
Theorem valueEqual_transitive a b c :
  consistent [a; b; c] ->
  funcs._valueEqual a b = true -> funcs._valueEqual b c = true ->
  funcs._valueEqual a c = true.
Proof. apply valueEqual_trans. Qed.

Lemma three_objects_consistent : consistent [array_1_2; object_0_1; object_1_0].
Proof.
  intros u u' Hu Hu' E. cbn in Hu, Hu'.
  destruct Hu as [<-|[<-|[<-|[]]]], Hu' as [<-|[<-|[<-|[]]]];
    try reflexivity; discriminate E.
Qed.

Lemma valueEqual_transitive_witness :
  funcs._valueEqual array_1_2 object_1_0 = true.
Proof.
  apply (valueEqual_transitive array_1_2 object_0_1 object_1_0).
  - exact three_objects_consistent.
  - reflexivity.
  - reflexivity.
Defined.

End DeepEqualityRelation.

(** ** What deep equality looks at *)

Section DeepEqualityByKeys.

Import PBUIState.

(** Two objects at different references are equal exactly when they have
    the same keys and, under each key, equal values. *)
Lemma valueEqual_by_keys r1 k1 ps1 r2 k2 ps2 :
  r1 <> r2 -> NoDup (map fst ps1) -> NoDup (map fst ps2) ->
  (funcs._valueEqual (VObj r1 k1 ps1) (VObj r2 k2 ps2) = true <->
   (forall key, key ∈ map fst ps1 <-> key ∈ map fst ps2)
   /\ (forall key, key ∈ map fst ps1 ->
         funcs._valueEqual (lookup_prop key ps1) (lookup_prop key ps2) = true)).
Proof.
  intros Hr Hnd1 Hnd2. rewrite valueEqual_objects.
  apply Nat.eqb_neq in Hr. rewrite Hr. cbn [orb].
  rewrite andb_true_iff, Nat.eqb_eq, forallb_forall. split.
  - intros [Hlen Hall].
    assert (H12 : incl (map fst ps1) (map fst ps2)).
    { intros key Hin. apply in_map_iff in Hin as ([key' x] & E & Hin).
      cbn in E. subst key'. specialize (Hall _ Hin). cbn [fst snd] in Hall.
      apply andb_true_iff in Hall as [Hk _]. apply includes_In. exact Hk. }
    assert (H21 : incl (map fst ps2) (map fst ps1)).
    { apply NoDup_length_incl;
        [apply NoDup_ListNoDup; exact Hnd1|rewrite !length_map; lia|exact H12]. }
    split.
    + intros key. rewrite !list_elem_of_In. split; [apply H12|apply H21].
    + intros key Hin. apply list_elem_of_In, in_map_iff in Hin as ([key' x] & E & Hin).
      cbn in E. subst key'. specialize (Hall _ Hin). cbn [fst snd] in Hall.
      apply andb_true_iff in Hall as [_ Hx].
      rewrite (lookup_prop_NoDup key x ps1 Hnd1 Hin). exact Hx.
  - intros [Hkeys Hvals]. split.
    + rewrite <- (length_map fst ps1), <- (length_map fst ps2).
      apply Permutation_length. apply NoDup_Permutation; assumption.
    + intros [key x] Hin. cbn [fst snd].
      assert (Hk : key ∈ map fst ps1).
      { apply list_elem_of_In, in_map_iff. exists (key, x). auto. }
      apply andb_true_iff. split.
      * apply includes_In, list_elem_of_In, Hkeys. exact Hk.
      * rewrite <- (lookup_prop_NoDup key x ps1 Hnd1 Hin). apply Hvals. exact Hk.
Qed.

(** C10: the array [[1, 2]] and the object [{"0": 1, "1": 2}] are different
    references of different kinds, and [_valueEqual] reports them equal.  It
    does so because, on two objects with different references, it looks at
    nothing but the keys and, key by key, the values: two such objects are
    equal exactly when they have the same keys and equal values under each
    key, whatever their kinds, and an object that differs in one value or
    in one key is told apart.  In the state cache, an update of a key that
    holds the array with the object calls no listener and leaves the array
    in place when the comparison is applied, where an update with an object
    that differs in one value is stored and announced; as the code runs,
    [_internalUpdate] throws before it compares, and calls no listener
    either. *)
Theorem valueEqual_array_object :
  strict_eq array_1_2 object_0_1 = false
  /\ (exists r1 ps1 r2 ps2,
        array_1_2 = VObj r1 ArrayObject ps1 /\ object_0_1 = VObj r2 PlainObject ps2)
  /\ funcs._valueEqual array_1_2 object_0_1 = true
  /\ (forall r1 k1 ps1 r2 k2 ps2,
        r1 <> r2 -> NoDup (map fst ps1) -> NoDup (map fst ps2) ->
        (funcs._valueEqual (VObj r1 k1 ps1) (VObj r2 k2 ps2) = true <->
         (forall key, key ∈ map fst ps1 <-> key ∈ map fst ps2)
         /\ (forall key, key ∈ map fst ps1 ->
               funcs._valueEqual (lookup_prop key ps1) (lookup_prop key ps2) = true)))
  /\ (forall r1 k1 k1' ps1 r2 k2 k2' ps2,
        funcs._valueEqual (VObj r1 k1 ps1) (VObj r2 k2 ps2)
        = funcs._valueEqual (VObj r1 k1' ps1) (VObj r2 k2' ps2))
  /\ funcs._valueEqual array_1_2 object_other_value = false
  /\ funcs._valueEqual array_1_2 object_other_key = false
  /\ (forall key ls st,
        key <> "__proto__"%string ->
        let st0 := {| data := <[key := array_1_2]> (data st);
                      listeners := <[key := ls]> (listeners st);
                      trace := trace st |} in
        read st0 key = array_1_2
        /\ _internalUpdate_with funcs._valueEqual key object_0_1 st0 = (inr tt, st0)
        /\ (let r := _internalUpdate_with funcs._valueEqual key object_other_value st0 in
            fst r = inr tt
            /\ read (snd r) key = object_other_value
            /\ trace (snd r) =
               trace st ++ map (fun f => Invoke f object_other_value) ls)
        /\ _internalUpdate key object_0_1 st0 =
           (inl (TypeError "funcs._valueEqual is not a function"), st0)).
Proof.
  split; [reflexivity|]. split; [eexists _, _, _, _; split; reflexivity|].
  split; [reflexivity|]. split; [apply valueEqual_by_keys|].
  split; [intros; rewrite !valueEqual_objects; reflexivity|].
  split; [reflexivity|]. split; [reflexivity|].
  intros key ls st Hkey st0.
  assert (Hr : read st0 key = array_1_2).
  { unfold read, st0. cbn [data]. rewrite lookup_insert_eq. reflexivity. }
  assert (Hp : property (listeners st0) key = Own ls).
  { apply property_own. unfold st0. cbn [listeners]. apply lookup_insert_eq. }
  split; [exact Hr|]. split.
  { apply internalUpdate_with_equal. rewrite Hr. reflexivity. }
  split; [|reflexivity].
  assert (Hd : funcs._valueEqual (read st0 key) object_other_value = false).
  { rewrite Hr. reflexivity. }
  cbn zeta. split_all.
  - unfold _internalUpdate_with. rewrite Hd. cbn [negb set_data listeners].
    fold (listeners st0). rewrite Hp. reflexivity.
  - apply read_stored. exact Hd.
  - destruct (internalUpdate_with_differs _ key object_other_value st0 Hkey Hd)
      as (_ & _ & Ht & _).
    cbn zeta in Ht. rewrite Ht. unfold st0. cbn [trace listeners].
    rewrite lookup_insert_eq. reflexivity.
Qed.

End DeepEqualityByKeys.

(** ** The methods of the state cache *)

Section StateCacheMethods.

Import PBUIState PBUIStateAPI.

Lemma silent_app l1 l2 : silent (l1 ++ l2) = silent l1 ++ silent l2.
Proof. unfold silent. apply omap_app. Qed.

Lemma requests_app l1 l2 : requests (l1 ++ l2) = requests l1 ++ requests l2.
Proof. unfold requests. apply omap_app. Qed.

Lemma after_call fetchData c st :
  data (after fetchData st c) = data st
  /\ listeners (after fetchData st c) = listeners st
  /\ silent (trace (after fetchData st c)) = silent (trace st).
Proof.
  destruct c as [key v|key force|songStates flowStep|]; cbn [after].
  - split_all; reflexivity.
  - unfold get. cbn zeta.
    destruct (String.eqb _ "state"); [|split_all; reflexivity].
    destruct (falsy _ || _); [|split_all; reflexivity].
    cbn. rewrite silent_app, app_nil_r. split_all; reflexivity.
  - unfold update. destruct (validate songStates flowStep); split_all; reflexivity.
  - cbn. rewrite silent_app, app_nil_r. split_all; reflexivity.
Qed.

Lemma after_calls fetchData calls : forall st,
  data (foldl (after fetchData) st calls) = data st
  /\ listeners (foldl (after fetchData) st calls) = listeners st
  /\ silent (trace (foldl (after fetchData) st calls)) = silent (trace st).
Proof.
  induction calls as [|c calls IH]; intros st; cbn [foldl]; [split_all; reflexivity|].
  destruct (IH (after fetchData st c)) as (Hd & Hl & Ht).
  destruct (after_call fetchData c st) as (Hd' & Hl' & Ht').
  split_all; congruence.
Qed.

(** X4: whatever methods of the state cache are called, in whatever order
    and with whatever arguments and server, the stored values and the
    listeners stay as they were, and nothing is done but writing to the
    console: no request is made and no listener is called. *)
Theorem cache_never_changes fetchData calls st :
  let st' := foldl (after fetchData) st calls in
  data st' = data st
  /\ listeners st' = listeners st
  /\ silent (trace st') = silent (trace st).
Proof. apply after_calls. Qed.

(** X5: on a cache made by the constructor, whatever was called before,
    [get] of the key [state] (the default) fails with a [TypeError], and
    [get] of any other key returns what a new object has under that key:
    the member that every object inherits under that name, the function
    [Object] for [constructor], and [undefined] for any other key. *)
Theorem get_on_new_cache fetchData calls key forceFetch :
  let st := foldl (after fetchData) constructor calls in
  fst (get fetchData key forceFetch st) =
  if String.eqb (default "state"%string key) "state"
  then inl (TypeError "funcs._fetchData is not a function")
  else inr (lookup_prop (default "state"%string key) Object_prototype).
Proof.
  cbn zeta. destruct (after_calls fetchData calls constructor) as (Hd & _ & _).
  set (st := foldl _ _ _) in *. clearbody st.
  assert (Hr : forall k, read st k = lookup_prop k Object_prototype).
  { intros k. unfold read. rewrite Hd. cbn [data constructor].
    rewrite lookup_empty. reflexivity. }
  unfold get. cbn zeta. rewrite Hr.
  destruct (String.eqb_spec (default "state"%string key) "state") as [->|_];
    reflexivity.
Qed.

Example get_inherited_and_unknown :
  fst (get acknowledging_server (Some "constructor"%string) None constructor) =
    inr (VFun 101)
  /\ fst (get acknowledging_server (Some "score"%string) None constructor) =
    inr VUndefined.
Proof. split; vm_compute; reflexivity. Qed.

End StateCacheMethods.

(** ** The tournament operations *)

Section TournamentOperations.

Import Tournaments.

Lemma all_chars_weaken (p q : Ascii.ascii -> bool) s :
  (forall c, p c = true -> q c = true) ->
  all_chars p s = true -> all_chars q s = true.
Proof.
  intros Hpq. induction s as [|c s IH]; cbn; [reflexivity|].
  intros H. apply andb_true_iff in H as [Hc Hs].
  rewrite (Hpq c Hc), (IH Hs). reflexivity.
Qed.

(** A string of digits is a slug. *)
Lemma numeric_is_slug s :
  numericRegex_test s = true -> slugRegex_test s = true.
Proof.
  unfold numericRegex_test, slugRegex_test, matches_plus. intros H.
  apply andb_true_iff in H as [Hne Hall]. rewrite Hne. cbn [andb].
  revert Hall. apply all_chars_weaken. intros c Hc.
  unfold is_slug_char. rewrite Hc, orb_true_r. reflexivity.
Qed.

(** X6: [get] never asks for a tournament by its number.  The branch of
    line 414 needs an id that is all digits and is not a slug, and there is
    none; an id that is all digits is looked up as a slug. *)
Theorem route_never_by_id tournamentId params :
  (forall endpoint, route tournamentId params <> ById endpoint)
  /\ (numericRegex_test tournamentId = true ->
      route tournamentId params =
      BySlug ("/getTournaments/slug/" +:+ tournamentId +:+ query params)).
Proof.
  unfold route. split.
  - intros endpoint.
    destruct (String.eqb tournamentId ""); [destruct (String.eqb params ""); discriminate|].
    destruct (numericRegex_test tournamentId) eqn:Hn.
    + rewrite (numeric_is_slug _ Hn). cbn. discriminate.
    + rewrite andb_false_r. destruct (slugRegex_test tournamentId); discriminate.
  - intros Hn. pose proof (numeric_is_slug _ Hn) as Hs.
    unfold numericRegex_test, matches_plus in Hn.
    apply andb_true_iff in Hn as [Hne _]. apply negb_true_iff in Hne.
    rewrite Hne, Hs. reflexivity.
Qed.

(** X7: [get] makes no request whatever its arguments and the server.  It
    returns [undefined] with a console error when parameters come without
    an id, fails with the invalid-id error when the id is given and is not
    a slug, and fails with a [TypeError] in every other case. *)
Theorem tournaments_get_outcomes fetchData json tournamentId params logging tr :
  let r := get fetchData json tournamentId params logging tr in
  requests (snd r) = requests tr
  /\ r =
     if String.eqb tournamentId "" then
       if String.eqb params ""
       then (inl (TypeError "funcs._fetchData is not a function"), tr)
       else (inr VUndefined,
             tr ++ [Console Err "[PBUI] You cannot specify parameters without specifying tournamentId"])
     else if slugRegex_test tournamentId
     then (inl (TypeError "funcs._fetchData is not a function"), tr)
     else (inl (Error "[PBUI] tournamentId provided is not a valid numerical id or slug"), tr).
Proof.
  cbn zeta. unfold get, route.
  destruct (String.eqb tournamentId "").
  - destruct (String.eqb params ""); cbn; [split; reflexivity|].
    rewrite requests_app, app_nil_r. split; reflexivity.
  - destruct (numericRegex_test tournamentId) eqn:Hn.
    + rewrite (numeric_is_slug _ Hn). cbn. split; reflexivity.
    + rewrite andb_false_r. destruct (slugRegex_test tournamentId); split; reflexivity.
Qed.

(** X8: [getPool] makes no request.  It returns [undefined] with a console
    error when the id is falsy (the number 0 and the empty string included)
    or its text is not all digits, and fails with a [TypeError] otherwise. *)
Theorem getPool_outcomes fetchData json ToString poolId tr :
  let r := getPool fetchData json ToString poolId tr in
  requests (snd r) = requests tr
  /\ (falsy poolId = true ->
      r = (inr VUndefined, tr ++ [Console Err "[PBUI] Pool ID not provided"]))
  /\ (falsy poolId = false ->
      numericRegex_test (text_of ToString poolId) = false ->
      r = (inr VUndefined, tr ++ [Console Err "[PBUI] Pool ID must only contain numbers"]))
  /\ (falsy poolId = false ->
      numericRegex_test (text_of ToString poolId) = true ->
      r = (inl (TypeError "funcs._fetchData is not a function"), tr)).
Proof.
  cbn zeta. unfold getPool.
  destruct (falsy poolId).
  - cbn. rewrite requests_app, app_nil_r. split_all; try discriminate; reflexivity.
  - destruct (numericRegex_test _); cbn; rewrite ?requests_app, ?app_nil_r;
      split_all; try discriminate; reflexivity.
Qed.

Lemma create_request_fails fetchData json endpoint body what lvl tr :
  create_request fetchData json endpoint body what lvl tr =
  (inl (TypeError "funcs._fetchData is not a function"), tr).
Proof. reflexivity. Qed.

(** X9: [create] makes no request.  The guard on a missing [info] writes
    its console error and goes on: for the element types [tournament],
    [tourney], [pool] and [map], a call with [info] left out or [null] then
    fails with the [TypeError] of reading a member of it.  For any other
    element type the call returns [undefined] and does nothing more. *)
Theorem create_outcomes fetchData json ToString element info tr :
  let r := create fetchData json ToString element info tr in
  let known :=
    String.eqb element "tournament" || String.eqb element "tourney"
    || String.eqb element "pool" || String.eqb element "map" in
  let noted :=
    if falsy info
    then tr ++ [Console Err "[PBUI] Info must be provided on the element being created"]
    else tr in
  requests (snd r) = requests tr
  /\ (known = true -> info = VUndefined \/ info = VNull ->
      r = (inl (TypeError "Cannot read properties"), noted))
  /\ (known = false -> r = (inr VUndefined, noted)).
Proof.
  cbn zeta. unfold create.
  set (noted := if falsy info then _ else tr).
  assert (Hn : requests noted = requests tr).
  { subst noted. destruct (falsy info); [|reflexivity].
    rewrite requests_app, app_nil_r. reflexivity. }
  assert (Hlog : forall l m, requests (noted ++ [Console l m]) = requests tr).
  { intros. rewrite requests_app, app_nil_r. exact Hn. }
  clearbody noted.
  destruct (String.eqb element "tournament" || String.eqb element "tourney") eqn:E1;
    cbn [orb].
  { split_all; [|intros _ [->| ->]; reflexivity|discriminate].
    destruct (some_missing info _) as [e|[|]]; cbn [snd]; auto.
    rewrite create_request_fails.
    destruct (negb _); cbn [snd]; auto. }
  destruct (String.eqb element "pool") eqn:E2; cbn [orb].
  { split_all; [|intros _ [->| ->]; reflexivity|discriminate].
    destruct (some_missing info _) as [e|[|]]; cbn [snd]; auto. }
  destruct (String.eqb element "map") eqn:E3.
  { split_all; [|intros _ [->| ->]; reflexivity|discriminate].
    destruct (some_missing info _) as [e|[|]]; cbn [snd]; auto. }
  split_all; [exact Hn|discriminate|reflexivity].
Qed.

End TournamentOperations.

(** ** Uploads *)

Section Uploads.

Import PBUI.

Lemma setApiBase_calls URL_parses urls : forall w,
  kind (apiUrl w) = ConstBinding ->
  let w' := foldl (fun w u => setApiBase URL_parses u w) w urls in
  apiUrl w' = apiUrl w /\ requests (trace w') = requests (trace w).
Proof.
  induction urls as [|u urls IH]; intros w Hk; cbn [foldl]; [split; reflexivity|].
  destruct (setApiBase_const URL_parses u w Hk) as (Ha & lvl & msg & Ht).
  destruct (IH (setApiBase URL_parses u w)) as [Ha' Hr'].
  { rewrite Ha. exact Hk. }
  cbn zeta in Ha', Hr'. rewrite Ha', Hr', Ha, Ht, requests_app, app_nil_r.
  split; reflexivity.
Qed.

Lemma upload_state fetch ToString file filename w :
  snd (upload fetch ToString file filename w) =
  if is_Blob file
  then emit [Fetch (value (apiUrl w) +:+ "/upload") "POST" (upload_form file filename)] w
  else w.
Proof.
  unfold upload. destruct (is_Blob file); [|reflexivity]. cbn [negb]. cbn zeta.
  destruct (fetch _ _ _) as [e|[ok [e|data]]]; try reflexivity.
  destruct ok; cbn [negb].
  - destruct (PBUIState.member data "status") as [e|status]; [reflexivity|].
    destruct (negb _).
    + destruct (PBUIState.member data "error"); reflexivity.
    + destruct (PBUIState.member data "url"); reflexivity.
  - destruct (PBUIState.member data "error"); reflexivity.
Qed.

(** X10: whatever calls of [setApiBase] a new client has received, with
    whatever URLs, [upload] of a file that is a [Blob] makes one request and
    makes it to the declared base URL,
    [https://api.ultraslayyy.xyz/api/upload]; [upload] of anything else
    makes no request and fails with the [TypeError] of line 253. *)
Theorem upload_goes_to_declared_base fetch ToString URL_parses urls file filename :
  let w := foldl (fun w u => setApiBase URL_parses u w) constructor urls in
  let r := upload fetch ToString file filename w in
  requests (trace (snd r)) =
    (if is_Blob file
     then [("https://api.ultraslayyy.xyz/api/upload"%string, "POST"%string,
            upload_form file filename)]
     else [])
  /\ (is_Blob file = false -> fst r = inl NotABlobError).
Proof.
  cbn zeta.
  destruct (setApiBase_calls URL_parses urls constructor eq_refl) as [Ha Hr].
  cbn zeta in Ha, Hr. rewrite upload_state. split.
  - destruct (is_Blob file); [|exact Hr]. fields.
    rewrite requests_app, Hr, Ha. reflexivity.
  - intros Hb. unfold upload. rewrite Hb. reflexivity.
Qed.

(** X11: when the file is a [Blob] and the server answers with a body that
    decodes to an object, [upload] returns [{url: data.url}] only if the
    status of the response is OK and [data.status] is the string [success];
    otherwise it fails with an error whose message is [data.error], or
    [Upload failed] when that is falsy. *)
Theorem upload_result fetch ToString file filename w ok r k ps :
  is_Blob file = true ->
  fetch (value (apiUrl w) +:+ "/upload") "POST" (upload_form file filename)
    = inr (ok, inr (VObj r k ps)) ->
  let data := VObj r k ps in
  fst (upload fetch ToString file filename w) =
  if ok && strict_eq (JS.get data "status") (VStr "success")
  then inr (VObj 0 PlainObject [("url"%string, JS.get data "url")])
  else inl (Error (message_of ToString
                     (if falsy (JS.get data "error") then VStr "Upload failed"
                      else JS.get data "error"))).
Proof.
  intros Hb Hf. cbn zeta. unfold upload. rewrite Hb. cbn [negb]. cbn zeta.
  rewrite Hf.
  destruct ok; cbn [negb andb PBUIState.member]; [|reflexivity].
  destruct (strict_eq _ _); reflexivity.
Qed.

Lemma upload_result_witness :
  fst (upload refusing_server no_text png_file "a.png" constructor) =
  inl (Error "too large").
Proof.
  exact (upload_result refusing_server no_text png_file "a.png" constructor
           false _ _ _ eq_refl eq_refl).
Defined.

End Uploads.

(** ** What the connection manager leaves alone *)

Section RegistryFrame.

Import PBUI.

Lemma keeps_base {A X} (f : t -> X) w0 w1 (m : Task A) :
  f w1 = f w0 -> keeps f w1 m -> keeps f w0 m.
Proof.
  intros E. destruct m as [a w|e w|p w k]; cbn; [congruence|congruence|].
  intros [H1 H2]. split; [congruence|exact H2].
Qed.

Lemma keeps_try_bind {A B X} (f : t -> X) (m : Task A)
    (g : A -> t -> Task B) (h : Exn -> t -> Task B) : forall w0,
  keeps f w0 m ->
  (forall a w, keeps f w (g a w)) ->
  (forall e w, keeps f w (h e w)) ->
  keeps f w0 (try_bind m g h).
Proof.
  induction m as [a w|e w|p w k IH]; intros w0 Hm Hg Hh; cbn in *.
  - eapply keeps_base; [exact Hm|apply Hg].
  - eapply keeps_base; [exact Hm|apply Hh].
  - destruct Hm as [E Hk]. split; [exact E|].
    intros s w'. apply IH; auto.
Qed.

Lemma keeps_try_await_call {A B X} (f : t -> X) (m : Task A)
    (g : A -> t -> Task B) (h : Exn -> t -> Task B) w0 :
  keeps f w0 m ->
  (forall a w, keeps f w (g a w)) ->
  (forall e w, keeps f w (h e w)) ->
  keeps f w0 (try_await_call m g h).
Proof.
  intros Hm Hg Hh. destruct m as [a w|e w|p w k]; cbn in *.
  - split; [exact Hm|intros _ w'; apply Hg].
  - split; [exact Hm|intros _ w'; apply Hh].
  - destruct Hm as [E Hk]. split; [exact E|].
    intros s w'. apply keeps_try_bind; auto.
Qed.

Lemma keeps_Throw {A X} (f : t -> X) e w : keeps (A := A) f w (Throw e w).
Proof. reflexivity. Qed.

Lemma keeps_await_promise {X} (f : t -> X) p w0 w :
  f w = f w0 -> keeps f w0 (await_promise p w).
Proof. intros E. split; [exact E|]. intros [|e] w'; reflexivity. Qed.

Lemma stopHeartbeat_listeners w : listeners (_stopHeartbeat w) = listeners w.
Proof. unfold _stopHeartbeat. destruct (heartbeatInterval w); reflexivity. Qed.

Lemma startHeartbeat_listeners w : listeners (_startHeartbeat w) = listeners w.
Proof.
  unfold _startHeartbeat. destruct (heartbeatInterval w) eqn:E; [reflexivity|].
  unfold _stopHeartbeat. rewrite E. reflexivity.
Qed.

Lemma cleanupSocket_listeners w : listeners (_cleanupSocket w) = listeners w.
Proof.
  unfold _cleanupSocket. rewrite stopHeartbeat_listeners.
  destruct (socket w); reflexivity.
Qed.

Lemma reconnect_listeners w : listeners (_reconnect w) = listeners w.
Proof. unfold _reconnect. destruct (10 <=? _)%nat; reflexivity. Qed.

Lemma settle_listeners p r w : listeners (settle p r w) = listeners w.
Proof. unfold settle. destruct (promises w !! p) as [[| |]|]; reflexivity. Qed.

Lemma triggerListeners_listeners event d w :
  listeners (snd (_triggerListeners event d w)) = listeners w.
Proof. unfold _triggerListeners. destruct (property _ event); reflexivity. Qed.

Lemma deliver_step_listeners sid d w r :
  listeners (deliver_step sid d w r) = listeners w.
Proof.
  unfold deliver_step. cbn zeta.
  set (w1 := if reg_once r then _ else w).
  assert (E : listeners w1 = listeners w) by (subst w1; destruct (reg_once r); reflexivity).
  clearbody w1. rewrite <- E.
  destruct (reg_handler r); cbn [run_handler].
  - unfold resolve. rewrite settle_listeners, startHeartbeat_listeners. reflexivity.
  - unfold reject. rewrite settle_listeners. reflexivity.
  - destruct (negb _);
      [rewrite reconnect_listeners|cbn [listeners set_manualDisconnect]];
      rewrite cleanupSocket_listeners; reflexivity.
  - apply triggerListeners_listeners.
  - apply triggerListeners_listeners.
  - unfold resolve. rewrite settle_listeners. fields.
    rewrite cleanupSocket_listeners. reflexivity.
  - reflexivity.
Qed.

Lemma deliver_listeners sid event d w :
  listeners (deliver sid event d w) = listeners w.
Proof.
  unfold deliver. destruct (sockets w !! sid) as [s|]; [|reflexivity].
  generalize (filter (fun r => reg_event r = event) (handlers s)). intros rs.
  revert w. induction rs as [|r rs IH]; intros w; cbn [foldl]; [reflexivity|].
  rewrite IH. apply deliver_step_listeners.
Qed.

Lemma setApiBase_listeners URL_parses url w :
  listeners (setApiBase URL_parses url w) = listeners w.
Proof.
  unfold setApiBase. destruct url as [u|]; [|reflexivity].
  destruct (String.eqb u ""); [reflexivity|].
  destruct (negb (URL_parses u)); [reflexivity|].
  destruct (endsWith u "/"); [reflexivity|].
  destruct (assign (apiUrl w) u); reflexivity.
Qed.

Lemma keeps_disconnect w : keeps listeners w (disconnect w).
Proof.
  unfold disconnect. destruct (socket w) as [sid|]; [|reflexivity].
  unfold new_promise. cbn zeta. apply keeps_await_promise.
  unfold socket_disconnect, set_connected, socket_once. fields.
  rewrite stopHeartbeat_listeners. reflexivity.
Qed.

Lemma keeps_disconnectIfConnected w :
  keeps listeners w (_disconnectIfConnected w).
Proof.
  unfold _disconnectIfConnected. destruct (socket w); [|reflexivity].
  unfold await_call. apply keeps_try_await_call.
  - eapply keeps_base; [|apply keeps_disconnect]. reflexivity.
  - intros a w'. reflexivity.
  - intros e w'. reflexivity.
Qed.

Lemma keeps_connect URL_parses url options w :
  keeps listeners w (connect URL_parses url options w).
Proof.
  unfold connect.
  set (w0 := match url with
             | Some u => if String.eqb u "" then w else setApiBase URL_parses url w
             | None => w
             end).
  assert (E0 : listeners w0 = listeners w).
  { subst w0. destruct url as [u|]; [|reflexivity].
    destruct (String.eqb u ""); [reflexivity|apply setApiBase_listeners]. }
  clearbody w0. cbn zeta. apply keeps_try_await_call.
  - eapply keeps_base; [|apply keeps_disconnectIfConnected]. exact E0.
  - intros _ w1. unfold _establishConnection, new_promise, io. cbn zeta.
    apply keeps_await_promise.
    unfold _setupEventHandlers.
    set (w2 := _cleanupSocket _).
    assert (E2 : listeners w2 = listeners w1).
    { subst w2. rewrite cleanupSocket_listeners, startHeartbeat_listeners.
      reflexivity. }
    clearbody w2. destruct (socket w2); [|exact E2]. exact E2.
  - intros e w1. cbn. rewrite reconnect_listeners. reflexivity.
Qed.

Lemma keeps_guarded {A} (body : unit -> t -> Task A) w :
  (forall w', keeps listeners w' (body tt w')) ->
  keeps listeners w (await_call (_ensureConnected w) body).
Proof.
  intros Hb. unfold await_call. apply keeps_try_await_call.
  - unfold _ensureConnected. destruct (connecting w).
    + apply keeps_try_bind.
      * apply keeps_await_promise. reflexivity.
      * intros _ w'. destruct (negb (live w')); reflexivity.
      * intros e w'. reflexivity.
    + destruct (negb (live w)); reflexivity.
  - intros [] w'. apply Hb.
  - intros e w'. reflexivity.
Qed.

(** X12: the subscription registry is left as it is by [connect],
    [disconnect], the reconnect timer, [send] and [on], at every point
    where they stop or end and whatever happens while they are stopped, and
    by every event that a socket raises and every heartbeat: only
    [subscribe] and [unsubscribe] change it. *)
Theorem registry_survives URL_parses url options event data callback sid payload w :
  keeps listeners w (connect URL_parses url options w)
  /\ keeps listeners w (disconnect w)
  /\ keeps listeners w (reconnect_timer URL_parses w)
  /\ keeps listeners w (send event data w)
  /\ keeps listeners w (on event callback w)
  /\ listeners (deliver sid event payload w) = listeners w
  /\ listeners (heartbeat_tick w) = listeners w
  /\ listeners (_reconnect w) = listeners w.
Proof.
  split_all.
  - apply keeps_connect.
  - apply keeps_disconnect.
  - unfold reconnect_timer. apply keeps_try_bind.
    + apply keeps_connect.
    + intros a w'. reflexivity.
    + intros e w'. reflexivity.
  - apply keeps_guarded. intros w'. destruct (socket w'); reflexivity.
  - apply keeps_guarded. intros w'. destruct (socket w'); reflexivity.
  - apply deliver_listeners.
  - unfold heartbeat_tick. destruct (socket w); [|reflexivity].
    destruct (live w); reflexivity.
  - apply reconnect_listeners.
Qed.

End RegistryFrame.

(** ** Who is called when a socket raises an event *)

Section Dispatch.

Import PBUI.

Lemma invocations_app l1 l2 :
  invocations (l1 ++ l2) = invocations l1 ++ invocations l2.
Proof. unfold invocations. apply omap_app. Qed.

Lemma invocations_map_Invoke ls d :
  invocations (map (fun g => Invoke g d) ls) = map (fun g => (g, d)) ls.
Proof. induction ls as [|g ls IH]; cbn; [reflexivity|]. f_equal. exact IH. Qed.

Lemma stopHeartbeat_invocations w :
  invocations (trace (_stopHeartbeat w)) = invocations (trace w).
Proof.
  unfold _stopHeartbeat. destruct (heartbeatInterval w); [|reflexivity].
  fields. rewrite invocations_app. cbn. apply app_nil_r.
Qed.

Lemma startHeartbeat_invocations w :
  invocations (trace (_startHeartbeat w)) = invocations (trace w).
Proof.
  unfold _startHeartbeat. destruct (heartbeatInterval w) eqn:E; [reflexivity|].
  unfold _stopHeartbeat. rewrite E. fields. rewrite invocations_app. cbn.
  apply app_nil_r.
Qed.

Lemma cleanupSocket_invocations w :
  invocations (trace (_cleanupSocket w)) = invocations (trace w).
Proof.
  unfold _cleanupSocket. rewrite stopHeartbeat_invocations.
  destruct (socket w); reflexivity.
Qed.

Lemma reconnect_invocations w :
  invocations (trace (_reconnect w)) = invocations (trace w).
Proof.
  unfold _reconnect. destruct (10 <=? _)%nat; fields;
    rewrite !invocations_app; cbn; rewrite ?app_nil_r; reflexivity.
Qed.

Lemma settle_invocations p r w :
  invocations (trace (settle p r w)) = invocations (trace w).
Proof. unfold settle. destruct (promises w !! p) as [[| |]|]; reflexivity. Qed.

Lemma deliver_step_invocations sid d w r :
  invocations (trace (deliver_step sid d w r)) =
  invocations (trace w) ++ calls_of (listeners w) d (reg_handler r).
Proof.
  unfold deliver_step. cbn zeta.
  set (w1 := if reg_once r then _ else w).
  assert (E : invocations (trace w1) = invocations (trace w)
              /\ listeners w1 = listeners w).
  { subst w1. destruct (reg_once r); split; reflexivity. }
  destruct E as [Et El]. clearbody w1. rewrite <- Et, <- El.
  destruct (reg_handler r); cbn [run_handler calls_of]; rewrite ?app_nil_r.
  - unfold resolve. rewrite settle_invocations, startHeartbeat_invocations.
    fields. rewrite invocations_app. cbn. apply app_nil_r.
  - unfold reject. rewrite settle_invocations. fields.
    rewrite invocations_app. cbn. apply app_nil_r.
  - destruct (negb _); [rewrite reconnect_invocations|fields];
      rewrite cleanupSocket_invocations; fields; rewrite invocations_app; cbn;
      apply app_nil_r.
  - rewrite triggerListeners_plain by reflexivity. cbn [snd].
    destruct (listeners w1 !! "initial-state"%string);
      cbn [from_option id]; fields;
      rewrite ?invocations_app, ?invocations_map_Invoke, ?app_nil_r; reflexivity.
  - rewrite triggerListeners_plain by reflexivity. cbn [snd].
    destruct (listeners w1 !! "state-updated"%string);
      cbn [from_option id]; fields;
      rewrite ?invocations_app, ?invocations_map_Invoke, ?app_nil_r; reflexivity.
  - unfold resolve. rewrite settle_invocations. fields.
    rewrite invocations_app, cleanupSocket_invocations. cbn. apply app_nil_r.
  - fields. rewrite invocations_app. reflexivity.
Qed.

Lemma deliver_invocations sid event d w :
  invocations (trace (deliver sid event d w)) =
  invocations (trace w)
  ++ flat_map (fun r => calls_of (listeners w) d (reg_handler r))
       (registrations w sid event).
Proof.
  unfold deliver, registrations.
  destruct (sockets w !! sid) as [s|]; [|cbn; rewrite app_nil_r; reflexivity].
  generalize (filter (fun r => reg_event r = event) (handlers s)). intros rs.
  revert w. induction rs as [|r rs IH]; intros w; cbn [foldl flat_map].
  - rewrite app_nil_r. reflexivity.
  - rewrite IH, deliver_step_invocations, deliver_step_listeners, app_assoc.
    reflexivity.
Qed.

(** X13: when a socket raises an event, the callbacks called are, for each
    of its listeners for that event in registration order: the callback
    itself for one given to [on]; the subscribers of [initial-state], or of
    [state-updated], for the two listeners that [_setupEventHandlers] puts
    on those events; and nobody else.  Subscribers of any other event are
    not called by any event of the transport. *)
Theorem event_dispatch sid event payload w :
  invocations (trace (deliver sid event payload w)) =
  invocations (trace w)
  ++ flat_map (fun r => calls_of (listeners w) payload (reg_handler r))
       (registrations w sid event).
Proof. apply deliver_invocations. Qed.

(** X14: a listener that is subscribed neither to [initial-state] nor to
    [state-updated], and was not given to [on] on that socket, is called by
    no event that the socket raises, whatever else it is subscribed to. *)
Theorem other_subscriptions_never_called f sid event payload w :
  f ∉ default [] (listeners w !! "initial-state"%string) ->
  f ∉ default [] (listeners w !! "state-updated"%string) ->
  Forall (fun r => reg_handler r <> UserCallback f) (registrations w sid event) ->
  filter (fun c => fst c = f) (invocations (trace (deliver sid event payload w))) =
  filter (fun c => fst c = f) (invocations (trace w)).
Proof.
  intros Hi Hs Hu. rewrite deliver_invocations, filter_app.
  rewrite <- (app_nil_r (filter _ (invocations (trace w)))) at 2. f_equal.
  induction Hu as [|r rs Hr _ IH]; cbn [flat_map]; [reflexivity|].
  rewrite filter_app, IH, app_nil_r.
  assert (Hmap : forall ls, f ∉ ls ->
            filter (fun c : Listener * Value => fst c = f)
              (map (fun g => (g, payload)) ls) = []).
  { intros ls Hn. induction ls as [|g ls IHls]; [reflexivity|].
    apply not_elem_of_cons in Hn as [Hne Hn]. cbn [map].
    rewrite filter_cons. cbn [fst]. destruct (decide (g = f)); [congruence|auto]. }
  destruct (reg_handler r) as [| | | | | |g]; cbn [calls_of]; auto.
  rewrite filter_cons. cbn [fst].
  destruct (decide (g = f)) as [->|_]; [congruence|reflexivity].
Qed.

Lemma other_subscriptions_never_called_witness :
  filter (fun c => fst c = 7%nat)
    (invocations (trace (deliver 0%nat "state-updated" one score_client))) =
  filter (fun c => fst c = 7%nat) (invocations (trace score_client)).
Proof.
  apply (other_subscriptions_never_called 7%nat 0%nat "state-updated" one score_client).
  - vm_compute. apply not_elem_of_nil.
  - vm_compute. apply not_elem_of_nil.
  - vm_compute. constructor; [discriminate|constructor].
Defined.

Lemma property_not_inherited {A} (m : gmap string A) key :
  inherited key = false -> property m key <> Inherited.
Proof.
  intros H. rewrite property_plain by exact H. destruct (m !! key); discriminate.
Qed.

Lemma subscribe_run_sockets e f w r w1 :
  connecting w = false ->
  run_alone (subscribe e f w) = Some (r, w1) ->
  sockets w1 = sockets w /\ socket w1 = socket w.
Proof.
  intros Hc. unfold subscribe. rewrite run_alone_guarded by exact Hc.
  destruct (live w); [|intros [= <- <-]; split; reflexivity].
  unfold property. cbn zeta.
  destruct (listeners w !! e) as [ls|] eqn:E.
  - rewrite E. destruct (negb _); intros [= <- <-]; split; reflexivity.
  - destruct (inherited e) eqn:Hi.
    + cbv beta iota. rewrite E. intros [= <- <-]. split; reflexivity.
    + cbv beta iota. cbn [listeners set_listeners]. rewrite lookup_insert_eq.
      destruct (negb _); intros [= <- <-]; split; reflexivity.
Qed.

(** X15: on a connected client, once [subscribe('state-updated', f)] has
    returned, a [state-updated] event raised by a socket that carries the
    listener of [_setupEventHandlers] for it calls the subscribers of that
    event, [f] among them, with the payload of the event, in the order of
    the list. *)
Theorem subscriber_receives_update f payload sid w :
  connecting w = false -> live w = true ->
  registrations w sid "state-updated" =
    [{| reg_event := "state-updated"; reg_once := false;
        reg_handler := OnStateUpdated |}] ->
  exists w1 ls,
    run_alone (subscribe "state-updated" f w) = Some (inr tt, w1)
    /\ listeners w1 !! "state-updated"%string = Some ls
    /\ f ∈ ls
    /\ invocations (trace (deliver sid "state-updated" payload w1)) =
       invocations (trace w1) ++ map (fun g => (g, payload)) ls.
Proof.
  intros Hc Hl Hr.
  destruct (subscribe_run "state-updated" f w Hc Hl) as (w1 & Hrun & _ & _ & Hreg).
  { apply property_not_inherited. reflexivity. }
  destruct (subscribe_run_sockets "state-updated" f w _ w1 Hc Hrun) as (Hs & _).
  cbn zeta in Hreg.
  set (ls0 := default [] (listeners w !! "state-updated"%string)) in *.
  exists w1, (if includes_listener ls0 f then ls0 else ls0 ++ [f]).
  split; [exact Hrun|].
  assert (E : listeners w1 !! "state-updated"%string =
              Some (if includes_listener ls0 f then ls0 else ls0 ++ [f])).
  { rewrite Hreg. apply lookup_insert_eq. }
  split; [exact E|]. split.
  - destruct (includes_listener ls0 f) eqn:Hi.
    + apply includes_listener_elem. exact Hi.
    + apply elem_of_app. right. apply list_elem_of_singleton. reflexivity.
  - rewrite deliver_invocations. unfold registrations in *. rewrite Hs, Hr.
    cbn [flat_map reg_handler calls_of]. rewrite E, app_nil_r. reflexivity.
Qed.

Lemma subscriber_receives_update_witness :
  exists w1 ls,
    run_alone (subscribe "state-updated" 7%nat connected_client) = Some (inr tt, w1)
    /\ listeners w1 !! "state-updated"%string = Some ls
    /\ 7%nat ∈ ls
    /\ invocations (trace (deliver 0%nat "state-updated" one w1)) =
       invocations (trace w1) ++ map (fun g => (g, one)) ls.
Proof.
  apply (subscriber_receives_update 7%nat one 0%nat connected_client);
    vm_compute; reflexivity.
Defined.

End Dispatch.

(** ** The heartbeat *)

Section Heartbeat.

Import PBUI.

Lemma maintains_weaken {A} (P : t -> Prop) (m : Task A) :
  maintains P m -> P (state_of m).
Proof. destruct m; cbn; tauto. Qed.

Lemma maintains_try_bind {A B} (P : t -> Prop) (m : Task A)
    (g : A -> t -> Task B) (h : Exn -> t -> Task B) :
  maintains P m ->
  (forall a w, P w -> maintains P (g a w)) ->
  (forall e w, P w -> maintains P (h e w)) ->
  maintains P (try_bind m g h).
Proof.
  induction m as [a w|e w|p w k IH]; intros Hm Hg Hh; cbn in *; auto.
  destruct Hm as [Hw Hk]. split; [exact Hw|].
  intros s w' Hw'. apply IH; auto.
Qed.

Lemma maintains_try_await_call {A B} (P : t -> Prop) (m : Task A)
    (g : A -> t -> Task B) (h : Exn -> t -> Task B) :
  maintains P m ->
  (forall a w, P w -> maintains P (g a w)) ->
  (forall e w, P w -> maintains P (h e w)) ->
  maintains P (try_await_call m g h).
Proof.
  intros Hm Hg Hh. destruct m as [a w|e w|p w k]; cbn in *.
  - split; [exact Hm|intros _ w'; apply Hg].
  - split; [exact Hm|intros _ w'; apply Hh].
  - destruct Hm as [Hw Hk]. split; [exact Hw|].
    intros s w' Hw'. apply maintains_try_bind; auto.
Qed.

Lemma maintains_await_promise (P : t -> Prop) p w :
  P w -> maintains P (await_promise p w).
Proof. intros H. split; [exact H|]. intros [|e] w' Hw'; exact Hw'. Qed.

Lemma maintains_ensureConnected (P : t -> Prop) w :
  P w -> maintains P (_ensureConnected w).
Proof.
  intros H. unfold _ensureConnected. destruct (connecting w).
  - apply maintains_try_bind.
    + apply maintains_await_promise. exact H.
    + intros _ w' Hw'. destruct (negb (live w')); exact Hw'.
    + intros e w' Hw'. exact Hw'.
  - destruct (negb (live w)); exact H.
Qed.

Lemma maintains_guarded {A} (P : t -> Prop) (f : unit -> t -> Task A) w :
  P w -> (forall w', P w' -> maintains P (f tt w')) ->
  maintains P (await_call (_ensureConnected w) f).
Proof.
  intros H Hf. unfold await_call. apply maintains_try_await_call.
  - apply maintains_ensureConnected. exact H.
  - intros [] w' Hw'. apply Hf. exact Hw'.
  - intros e w' Hw'. exact Hw'.
Qed.

Lemma running_app tr es : running (tr ++ es) = foldl timer_step (running tr) es.
Proof. apply foldl_app. Qed.

Lemma foldl_no_interval es : forall acc,
  forallb no_interval es = true -> foldl timer_step acc es = acc.
Proof.
  induction es as [|e es IH]; intros acc H; [reflexivity|].
  cbn in H. apply andb_true_iff in H as [He Hes]. cbn [foldl].
  rewrite IH by exact Hes. destruct e; try reflexivity; discriminate He.
Qed.

Lemma heartbeat_ok_same w w' :
  trace w' = trace w -> heartbeatInterval w' = heartbeatInterval w ->
  heartbeat_ok w -> heartbeat_ok w'.
Proof. unfold heartbeat_ok. intros -> ->. auto. Qed.

Lemma heartbeat_ok_emit es w :
  forallb no_interval es = true -> heartbeat_ok w -> heartbeat_ok (emit es w).
Proof.
  unfold heartbeat_ok. intros Hes H. fields.
  rewrite running_app, foldl_no_interval by exact Hes. exact H.
Qed.

Lemma stopHeartbeat_ok w : heartbeat_ok w -> heartbeat_ok (_stopHeartbeat w).
Proof.
  unfold heartbeat_ok, _stopHeartbeat. destruct (heartbeatInterval w) as [id|] eqn:E.
  - intros H. fields. rewrite running_app, H. cbn.
    rewrite decide_False by (intros Hn; apply Hn; reflexivity). reflexivity.
  - rewrite E. auto.
Qed.

Lemma stopHeartbeat_none w : heartbeatInterval (_stopHeartbeat w) = None.
Proof. unfold _stopHeartbeat. destruct (heartbeatInterval w) eqn:E; [reflexivity|exact E]. Qed.

Lemma startHeartbeat_ok w : heartbeat_ok w -> heartbeat_ok (_startHeartbeat w).
Proof.
  intros H. unfold _startHeartbeat. destruct (heartbeatInterval w) as [id|] eqn:E; [exact H|].
  cbn zeta. apply stopHeartbeat_ok in H. unfold heartbeat_ok in *. fields.
  rewrite stopHeartbeat_none in H. rewrite running_app, H. reflexivity.
Qed.

Lemma cleanupSocket_ok w : heartbeat_ok w -> heartbeat_ok (_cleanupSocket w).
Proof.
  intros H. unfold _cleanupSocket. apply stopHeartbeat_ok.
  destruct (socket w); [|exact H].
  eapply heartbeat_ok_same; [| |exact H]; reflexivity.
Qed.

Lemma reconnect_ok w : heartbeat_ok w -> heartbeat_ok (_reconnect w).
Proof.
  intros H. unfold _reconnect. destruct (10 <=? _)%nat.
  - apply heartbeat_ok_emit; [reflexivity|exact H].
  - cbn zeta. apply heartbeat_ok_emit; [reflexivity|].
    apply heartbeat_ok_emit; [reflexivity|].
    eapply heartbeat_ok_same; [| |exact H]; reflexivity.
Qed.

Lemma settle_ok p r w : heartbeat_ok w -> heartbeat_ok (settle p r w).
Proof.
  intros H. unfold settle. destruct (promises w !! p) as [[| |]|]; exact H.
Qed.

Lemma triggerListeners_ok event d w :
  heartbeat_ok w -> heartbeat_ok (snd (_triggerListeners event d w)).
Proof.
  intros H. unfold _triggerListeners.
  destruct (property (listeners w) event) as [ls| |]; [|exact H|exact H]. cbn [snd].
  apply heartbeat_ok_emit; [|exact H].
  induction ls as [|x ls IH]; [reflexivity|exact IH].
Qed.

Lemma deliver_step_ok sid d w r :
  heartbeat_ok w -> heartbeat_ok (deliver_step sid d w r).
Proof.
  intros H. unfold deliver_step. cbn zeta.
  set (w1 := if reg_once r then _ else w).
  assert (H1 : heartbeat_ok w1).
  { subst w1. destruct (reg_once r); [|exact H].
    eapply heartbeat_ok_same; [| |exact H]; reflexivity. }
  clearbody w1. clear H.
  destruct (reg_handler r); cbn [run_handler].
  - apply settle_ok, startHeartbeat_ok.
    eapply heartbeat_ok_same;
      [| |apply (heartbeat_ok_emit [Console Log "[PBUI] Connected to WebSocket"]);
          [reflexivity|exact H1]]; reflexivity.
  - apply settle_ok, heartbeat_ok_emit; [reflexivity|exact H1].
  - assert (H2 : heartbeat_ok
               (_cleanupSocket (emit [Console Warn "[PBUI] Disconnected"] w1))).
    { apply cleanupSocket_ok, heartbeat_ok_emit; [reflexivity|exact H1]. }
    destruct (negb _); [apply reconnect_ok; exact H2|].
    eapply heartbeat_ok_same; [| |exact H2]; reflexivity.
  - apply triggerListeners_ok. exact H1.
  - apply triggerListeners_ok. exact H1.
  - apply settle_ok, heartbeat_ok_emit; [reflexivity|].
    apply cleanupSocket_ok. exact H1.
  - apply heartbeat_ok_emit; [reflexivity|exact H1].
Qed.

Lemma deliver_ok sid event d w :
  heartbeat_ok w -> heartbeat_ok (deliver sid event d w).
Proof.
  unfold deliver. destruct (sockets w !! sid) as [s|]; [|auto].
  generalize (filter (fun r => reg_event r = event) (handlers s)). intros rs.
  revert w. induction rs as [|r rs IH]; intros w H; cbn [foldl]; [exact H|].
  apply IH, deliver_step_ok. exact H.
Qed.

Lemma setApiBase_ok URL_parses url w :
  heartbeat_ok w -> heartbeat_ok (setApiBase URL_parses url w).
Proof.
  intros H. unfold setApiBase.
  destruct url as [u|]; [|apply heartbeat_ok_emit; [reflexivity|exact H]].
  destruct (String.eqb u ""); [apply heartbeat_ok_emit; [reflexivity|exact H]|].
  destruct (negb (URL_parses u)); [apply heartbeat_ok_emit; [reflexivity|exact H]|].
  destruct (endsWith u "/"); [apply heartbeat_ok_emit; [reflexivity|exact H]|].
  destruct (assign (apiUrl w) u); [apply heartbeat_ok_emit; [reflexivity|exact H]|].
  eapply heartbeat_ok_same; [| |exact H]; reflexivity.
Qed.

Lemma disconnect_ok w : heartbeat_ok w -> maintains heartbeat_ok (disconnect w).
Proof.
  intros H. unfold disconnect. destruct (socket w) as [sid|].
  - unfold new_promise. cbn zeta. apply maintains_await_promise.
    eapply heartbeat_ok_same;
      [| |apply (stopHeartbeat_ok (set_manualDisconnect true w));
          eapply heartbeat_ok_same; [| |exact H]; reflexivity]; reflexivity.
  - cbn. apply heartbeat_ok_emit; [reflexivity|exact H].
Qed.

Lemma disconnectIfConnected_ok w :
  heartbeat_ok w -> maintains heartbeat_ok (_disconnectIfConnected w).
Proof.
  intros H. unfold _disconnectIfConnected. destruct (socket w); [|exact H].
  unfold await_call. apply maintains_try_await_call.
  - apply disconnect_ok.
    eapply heartbeat_ok_same;
      [| |apply (heartbeat_ok_emit
                   [Console Warn "[PBUI] Already connected to a WebSocket. Disconnecting first..."]);
          [reflexivity|exact H]]; reflexivity.
  - intros a w' Hw'. exact Hw'.
  - intros e w' Hw'. exact Hw'.
Qed.

Lemma setupEventHandlers_ok w :
  heartbeat_ok w -> heartbeat_ok (_setupEventHandlers w).
Proof.
  intros H. unfold _setupEventHandlers. destruct (socket w); [|exact H].
  eapply heartbeat_ok_same; [| |exact H]; reflexivity.
Qed.

Lemma connect_ok URL_parses url options w :
  heartbeat_ok w -> maintains heartbeat_ok (connect URL_parses url options w).
Proof.
  intros H. unfold connect.
  set (w0 := match url with
             | Some u => if String.eqb u "" then w else setApiBase URL_parses url w
             | None => w
             end).
  assert (H0 : heartbeat_ok w0).
  { subst w0. destruct url as [u|]; [|exact H].
    destruct (String.eqb u ""); [exact H|apply setApiBase_ok; exact H]. }
  clearbody w0. cbn zeta. apply maintains_try_await_call.
  - apply disconnectIfConnected_ok.
    eapply heartbeat_ok_same; [| |exact H0]; reflexivity.
  - intros _ w' Hw'. unfold _establishConnection, new_promise, io. cbn zeta.
    apply maintains_await_promise.
    apply setupEventHandlers_ok, cleanupSocket_ok, startHeartbeat_ok.
    eapply heartbeat_ok_same; [| |exact Hw']; reflexivity.
  - intros e w' Hw'. cbn. apply reconnect_ok.
    apply heartbeat_ok_emit; [reflexivity|exact Hw'].
Qed.

Lemma reconnect_timer_ok URL_parses w :
  heartbeat_ok w -> maintains heartbeat_ok (reconnect_timer URL_parses w).
Proof.
  intros H. unfold reconnect_timer. apply maintains_try_bind.
  - apply connect_ok. exact H.
  - intros _ w' Hw'. exact Hw'.
  - intros e w' Hw'. cbn.
    eapply heartbeat_ok_same;
      [| |apply (heartbeat_ok_emit [Console Err "[PBUI] Reconnection failed:"]);
          [reflexivity|exact Hw']]; reflexivity.
Qed.

(** X16: the client never has two heartbeats.  If the interval held in
    [heartbeatInterval] is the only one running (none, when the field is
    empty), this is so again after any event raised by any socket, whatever
    listeners it carries, after a tick of the heartbeat, and wherever
    [connect], [disconnect], the callback of the retry timer, [send], [on],
    [subscribe] and [unsubscribe] stop at an [await] or end, whatever other
    code with that property ran while they were stopped. *)
Theorem heartbeat_single URL_parses w :
  heartbeat_ok w ->
  (forall sid event payload, heartbeat_ok (deliver sid event payload w))
  /\ heartbeat_ok (heartbeat_tick w)
  /\ (forall url options, maintains heartbeat_ok (connect URL_parses url options w))
  /\ maintains heartbeat_ok (disconnect w)
  /\ maintains heartbeat_ok (reconnect_timer URL_parses w)
  /\ (forall event data, maintains heartbeat_ok (send event data w))
  /\ (forall event callback, maintains heartbeat_ok (on event callback w))
  /\ (forall event f, maintains heartbeat_ok (subscribe event f w))
  /\ (forall event f, maintains heartbeat_ok (unsubscribe event f w)).
Proof.
  intros H. split_all.
  - intros. apply deliver_ok. exact H.
  - unfold heartbeat_tick. destruct (socket w); [|exact H].
    destruct (live w); [|exact H]. apply heartbeat_ok_emit; [reflexivity|exact H].
  - intros. apply connect_ok. exact H.
  - apply disconnect_ok. exact H.
  - apply reconnect_timer_ok. exact H.
  - intros event data. unfold send. apply maintains_guarded; [exact H|].
    intros w' Hw'. destruct (socket w'); cbn;
      (apply heartbeat_ok_emit; [reflexivity|exact Hw']).
  - intros event callback. unfold on. apply maintains_guarded; [exact H|].
    intros w' Hw'. destruct (socket w'); cbn.
    + eapply heartbeat_ok_same; [| |exact Hw']; reflexivity.
    + apply heartbeat_ok_emit; [reflexivity|exact Hw'].
  - intros event f. unfold subscribe. apply maintains_guarded; [exact H|].
    intros w' Hw'. cbn zeta.
    set (w1 := match property (listeners w') event with Absent => _ | _ => w' end).
    assert (H1 : heartbeat_ok w1).
    { subst w1. destruct (property (listeners w') event); exact Hw'. }
    clearbody w1.
    destruct (property (listeners w1) event) as [ls| |]; [|exact H1|exact H1].
    destruct (negb _); cbn.
    + apply (heartbeat_ok_emit [_]); [reflexivity|].
      eapply heartbeat_ok_same; [| |exact H1]; reflexivity.
    + apply (heartbeat_ok_emit [_]); [reflexivity|exact H1].
  - intros event f. unfold unsubscribe. apply maintains_guarded; [exact H|].
    intros w' Hw'. destruct (property (listeners w') event) as [ls| |]; cbn.
    + destruct (indexOf ls f) as [i|]; cbn.
      * apply (heartbeat_ok_emit [_]); [reflexivity|].
        eapply heartbeat_ok_same; [| |exact Hw']; reflexivity.
      * apply (heartbeat_ok_emit [_]); [reflexivity|exact Hw'].
    + exact Hw'.
    + apply (heartbeat_ok_emit [_]); [reflexivity|exact Hw'].
Qed.

End Heartbeat.

Lemma heartbeat_single_witness :
  maintains heartbeat_ok (PBUI.disconnect connected_client).
Proof.
  apply (heartbeat_single accept_all connected_client).
  vm_compute. reflexivity.
Defined.

(** ** Connection, loss and retry *)

Section Retry.

Import PBUI.

Lemma startHeartbeat_socket w : socket (_startHeartbeat w) = socket w.
Proof.
  unfold _startHeartbeat. destruct (heartbeatInterval w) eqn:E; [reflexivity|].
  unfold _stopHeartbeat. rewrite E. reflexivity.
Qed.

Lemma startHeartbeat_running w : heartbeatInterval (_startHeartbeat w) <> None.
Proof.
  unfold _startHeartbeat. destruct (heartbeatInterval w) eqn:E; [congruence|].
  discriminate.
Qed.

Lemma filter_remove_first (P : Registration -> Prop) `{!forall r, Decision (P r)} r l :
  P r -> filter P (remove_first r l) = remove_first r (filter P l).
Proof.
  intros Hr. induction l as [|x l IH]; [reflexivity|].
  cbn [remove_first]. destruct (decide (x = r)) as [->|Hne].
  - rewrite filter_cons_True by exact Hr. cbn [remove_first].
    rewrite decide_True by reflexivity. reflexivity.
  - destruct (decide (P x)) as [Hx|Hx].
    + rewrite !filter_cons_True by exact Hx. cbn [remove_first].
      rewrite decide_False by exact Hne. rewrite IH. reflexivity.
    + rewrite !filter_cons_False by exact Hx. exact IH.
Qed.

(** X17: the [connect] event on the socket of the client, heard by the
    listener of lines 60-66 while its promise is pending, leaves the client
    connected: the socket is live, [connecting] is cleared, the attempt
    counter is back at 0 (so that the next retry waits 1000 ms again), a
    heartbeat runs, the promise is fulfilled, and the listener is gone from
    the socket. *)
Theorem connect_event_resets_backoff w sid s p :
  socket w = Some sid ->
  sockets w !! sid = Some s ->
  filter (fun r => reg_event r = "connect"%string) (handlers s) =
    [connect_registration p] ->
  promises w !! p = Some Pending ->
  let w1 := transport_connect sid w in
  live w1 = true
  /\ connecting w1 = false
  /\ reconnectionAttempts w1 = 0%nat
  /\ heartbeatInterval w1 <> None
  /\ promises w1 = <[p := Fulfilled]> (promises w)
  /\ registrations w1 sid "connect" = []
  /\ delays (trace (_reconnect w1)) = delays (trace w) ++ [1000%Z].
Proof.
  intros Hk Hs Hr Hp. unfold SocketId, PromiseId in *. cbn zeta.
  unfold transport_connect.
  set (w0 := set_connected true sid w).
  assert (S0 : sockets w0 !! sid =
               Some {| url := url s; connected := true; handlers := handlers s |}).
  { subst w0. unfold set_connected. fields. rewrite list_lookup_alter_eq, Hs.
    reflexivity. }
  rewrite (deliver_unfold _ _ _ _ _ S0). cbn [handlers]. rewrite Hr.
  cbn [foldl]. unfold deliver_step.
  cbn [connect_registration reg_once reg_handler run_handler].
  fold (connect_registration p).
  set (wp := set_reconnectionAttempts 0 _).
  set (wh := _startHeartbeat wp).
  assert (Lh : lifecycle wh =
               (manualDisconnect w, Some sid, false, 0%nat, promises w,
                delays (trace w))).
  { subst wh. rewrite startHeartbeat_lifecycle. subst wp w0.
    unfold lifecycle, socket_off_one, set_connected. fields.
    rewrite delays_app. cbn [delays omap]. rewrite app_nil_r, Hk. reflexivity. }
  assert (Sh : sockets wh !! sid =
               Some {| url := url s; connected := true;
                       handlers := remove_first (connect_registration p) (handlers s) |}).
  { subst wh. rewrite startHeartbeat_sockets. subst wp.
    unfold socket_off_one. fields. rewrite list_lookup_alter_eq, S0. reflexivity. }
  assert (Hh : heartbeatInterval wh <> None) by apply startHeartbeat_running.
  clearbody wh. clear wp. unfold lifecycle in Lh.
  injection Lh as Hm1 Hk1 Hc1 Ha1 Hp1 Hd1.
  unfold resolve, settle. unfold SocketId, PromiseId in *. rewrite Hp1, Hp.
  unfold live, registrations, _reconnect. fields.
  unfold SocketId, PromiseId in *. rewrite Hk1, !Sh, Ha1. cbn [connected handlers Nat.leb].
  split_all; try reflexivity; try assumption.
  - rewrite filter_remove_first by reflexivity. rewrite Hr.
    cbn [remove_first]. rewrite decide_True by reflexivity. reflexivity.
  - fields. rewrite !delays_app, Hd1.
    change (delays [Console Log "[PBUI] Reconnecting..."]) with (@nil Z).
    rewrite app_nil_r. reflexivity.
Qed.

Lemma connect_event_resets_backoff_witness :
  let w := snd (_establishConnection VUndefined (set_connecting true constructor)) in
  let w1 := transport_connect 0%nat w in
  live w1 = true
  /\ connecting w1 = false
  /\ reconnectionAttempts w1 = 0%nat
  /\ heartbeatInterval w1 <> None
  /\ promises w1 = <[0%nat := Fulfilled]> (promises w)
  /\ registrations w1 0%nat "connect" = []
  /\ delays (trace (_reconnect w1)) = delays (trace w) ++ [1000%Z].
Proof.
  apply (connect_event_resets_backoff
           (snd (_establishConnection VUndefined (set_connecting true constructor)))
           0%nat
           {| url := "https://api.ultraslayyy.xyz/api"; connected := false;
              handlers :=
                [connect_registration 0%nat;
                 {| reg_event := "connect_error"; reg_once := true;
                    reg_handler := OnConnectError 0%nat |}] |}
           0%nat);
    vm_compute; reflexivity.
Defined.

Lemma retry_step sid payload w :
  manualDisconnect w = false ->
  lifecycle (deliver_step sid payload w disconnect_registration) =
  if (10 <=? reconnectionAttempts w)%nat then
    (false, None, connecting w, reconnectionAttempts w, promises w,
     delays (trace w))
  else
    (false, None, true, S (reconnectionAttempts w), promises w,
     delays (trace w) ++ [reconnect_delay (reconnectionAttempts w)]).
Proof.
  intros Hm. unfold deliver_step.
  cbn [disconnect_registration reg_once reg_handler run_handler].
  set (w1 := _cleanupSocket _).
  assert (H1 : lifecycle w1 =
               (false, None, connecting w, reconnectionAttempts w, promises w,
                delays (trace w))).
  { subst w1. rewrite cleanupSocket_lifecycle. cbn. rewrite Hm, delays_app.
    cbn. rewrite app_nil_r. reflexivity. }
  clearbody w1. unfold lifecycle in H1.
  injection H1 as Hm1 Hs1 Hc1 Ha1 Hp1 Hd1.
  rewrite Hm1. cbn [negb]. unfold _reconnect. fields. rewrite Ha1.
  destruct (10 <=? reconnectionAttempts w)%nat; unfold lifecycle; fields;
    rewrite !delays_app, Hm1, Hs1, Hp1, Hd1, ?Hc1, ?Ha1; cbn [delays omap];
    rewrite ?app_nil_r; reflexivity.
Qed.

(** X18: on a client whose socket carries the [disconnect] listener of
    [_setupEventHandlers], next to any callbacks given to [on], a
    [disconnect] event that no call of [disconnect()] announced drops the
    socket and, while fewer than 10 attempts are counted, sets
    [connecting], counts one attempt more and sets one timeout, of
    [min(1000 * 2^attempts, 10000)] ms; with 10 attempts counted it sets no
    timeout and leaves [connecting] and the counter as they are.  No promise
    is touched. *)
Theorem abnormal_disconnect_retries w sid s us1 us2 reason :
  sockets w !! sid = Some s ->
  filter (fun r => reg_event r = "disconnect"%string) (handlers s)
    = us1 ++ disconnect_registration :: us2 ->
  Forall (fun r => is_user r = true) us1 ->
  Forall (fun r => is_user r = true) us2 ->
  manualDisconnect w = false ->
  lifecycle (transport_disconnect sid reason w) =
  if (10 <=? reconnectionAttempts w)%nat then
    (false, None, connecting w, reconnectionAttempts w, promises w,
     delays (trace w))
  else
    (false, None, true, S (reconnectionAttempts w), promises w,
     delays (trace w) ++ [reconnect_delay (reconnectionAttempts w)]).
Proof.
  intros Hs Hregs Hus1 Hus2 Hm. unfold SocketId in *.
  unfold transport_disconnect.
  set (w0 := set_connected false sid w).
  assert (S0 : sockets w0 !! sid =
               Some {| url := url s; connected := false; handlers := handlers s |}).
  { subst w0. unfold set_connected. fields. rewrite list_lookup_alter_eq, Hs.
    reflexivity. }
  assert (L0 : lifecycle w0 = lifecycle w) by reflexivity.
  clearbody w0.
  rewrite (deliver_unfold _ _ _ _ _ S0). cbn [handlers]. rewrite Hregs.
  rewrite foldl_app. cbn [foldl].
  set (wa := foldl _ w0 us1).
  assert (La : lifecycle wa = lifecycle w).
  { subst wa. rewrite users_steps by exact Hus1. exact L0. }
  clearbody wa.
  rewrite users_steps by exact Hus2.
  unfold lifecycle in La. injection La as Hma Hka Hca Haa Hpa Hda.
  rewrite retry_step by congruence.
  rewrite Hca, Haa, Hpa, Hda. reflexivity.
Qed.

Lemma abnormal_disconnect_retries_witness :
  lifecycle (transport_disconnect 0%nat (VStr "transport close") connected_client) =
  if (10 <=? reconnectionAttempts connected_client)%nat then
    (false, None, connecting connected_client,
     reconnectionAttempts connected_client, promises connected_client,
     delays (trace connected_client))
  else
    (false, None, true, S (reconnectionAttempts connected_client),
     promises connected_client,
     delays (trace connected_client)
       ++ [reconnect_delay (reconnectionAttempts connected_client)]).
Proof.
  apply (abnormal_disconnect_retries connected_client 0%nat connected_socket []
           [{| reg_event := "disconnect"; reg_once := false;
               reg_handler := UserCallback 9%nat |}]
           (VStr "transport close")).
  - vm_compute. reflexivity.
  - vm_compute. reflexivity.
  - constructor.
  - repeat constructor.
  - reflexivity.
Defined.

Lemma run_alone_value {A} (m : Task A) :
  awaits m = Some AwaitValue ->
  run_alone m = run_alone (resume m Resolved (state_of m)).
Proof. destruct m as [a w|e w|[p|] w k]; try discriminate. reflexivity. Qed.

Lemma run_alone_pending {A} (m : Task A) p :
  awaits m = Some (AwaitPromise p) ->
  promises (state_of m) !! p = Some Pending ->
  run_alone m = None.
Proof.
  destruct m as [a w|e w|[q|] w k]; try discriminate.
  intros [= ->] Hp. cbn in *. rewrite Hp. reflexivity.
Qed.

Lemma setupEventHandlers_connectionPromise w :
  connectionPromise (_setupEventHandlers w) = connectionPromise w.
Proof. unfold _setupEventHandlers. destruct (socket w); reflexivity. Qed.

(** The promise that [connect] stores is the one it makes. *)
Lemma connect_stores_its_promise URL_parses url options w :
  socket w = None ->
  let called := connect URL_parses url options w in
  connectionPromise (state_of (resume called Resolved (state_of called))) =
  Some (length (promises w)).
Proof.
  intros Hsock. unfold connect.
  set (w0 := match url with
             | Some u => if String.eqb u "" then w else setApiBase URL_parses url w
             | None => w
             end).
  assert (H0 : lifecycle w0 = lifecycle w).
  { subst w0. destruct url as [u|]; [|reflexivity].
    destruct (String.eqb u ""); [reflexivity|].
    apply setApiBase_lifecycle. }
  clearbody w0. unfold lifecycle in H0. injection H0 as Hm0 Hk0 Hc0 Ha0 Hp0 Hd0.
  cbn zeta. unfold _disconnectIfConnected. fields. rewrite Hk0, Hsock.
  cbn [try_await_call awaits state_of resume].
  unfold _establishConnection, new_promise, io. fields.
  cbn [await_promise state_of].
  rewrite setupEventHandlers_connectionPromise, cleanupSocket_connectionPromise,
    startHeartbeat_connectionPromise.
  fields. rewrite Hp0. reflexivity.
Qed.

(** An operation behind [await this._ensureConnected()] called while
    [connecting] is set and the promise of the attempt is pending does not
    end when run on its own. *)
Lemma guarded_pending {A} (body : unit -> t -> Task A) w p :
  connecting w = true -> connectionPromise w = Some p ->
  promises w !! p = Some Pending ->
  run_alone (await_call (_ensureConnected w) body) = None.
Proof.
  intros Hc Hcp Hp. unfold _ensureConnected. rewrite Hc, Hcp.
  cbn. unfold PromiseId in *. rewrite Hp. reflexivity.
Qed.

Lemma deliver_all_fixed sid w events :
  (forall event payload, deliver sid event payload w = w) ->
  deliver_all sid events w = w.
Proof.
  intros H. unfold deliver_all.
  induction events as [|[e d] events IH]; [reflexivity|].
  cbn [foldl fst snd]. rewrite H. exact IH.
Qed.

(** X19: [connect] called on a client without socket, run on its own, does
    not end: it is left waiting on the promise it made, which is pending,
    with [connecting] set and no live socket.  Whatever events the socket
    it made raises afterwards, the client stays as it is; and [send], [on],
    [subscribe] and [unsubscribe] called from then on do not end either. *)
Theorem connect_never_completes URL_parses url options w :
  socket w = None ->
  let called := connect URL_parses url options w in
  let w2 := state_of (resume called Resolved (state_of called)) in
  run_alone called = None
  /\ connecting w2 = true
  /\ live w2 = false
  /\ connectionPromise w2 = Some (length (promises w))
  /\ promises w2 !! length (promises w) = Some Pending
  /\ (forall events, deliver_all (length (sockets w)) events w2 = w2)
  /\ (forall event data f,
        run_alone (send event data w2) = None
        /\ run_alone (on event f w2) = None
        /\ run_alone (subscribe event f w2) = None
        /\ run_alone (unsubscribe event f w2) = None).
Proof.
  intros Hsock.
  pose proof (connect_stores_its_promise URL_parses url options w Hsock) as Hcp.
  destruct (connect_drops_its_socket URL_parses url options w Hsock)
    as (Ha1 & Ha2 & Hl & _ & Hev).
  cbv zeta in *.
  set (called := connect URL_parses url options w) in *.
  set (resumed := resume called Resolved (state_of called)) in *.
  set (w2 := state_of resumed) in *.
  unfold lifecycle in Hl. injection Hl as Hm Hk Hc Ha Hp Hd.
  assert (Hpend : promises w2 !! length (promises w) = Some Pending).
  { rewrite Hp. rewrite lookup_app_r by reflexivity.
    rewrite Nat.sub_diag. reflexivity. }
  split_all.
  - rewrite (run_alone_value called Ha1).
    apply (run_alone_pending _ _ Ha2). exact Hpend.
  - exact Hc.
  - unfold live. rewrite Hk. reflexivity.
  - exact Hcp.
  - exact Hpend.
  - intros events. apply deliver_all_fixed. exact Hev.
  - intros event data f.
    split_all; eapply guarded_pending; eassumption.
Qed.

Lemma connect_never_completes_witness :
  let called := connect accept_all None VUndefined constructor in
  let w2 := state_of (resume called Resolved (state_of called)) in
  run_alone called = None
  /\ connecting w2 = true
  /\ live w2 = false
  /\ connectionPromise w2 = Some (length (promises constructor))
  /\ promises w2 !! length (promises constructor) = Some Pending
  /\ (forall events, deliver_all (length (sockets constructor)) events w2 = w2)
  /\ (forall event data f,
        run_alone (send event data w2) = None
        /\ run_alone (on event f w2) = None
        /\ run_alone (subscribe event f w2) = None
        /\ run_alone (unsubscribe event f w2) = None).
Proof.
  apply (connect_never_completes accept_all None VUndefined constructor).
  reflexivity.
Defined.

Lemma awaits_try_bind {A B} (m : Task A) (g : A -> t -> Task B)
    (h : Exn -> t -> Task B) p :
  awaits m = Some p ->
  awaits (try_bind m g h) = Some p
  /\ state_of (try_bind m g h) = state_of m
  /\ forall s w, resume (try_bind m g h) s w = try_bind (resume m s w) g h.
Proof. destruct m as [a w|e w|q w k]; try discriminate. intros [= ->]. auto. Qed.

(** X20: the callback that [_reconnect] gives to [setTimeout], run on a
    client without socket (as the [disconnect] listener leaves it), does not
    end: the attempt it starts waits on a pending promise, so that its
    [catch] is never reached.  It sets no further timeout and leaves the
    attempt counter alone, with [connecting] still set. *)
Theorem retry_timer_stalls URL_parses w :
  socket w = None ->
  let called := reconnect_timer URL_parses w in
  let w2 := state_of (resume called Resolved (state_of called)) in
  run_alone called = None
  /\ connecting w2 = true
  /\ reconnectionAttempts w2 = reconnectionAttempts w
  /\ delays (trace w2) = delays (trace w)
  /\ (forall events, deliver_all (length (sockets w)) events w2 = w2).
Proof.
  intros Hsock. cbv zeta. unfold reconnect_timer.
  destruct (connect_drops_its_socket URL_parses (Some (value (apiUrl w)))
              (VObj 0 PlainObject []) w Hsock) as (Ha1 & Ha2 & Hl & _ & Hev).
  cbv zeta in *.
  set (c := connect URL_parses (Some (value (apiUrl w))) (VObj 0 PlainObject []) w) in *.
  set (g := fun (_ : unit) (w : t) => Return tt w).
  set (h := fun (error : Exn) (w : t) => _).
  destruct (awaits_try_bind c g h _ Ha1) as (Hb1 & Hb2 & Hb3).
  rewrite Hb2, Hb3.
  set (r := resume c Resolved (state_of c)) in *.
  destruct (awaits_try_bind r g h _ Ha2) as (Hr1 & Hr2 & _).
  rewrite Hr2.
  unfold lifecycle in Hl. injection Hl as Hm Hk Hc Ha Hp Hd.
  split_all; try assumption.
  - rewrite (run_alone_value _ Hb1), Hb2, Hb3.
    apply (run_alone_pending _ _ Hr1). rewrite Hr2, Hp.
    rewrite lookup_app_r by reflexivity. rewrite Nat.sub_diag. reflexivity.
  - intros events. apply deliver_all_fixed. exact Hev.
Qed.

Lemma retry_timer_stalls_witness :
  let w := transport_disconnect 0%nat (VStr "transport close") connected_client in
  let called := reconnect_timer accept_all w in
  let w2 := state_of (resume called Resolved (state_of called)) in
  run_alone called = None
  /\ connecting w2 = true
  /\ reconnectionAttempts w2 = reconnectionAttempts w
  /\ delays (trace w2) = delays (trace w)
  /\ (forall events, deliver_all (length (sockets w)) events w2 = w2).
Proof.
  apply (retry_timer_stalls accept_all
           (transport_disconnect 0%nat (VStr "transport close") connected_client)).
  vm_compute. reflexivity.
Defined.

End Retry.

(** ** Subscribing and unsubscribing *)

Section RoundTrip.

Import PBUI.

Lemma first_occurrence_unique (f : Listener) l1 : forall l2 l1' l2',
  l1 ++ f :: l2 = l1' ++ f :: l2' -> f ∉ l1 -> f ∉ l1' ->
  l1 = l1' /\ l2 = l2'.
Proof.
  induction l1 as [|x l1 IH]; intros l2 [|y l1'] l2' E H1 H2; cbn in E.
  - injection E as ->. auto.
  - injection E as <- _. exfalso. apply H2. left.
  - injection E as -> _. exfalso. apply H1. left.
  - injection E as <- E. apply not_elem_of_cons in H1 as [_ H1].
    apply not_elem_of_cons in H2 as [_ H2].
    destruct (IH _ _ _ E H1 H2) as [-> ->]. auto.
Qed.

(** X21: on a connected client, for an event name [e] that is not the
    name of a member every object inherits, [subscribe(e, f)] for an [f]
    that is not yet in the list of [e], followed by [unsubscribe(e, f)],
    both succeed and give back the list of [e] as it was, the lists of the
    other events untouched; the one trace left in the registry is an empty
    list for [e] where there was none. *)
Theorem subscribe_unsubscribe_round_trip e f w :
  connecting w = false -> live w = true ->
  inherited e = false ->
  (f ∉ default [] (listeners w !! e)) ->
  exists w1 w2,
    run_alone (subscribe e f w) = Some (inr tt, w1)
    /\ run_alone (unsubscribe e f w1) = Some (inr tt, w2)
    /\ listeners w2 = <[e := default [] (listeners w !! e)]> (listeners w)
    /\ (forall ls, listeners w !! e = Some ls -> listeners w2 = listeners w).
Proof.
  intros Hc Hl Hi Hn.
  destruct (subscribe_run e f w Hc Hl (property_not_inherited _ _ Hi))
    as (w1 & Hrun1 & Hc1 & Hl1 & Hreg1).
  cbn zeta in Hreg1.
  set (ls0 := default [] (listeners w !! e)) in *.
  assert (Hinc : includes_listener ls0 f = false).
  { destruct (includes_listener ls0 f) eqn:Hinc; [|reflexivity].
    exfalso. apply Hn. apply includes_listener_elem. exact Hinc. }
  rewrite Hinc in Hreg1.
  destruct (unsubscribe_run e f w1 Hc1) as (r & w2 & Hrun2 & _ & Hlive & _).
  destruct (Hlive Hl1 (property_not_inherited _ _ Hi)) as (-> & _ & Hrem).
  assert (E1 : listeners w1 !! e = Some (ls0 ++ [f])).
  { rewrite Hreg1. apply lookup_insert_eq. }
  destruct (Hrem _ E1) as (l1 & l2 & Hsplit & Hn1 & Hreg2).
  { apply elem_of_app. right. apply list_elem_of_singleton. reflexivity. }
  destruct (first_occurrence_unique f ls0 [] l1 l2 Hsplit Hn Hn1) as [<- <-].
  rewrite app_nil_r in Hreg2.
  assert (E2 : listeners w2 = <[e := ls0]> (listeners w)).
  { rewrite Hreg2, Hreg1. apply insert_insert_eq. }
  exists w1, w2. split_all; try assumption.
  intros ls Hls. rewrite E2. apply insert_id. subst ls0. rewrite Hls. reflexivity.
Qed.

Lemma subscribe_unsubscribe_round_trip_witness :
  exists w1 w2,
    run_alone (subscribe "score" 7%nat connected_client) = Some (inr tt, w1)
    /\ run_alone (unsubscribe "score" 7%nat w1) = Some (inr tt, w2)
    /\ listeners w2 =
       <["score"%string := default [] (listeners connected_client !! "score"%string)]>
         (listeners connected_client)
    /\ (forall ls, listeners connected_client !! "score"%string = Some ls ->
          listeners w2 = listeners connected_client).
Proof.
  apply (subscribe_unsubscribe_round_trip "score" 7%nat connected_client).
  - vm_compute. reflexivity.
  - vm_compute. reflexivity.
  - vm_compute. reflexivity.
  - vm_compute. apply not_elem_of_nil.
Defined.

End RoundTrip.

(** ** [connect] on a connected client *)

Section ConnectAgain.

Import PBUI.

Lemma set_connecting_same w : connecting w = true -> set_connecting true w = w.
Proof. destruct w. cbn. intros ->. reflexivity. Qed.

(** The [disconnect] event on a socket that carries the listener of
    [_setupEventHandlers] and, last, the one of [disconnect()], after the
    manual flag has been set *)
Lemma manual_disconnect_event w sid s us1 us2 p reason :
  sockets w !! sid = Some s ->
  filter (fun r => reg_event r = "disconnect"%string) (handlers s)
    = us1 ++ disconnect_registration :: us2 ++
      [{| reg_event := "disconnect"; reg_once := true;
          reg_handler := OnDisconnected p |}] ->
  Forall (fun r => is_user r = true) us1 ->
  Forall (fun r => is_user r = true) us2 ->
  manualDisconnect w = true ->
  lifecycle (transport_disconnect sid reason w) =
  (false, None, connecting w, reconnectionAttempts w,
   match promises w !! p with
   | Some Pending => <[p := Fulfilled]> (promises w)
   | _ => promises w
   end,
   delays (trace w)).
Proof.
  intros Hs Hregs Hus1 Hus2 Hm. unfold SocketId, PromiseId in *.
  unfold transport_disconnect.
  set (w0 := set_connected false sid w).
  assert (S0 : sockets w0 !! sid =
               Some {| url := url s; connected := false; handlers := handlers s |}).
  { subst w0. unfold set_connected. fields. rewrite list_lookup_alter_eq, Hs.
    reflexivity. }
  assert (L0 : lifecycle w0 = lifecycle w) by reflexivity.
  clearbody w0.
  rewrite (deliver_unfold _ _ _ _ _ S0). cbn [handlers]. rewrite Hregs.
  rewrite foldl_app. cbn [foldl]. rewrite foldl_app. cbn [foldl].
  set (wa := foldl _ w0 us1).
  assert (La : lifecycle wa = lifecycle w).
  { subst wa. rewrite users_steps by exact Hus1. exact L0. }
  clearbody wa.
  set (wb := deliver_step sid reason wa disconnect_registration).
  assert (Lb : lifecycle wb =
               (false, None, connecting w, reconnectionAttempts w, promises w,
                delays (trace w))).
  { subst wb. unfold lifecycle in La. injection La as Hma Hka Hca Haa Hpa Hda.
    rewrite auto_step by congruence. rewrite Hca, Haa, Hpa, Hda. reflexivity. }
  clearbody wb.
  set (wc := foldl _ wb us2).
  assert (Lc : lifecycle wc = lifecycle wb) by (apply users_steps; exact Hus2).
  rewrite Lb in Lc. clearbody wc.
  rewrite once_step. unfold lifecycle in Lc.
  injection Lc as Hmc Hkc Hcc Hac Hpc Hdc.
  unfold PromiseId in *. rewrite Hmc, Hcc, Hac, Hpc, Hdc. reflexivity.
Qed.

(** X22: [connect] called on a connected client, whose socket carries the
    [disconnect] listener of [_setupEventHandlers] next to any callbacks
    given to [on], first waits for the socket to be closed; once the
    [disconnect] event has come, no retry is set and the call goes on to
    make a new socket, which it drops at once: the client is left without
    live socket, [connecting] set, and the call waits on a promise that
    stays pending. *)
Theorem connect_while_connected URL_parses u options w sid s us1 us2 reason :
  socket w = Some sid ->
  sockets w !! sid = Some s ->
  filter (fun r => reg_event r = "disconnect"%string) (handlers s)
    = us1 ++ disconnect_registration :: us2 ->
  Forall (fun r => is_user r = true) us1 ->
  Forall (fun r => is_user r = true) us2 ->
  let called := connect URL_parses u options w in
  let w2 := transport_disconnect sid reason (state_of called) in
  let resumed := resume called Resolved w2 in
  let w3 := state_of resumed in
  awaits called = Some (AwaitPromise (length (promises w)))
  /\ outcome (AwaitPromise (length (promises w))) w2 = Some Resolved
  /\ run_alone resumed = None
  /\ lifecycle w3 =
     (false, None, true, reconnectionAttempts w,
      promises w ++ [Fulfilled; Pending], delays (trace w))
  /\ live w3 = false.
Proof.
  intros Hk Hs Hregs Hus1 Hus2. unfold SocketId, PromiseId in *. cbv zeta.
  set (c := connect URL_parses u options w).
  set (p := length (promises w)).
  (* the call up to its first stop *)
  assert (Hc : exists w1 k,
             c = Await (AwaitPromise p) w1
                   (fun st w' =>
                      try_bind (try_bind (k st w') (fun _ w => Return tt w) Throw)
                        (fun _ w =>
                           let (q, w) := _establishConnection options w in
                           let w := set_connectionPromise (Some q) w in
                           let w := _startHeartbeat w in
                           let w := _cleanupSocket w in
                           let w := _setupEventHandlers w in
                           await_promise (connectionPromise w) w)
                        (fun error w =>
                           let w := emit [Console Err "[PBUI] Connection failed:"] w in
                           let w := _reconnect w in
                           Throw error w))
             /\ (forall w', k Resolved w' = Return tt w')
             /\ lifecycle w1 =
                (true, Some sid, true, reconnectionAttempts w,
                 promises w ++ [Pending], delays (trace w))
             /\ sockets w1 !! sid =
                Some {| url := url s; connected := false;
                        handlers := handlers s ++
                          [{| reg_event := "disconnect"; reg_once := true;
                              reg_handler := OnDisconnected p |}] |}).
  { subst c. unfold connect.
    set (w0 := match u with
               | Some x => if String.eqb x "" then w else setApiBase URL_parses u w
               | None => w
               end).
    assert (H0 : lifecycle w0 = lifecycle w /\ sockets w0 = sockets w).
    { subst w0. destruct u as [x|]; [|split; reflexivity].
      destruct (String.eqb x ""); [split; reflexivity|].
      apply setApiBase_lifecycle. }
    destruct H0 as [L0 S0]. clearbody w0.
    unfold lifecycle in L0. injection L0 as Hm0 Hk0 Hc0 Ha0 Hp0 Hd0.
    cbn zeta. unfold _disconnectIfConnected. fields. rewrite Hk0, Hk.
    unfold disconnect. fields. rewrite Hk0, Hk.
    unfold new_promise. cbn zeta.
    set (wq := _stopHeartbeat _).
    assert (Lq : lifecycle wq =
                 (true, Some sid, true, reconnectionAttempts w, promises w,
                  delays (trace w))).
    { subst wq. rewrite stopHeartbeat_lifecycle. unfold lifecycle. fields.
      rewrite delays_app. cbn [delays omap]. rewrite app_nil_r.
      rewrite Hk0, Hk, Ha0, Hp0, Hd0. reflexivity. }
    assert (Sq : sockets wq = sockets w).
    { subst wq. rewrite stopHeartbeat_sockets. exact S0. }
    clearbody wq. unfold lifecycle in Lq.
    injection Lq as Hmq Hkq Hcq Haq Hpq Hdq.
    unfold await_call.
    cbn [await_promise awaited_of try_await_call].
    rewrite Hpq. fold p.
    eexists _, _. split; [reflexivity|]. split; [reflexivity|]. split.
    - unfold lifecycle, socket_disconnect, set_connected, socket_once. fields.
      rewrite Hmq, Hkq, Hcq, Haq, Hdq. reflexivity.
    - unfold socket_disconnect, set_connected, socket_once. fields.
      unfold SocketId in *. rewrite !list_lookup_alter_eq, Sq, Hs. reflexivity. }
  destruct Hc as (w1 & k & Ec & Hkres & L1 & S1).
  rewrite Ec. cbn [awaits state_of resume]. rewrite Hkres. cbn [try_bind].
  clearbody c. clear Ec c.
  (* the event *)
  set (w2 := transport_disconnect sid reason w1).
  assert (L2 : lifecycle w2 =
               (false, None, true, reconnectionAttempts w,
                promises w ++ [Fulfilled], delays (trace w))).
  { subst w2. unfold lifecycle in L1. injection L1 as Hm1 Hk1 Hc1 Ha1 Hp1 Hd1.
    rewrite (manual_disconnect_event w1 sid _ us1 us2 p reason S1);
      [|cbn [handlers]; rewrite filter_app, Hregs, <- app_assoc; reflexivity
       |exact Hus1|exact Hus2|exact Hm1].
    rewrite Hc1, Ha1, Hp1, Hd1. subst p.
    rewrite lookup_app_r by reflexivity. rewrite Nat.sub_diag.
    cbn [lookup list_lookup].
    rewrite insert_app_r_alt by reflexivity. rewrite Nat.sub_diag. reflexivity. }
  clearbody w2. unfold lifecycle in L2. injection L2 as Hm2 Hk2 Hc2 Ha2 Hp2 Hd2.
  (* the rest of the call is [connect] on a client without socket *)
  match goal with |- context [run_alone ?r] => set (rest := r) end.
  assert (Er : rest =
               resume (connect URL_parses None options w2) Resolved
                 (state_of (connect URL_parses None options w2))).
  { subst rest. unfold connect. unfold _disconnectIfConnected. fields.
    rewrite Hk2. cbn [try_await_call state_of resume].
    rewrite (set_connecting_same w2 Hc2). reflexivity. }
  clearbody rest. subst rest.
  destruct (connect_drops_its_socket URL_parses None options w2 Hk2)
    as (_ & Ha & Hl & _ & _).
  cbv zeta in Ha, Hl.
  set (r2 := resume (connect URL_parses None options w2) Resolved _) in *.
  unfold lifecycle in Hl. injection Hl as Hm3 Hk3 Hc3 Ha3 Hp3 Hd3.
  split_all.
  - reflexivity.
  - cbn [outcome]. rewrite Hp2. subst p.
    rewrite lookup_app_r by reflexivity. rewrite Nat.sub_diag. reflexivity.
  - apply (run_alone_pending _ _ Ha). rewrite Hp3.
    rewrite lookup_app_r by reflexivity. rewrite Nat.sub_diag. reflexivity.
  - unfold lifecycle. rewrite Hm3, Hk3, Hc3, Ha3, Hp3, Hd3, Hm2, Ha2, Hp2, Hd2.
    rewrite <- app_assoc. reflexivity.
  - unfold live. rewrite Hk3. reflexivity.
Qed.

Lemma connect_while_connected_witness :
  let called := connect accept_all None VUndefined connected_client in
  let w2 := transport_disconnect 0%nat (VStr "io client disconnect") (state_of called) in
  let resumed := resume called Resolved w2 in
  let w3 := state_of resumed in
  awaits called = Some (AwaitPromise (length (promises connected_client)))
  /\ outcome (AwaitPromise (length (promises connected_client))) w2 = Some Resolved
  /\ run_alone resumed = None
  /\ lifecycle w3 =
     (false, None, true, reconnectionAttempts connected_client,
      promises connected_client ++ [Fulfilled; Pending],
      delays (trace connected_client))
  /\ live w3 = false.
Proof.
  apply (connect_while_connected accept_all None VUndefined connected_client
           0%nat connected_socket []
           [{| reg_event := "disconnect"; reg_once := false;
               reg_handler := UserCallback 9%nat |}]
           (VStr "io client disconnect")).
  - vm_compute. reflexivity.
  - vm_compute. reflexivity.
  - vm_compute. reflexivity.
  - constructor.
  - repeat constructor.
Defined.

End ConnectAgain.
